(** * Viralfx trend-intelligence service: a shallow embedding and its checked properties

    The development follows the Python sources under
    [ml-services/trend-intel/app]:

    - [services/text_cleaner.py]   -> [Module TextCleaner]
    - [services/virality_score.py] -> [Module ViralityScorer]
    - [services/topic_cluster.py]  -> [Module TopicCluster]
    - [routers/classify_router.py] -> [Module ClassifyRouter]
    - [routers/ingest_router.py]   -> [Module IngestRouter]
    - [services/toxicity_filter.py]   -> [Module ToxicityFilter]
    - [services/language_detector.py] -> [Module LanguageDetector]
    - [services/geo_classifier.py]    -> [Module GeoClassifier]
    - [routers/classify_router.py], the batch endpoint -> [Module ClassifyBatch]

    Python [str] values are lists of Unicode code points, Python [float]s are
    binary64 primitive floats, dictionaries with string keys are [gmap]s, and
    code that can raise returns a [result].  Calls into third-party packages
    (BeautifulSoup, emoji, unidecode, the embedding model, the clustering
    library, the classifiers, the Unicode character database) are fields of
    records that the embedded functions take as a parameter. *)

From Stdlib Require Import ZArith NArith List Bool String Ascii Floats Uint63 Lia.
From stdpp Require Import gmap strings list pretty.

Set Warnings "-inexact-float".
Set Default Proof Using "Type".

(** ** Python values, exceptions and strings *)

Module Py.

(** The exception classes that occur in the embedded code.  All of them are
    subclasses of [Exception], so every [except Exception] handler catches
    each of them. *)
Inductive exn : Type :=
| TypeError
| ValueError
| KeyError
| OverflowError
| ZeroDivisionError
| ProviderError          (* anything raised inside a third-party call *)
| HTTPException (status : nat).

Inductive result (A : Type) : Type :=
| Ok (a : A)
| Raise (e : exn).
Arguments Ok {A} a.
Arguments Raise {A} e.

Definition bind {A B} (r : result A) (k : A -> result B) : result B :=
  match r with
  | Ok a => k a
  | Raise e => Raise e
  end.

(** [try: body except Exception: handler] for a handler that cannot raise. *)
Definition try_except {A} (body : result A) (handler : exn -> A) : A :=
  match body with
  | Ok a => a
  | Raise e => handler e
  end.

(** A Python [str]: the list of its code points. *)
Abbreviation str := (list N).

(** The [str] written by an ASCII literal of the source. *)
Definition lit (s : string) : str :=
  map N_of_ascii (list_ascii_of_string s).

End Py.

Export Py.

#[export] Instance result_bind : MBind result := fun A B k r => bind r k.
#[export] Instance result_ret : MRet result := @Ok.

(** ** Dynamically typed values

    The values that the dictionaries passed between the services hold. *)

Module PyVal.

Inductive pyval : Type :=
| VNone
| VBool (b : bool)
| VInt (z : Z)
| VFloat (f : float)
| VStr (s : str).

(** [bool(v)] *)
Definition truthy (v : pyval) : bool :=
  match v with
  | VNone => false
  | VBool b => b
  | VInt z => negb (z =? 0)%Z
  | VFloat f => negb (PrimFloat.eqb f 0)
  | VStr s => match s with [] => false | _ :: _ => true end
  end.

(** [a or b] *)
Definition py_or (a b : pyval) : pyval := if truthy a then a else b.

(** [d.get(key, default)] *)
Definition dict_get (d : gmap string pyval) (key : string) (default : pyval) : pyval :=
  match d !! key with
  | Some v => v
  | None => default
  end.

(** *** Numbers

    [bool] and [int] operands are integers, [float] operands are binary64.
    An operation between two integers is exact; as soon as a float takes
    part, the integer operand is converted first.  [float(z)] rounds to
    nearest-even and raises [OverflowError] beyond the binary64 range. *)
Inductive num : Type :=
| NInt (z : Z)
| NFloat (f : float).

Definition as_num (v : pyval) : result num :=
  match v with
  | VBool b => Ok (NInt (Z.b2z b))
  | VInt z => Ok (NInt z)
  | VFloat f => Ok (NFloat f)
  | VNone | VStr _ => Raise TypeError
  end.

Definition float_of_int (z : Z) : result float :=
  let f := SF2Prim (binary_normalize prec emax z 0 false) in
  if PrimFloat.is_infinity f then Raise OverflowError else Ok f.

Definition to_float (n : num) : result float :=
  match n with
  | NInt z => float_of_int z
  | NFloat f => Ok f
  end.

Definition arith (iop : Z -> Z -> Z) (fop : float -> float -> float)
    (a b : pyval) : result pyval :=
  x ← as_num a;
  y ← as_num b;
  match x, y with
  | NInt i, NInt j => Ok (VInt (iop i j))
  | _, _ => f ← to_float x; g ← to_float y; Ok (VFloat (fop f g))
  end.

(** [a + b]; two strings are concatenated. *)
Definition py_add (a b : pyval) : result pyval :=
  match a, b with
  | VStr s, VStr t => Ok (VStr (s ++ t))
  | _, _ => arith Z.add PrimFloat.add a b
  end.

(** [a - b] *)
Definition py_sub (a b : pyval) : result pyval := arith Z.sub PrimFloat.sub a b.

(** [a * b] on numbers (the only operands that reach a product below). *)
Definition py_mul (a b : pyval) : result pyval := arith Z.mul PrimFloat.mul a b.

Definition is_zero_num (n : num) : bool :=
  match n with
  | NInt z => (z =? 0)%Z
  | NFloat f => PrimFloat.eqb f 0
  end.

(** [i / j] on two integers, [j] not zero: the quotient of the exact
    values, rounded once to the nearest float, with the sign of a zero
    quotient kept; [OverflowError] when it is beyond the binary64 range. *)
Definition int_true_div (i j : Z) : result float :=
  if (i =? 0)%Z then Ok (if (j <? 0)%Z then (-0)%float else 0%float)
  else
    let q :=
      SF2Prim (SFdiv prec emax (S754_finite (i <? 0)%Z (Z.to_pos (Z.abs i)) 0)
                               (S754_finite (j <? 0)%Z (Z.to_pos (Z.abs j)) 0)) in
    if PrimFloat.is_infinity q then Raise OverflowError else Ok q.

(** [a / b]: true division.  Two integers are divided exactly; otherwise
    both operands are converted to floats first, and a zero divisor is
    looked for after that. *)
Definition py_truediv (a b : pyval) : result pyval :=
  x ← as_num a;
  y ← as_num b;
  match x, y with
  | NInt i, NInt j =>
      if (j =? 0)%Z then Raise ZeroDivisionError
      else q ← int_true_div i j; Ok (VFloat q)
  | _, _ =>
      f ← to_float x;
      g ← to_float y;
      if PrimFloat.eqb g 0 then Raise ZeroDivisionError
      else Ok (VFloat (PrimFloat.div f g))
  end.

(** The order between an integer and a float, which Python finds on the
    exact values, without converting the integer: nothing for NaN. *)
Definition compare_int_float (i : Z) (f : float) : option comparison :=
  match Prim2SF f with
  | S754_nan => None
  | S754_infinity s => Some (if s then Gt else Lt)
  | S754_zero _ => Some (i ?= 0)%Z
  | S754_finite s m e =>
      let v := if s then Z.neg m else Z.pos m in
      Some (if (0 <=? e)%Z then (i ?= v * 2 ^ e)%Z else (i * 2 ^ (- e) ?= v)%Z)
  end.

Definition is_lt (c : option comparison) : bool :=
  match c with Some Lt => true | _ => false end.

Definition is_gt (c : option comparison) : bool :=
  match c with Some Gt => true | _ => false end.

Definition is_le (c : option comparison) : bool :=
  match c with Some (Lt | Eq) => true | _ => false end.

Definition is_ge (c : option comparison) : bool :=
  match c with Some (Gt | Eq) => true | _ => false end.

(** [a < b] on numbers: two integers and an integer and a float are
    compared exactly, two floats as floats. *)
Definition py_lt (a b : pyval) : result bool :=
  x ← as_num a;
  y ← as_num b;
  match x, y with
  | NInt i, NInt j => Ok (i <? j)%Z
  | NInt i, NFloat g => Ok (is_lt (compare_int_float i g))
  | NFloat f, NInt j => Ok (is_gt (compare_int_float j f))
  | NFloat f, NFloat g => Ok (PrimFloat.ltb f g)
  end.

Definition py_le (a b : pyval) : result bool :=
  x ← as_num a;
  y ← as_num b;
  match x, y with
  | NInt i, NInt j => Ok (i <=? j)%Z
  | NInt i, NFloat g => Ok (is_le (compare_int_float i g))
  | NFloat f, NInt j => Ok (is_ge (compare_int_float j f))
  | NFloat f, NFloat g => Ok (PrimFloat.leb f g)
  end.

(** [a > b] *)
Definition py_gt (a b : pyval) : result bool := py_lt b a.

(** [min(a, b)]: [a] unless [b < a]. *)
Definition py_min (a b : pyval) : result pyval :=
  c ← py_lt b a; Ok (if c : bool then b else a).

(** [max(a, b)]: [a] unless [b > a]. *)
Definition py_max (a b : pyval) : result pyval :=
  c ← py_gt b a; Ok (if c : bool then b else a).

(** [abs(a)] *)
Definition py_abs (a : pyval) : result pyval :=
  x ← as_num a;
  match x with
  | NInt i => Ok (VInt (Z.abs i))
  | NFloat f => Ok (VFloat (PrimFloat.abs f))
  end.

(** Nearest integer to [n / d] for [d > 0], ties to the even one. *)
Definition round_half_even (n d : Z) : Z :=
  let q := (n / d)%Z in
  let r := (n mod d)%Z in
  if (2 * r <? d)%Z then q
  else if (d <? 2 * r)%Z then (q + 1)%Z
  else if Z.even q then q else (q + 1)%Z.

(** [round(x, 2)] on a float: the float nearest to the two-decimal number
    nearest to the exact value of [x] (ties to even); infinities and NaN are
    returned as they are.  The last step divides by 100, which is correctly
    rounded as long as the scaled integer is below 2^53. *)
Definition float_round2 (x : float) : float :=
  match Prim2SF x with
  | S754_finite sgn m e =>
      let n :=
        if (0 <=? e)%Z
        then (Z.pos m * 2 ^ e * 100)%Z
        else round_half_even (Z.pos m * 100) (2 ^ (- e)) in
      let r := PrimFloat.div (SF2Prim (binary_normalize prec emax n 0 false)) 100 in
      if sgn then PrimFloat.opp r else r
  | _ => x
  end.

(** [round(a, 2)]: an integer is returned unchanged. *)
Definition py_round2 (a : pyval) : result pyval :=
  x ← as_num a;
  match x with
  | NInt i => Ok (VInt i)
  | NFloat f => Ok (VFloat (float_round2 f))
  end.

(** [a in [s1, s2, ...]] for a list of string literals. *)
Definition py_in_strs (a : pyval) (l : list string) : bool :=
  match a with
  | VStr s => existsb (fun x => bool_decide (s = lit x)) l
  | _ => false
  end.

End PyVal.

Export PyVal.

(** ** services/text_cleaner.py *)

Module TextCleaner.

(** *** Character classes *)

Definition in_range (lo hi c : N) : bool := ((lo <=? c) && (c <=? hi))%N.

Definition is_ascii_lower (c : N) : bool := in_range 97 122 c.
Definition is_ascii_upper (c : N) : bool := in_range 65 90 c.
Definition is_ascii_alpha (c : N) : bool := is_ascii_lower c || is_ascii_upper c.
Definition is_ascii_digit (c : N) : bool := in_range 48 57 c.
Definition is_ascii_alnum (c : N) : bool := is_ascii_alpha c || is_ascii_digit c.
Definition is_ascii (c : N) : bool := (c <? 128)%N.

(** [c in cs] for a character and a literal set of characters. *)
Definition one_of (cs : string) (c : N) : bool := existsb (N.eqb c) (lit cs).

(** [str.isspace] on one character, which is also the class [\s] of [re]
    on [str] patterns: U+0009..000D, U+001C..0020, U+0085, U+00A0, U+1680,
    U+2000..200A, U+2028, U+2029, U+202F, U+205F, U+3000. *)
Definition isspace (c : N) : bool :=
  in_range 9 13 c || in_range 28 32 c || (c =? 133)%N || (c =? 160)%N
  || (c =? 5760)%N || in_range 8192 8202 c || (c =? 8232)%N
  || (c =? 8233)%N || (c =? 8239)%N || (c =? 8287)%N || (c =? 12288)%N.

(** The part of the Unicode character database the code consults above
    U+007F: which characters are alphanumeric (for [\w]) and which are
    uppercase (for [str.isupper]). *)
Record unicode_db : Type := {
  uni_alnum : N -> bool;
  uni_upper : N -> bool
}.

(** The class [\w] of [re] on [str] patterns. *)
Definition is_word (U : unicode_db) (c : N) : bool :=
  if is_ascii c then is_ascii_alnum c || (c =? 95)%N else uni_alnum U c.

(** [c.isupper()]. *)
Definition isupper (U : unicode_db) (c : N) : bool :=
  if is_ascii c then is_ascii_upper c else uni_upper U c.

(** *** Compiled patterns

    A compiled pattern is the function that [re] runs at one position of
    the text: given the character before the position ([None] at the start
    of the text) and the text from the position on, it returns the length
    of the match that the backtracking matcher finds there, if any.  No
    pattern of this file matches the empty string. *)
Definition pattern : Type := option N -> str -> option nat.

(** Length of the longest prefix whose characters satisfy [p]: what a
    greedy [[...]*] consumes. *)
Fixpoint span (p : N -> bool) (s : str) : nat :=
  match s with
  | c :: t => if p c then S (span p t) else 0
  | [] => 0
  end.

Fixpoint starts_with (p s : str) : bool :=
  match p, s with
  | [], _ => true
  | a :: p', c :: s' => (a =? c)%N && starts_with p' s'
  | _ :: _, [] => false
  end.

(** [pattern.sub(repl, text)]: scan left to right, replace each match and
    resume after it.  [skip] counts the characters of the current match
    that are still to be passed over. *)
Fixpoint re_sub_go (m : pattern) (repl : str -> str)
    (skip : nat) (prev : option N) (s : str) : str :=
  match s with
  | [] => []
  | c :: t =>
      match skip with
      | S k => re_sub_go m repl k (Some c) t
      | O =>
          match m prev s with
          | Some (S n) => repl (take (S n) s) ++ re_sub_go m repl n (Some c) t
          | _ => c :: re_sub_go m repl O (Some c) t
          end
      end
  end.

Definition re_sub (m : pattern) (repl : str -> str) (s : str) : str :=
  re_sub_go m repl 0 None s.

(** [len(pattern.findall(text))]: the number of non-overlapping matches. *)
Fixpoint re_count_go (m : pattern) (skip : nat) (prev : option N) (s : str) : nat :=
  match s with
  | [] => 0
  | c :: t =>
      match skip with
      | S k => re_count_go m k (Some c) t
      | O =>
          match m prev s with
          | Some (S n) => S (re_count_go m n (Some c) t)
          | _ => re_count_go m O (Some c) t
          end
      end
  end.

Definition re_count (m : pattern) (s : str) : nat := re_count_go m 0 None s.

Definition delete : str -> str := fun _ => [].

(** [http[s]?://(?:[a-zA-Z]|[0-9]|[$-_@.&+]|[!*\\(\\),]|(?:%[0-9a-fA-F][0-9a-fA-F]))+]

    The first four alternatives of the group are one-character classes; the
    fifth, [%XX], only matches characters that the first three already
    accept one by one, so the group consumes the longest run of [url_char]. *)
Definition url_char (c : N) : bool :=
  is_ascii_alpha c || is_ascii_digit c
  || (in_range 36 95 c || one_of "@.&+" c)
  || one_of "!*\(\)," c.

Definition url_tail (s : str) (len_before : nat) : option nat :=
  if starts_with (lit "://") s then
    match span url_char (drop 3 s) with
    | O => None
    | S n => Some (len_before + 3 + S n)
    end
  else None.

Definition url_pattern : pattern := fun _ s =>
  if starts_with (lit "http") s then
    let r := drop 4 s in
    let with_s :=
      match r with
      | c :: t => if (c =? 115)%N then url_tail t 5 else None
      | [] => None
      end in
    match with_s with
    | Some n => Some n
    | None => url_tail r 4
    end
  else None.

(** [@\w+] and [#\w+] *)
Definition sigil_pattern (U : unicode_db) (sigil : N) : pattern := fun _ s =>
  match s with
  | c :: t =>
      if (c =? sigil)%N then
        match span (is_word U) t with
        | O => None
        | S n => Some (S (S n))
        end
      else None
  | [] => None
  end.

Definition mention_pattern (U : unicode_db) : pattern := sigil_pattern U 64.
Definition hashtag_pattern (U : unicode_db) : pattern := sigil_pattern U 35.

(** [\s+] *)
Definition whitespace_pattern : pattern := fun _ s =>
  match span isspace s with
  | O => None
  | S n => Some (S n)
  end.

(** [[^a-zA-Z0-9\s.,!?;:]] and [[^a-zA-Z0-9\s]] *)
Definition kept_char (keep_punctuation : bool) (c : N) : bool :=
  is_ascii_alnum c || isspace c || (keep_punctuation && one_of ".,!?;:" c).

Definition special_chars_pattern (keep_punctuation : bool) : pattern := fun _ s =>
  match s with
  | c :: _ => if kept_char keep_punctuation c then None else Some 1
  | [] => None
  end.

(** [(.)\1{k,}]: a character other than newline followed by at least [k]
    more copies of itself, as many as there are. *)
Definition repeated_chars (k : nat) : pattern := fun _ s =>
  match s with
  | c :: t =>
      if (c =? 10)%N then None
      else
        let n := span (N.eqb c) t in
        if (k <=? n)%nat then Some (S n) else None
  | [] => None
  end.

Definition repeated_chars_pattern : pattern := repeated_chars 2.

(** [\b]: exactly one of the two neighbours is a word character. *)
Definition word_boundary (U : unicode_db) (before after : option N) : bool :=
  xorb (from_option (is_word U) false before) (from_option (is_word U) false after).

(** [\b[A-Za-z0-9._%+-]+@[A-Za-z0-9.-]+\.[A-Z|a-z]{2,}\b]

    The local part is greedy and must be followed by [@], which it cannot
    contain, so it is the longest run.  The domain is greedy too and gives
    characters back one at a time until a dot, at least two characters of
    [[A-Z|a-z]] (as many as possible first) and a word boundary follow. *)
Definition local_char (c : N) : bool := is_ascii_alnum c || one_of "._%+-" c.
Definition domain_char (c : N) : bool := is_ascii_alnum c || one_of ".-" c.
Definition tld_char (c : N) : bool := is_ascii_alpha c || (c =? 124)%N.

(** [r] is the text after [@]; the suffix starts at index [start]; try the
    suffix lengths [k], [k-1], ..., 2 and return the end index of the match. *)
Fixpoint try_tld (U : unicode_db) (r : str) (start k : nat) : option nat :=
  match k with
  | O => None
  | S k' =>
      if (2 <=? k)%nat then
        let e := (start + k)%nat in
        if word_boundary U (r !! (e - 1)%nat) (r !! e) then Some e
        else try_tld U r start k'
      else None
  end.

(** Try the domain lengths [j], [j-1], ..., 1. *)
Fixpoint try_domain (U : unicode_db) (r : str) (j : nat) : option nat :=
  match j with
  | O => None
  | S j' =>
      let here :=
        match r !! j with
        | Some c =>
            if (c =? 46)%N
            then try_tld U r (S j) (span tld_char (drop (S j) r))
            else None
        | None => None
        end in
      match here with
      | Some e => Some e
      | None => try_domain U r j'
      end
  end.

Definition email_pattern (U : unicode_db) : pattern := fun prev s =>
  if word_boundary U prev (head s) then
    match span local_char s with
    | O => None
    | S l =>
        match drop (S l) s with
        | c :: r =>
            if (c =? 64)%N then
              match try_domain U r (span domain_char r) with
              | Some e => Some (S l + 1 + e)%nat
              | None => None
              end
            else None
        | [] => None
        end
    end
  else None.

(** [<[^>]+>], the fallback of [remove_html_tags]. *)
Definition html_pattern : pattern := fun _ s =>
  match s with
  | c :: t =>
      if (c =? 60)%N then
        match span (fun d => negb (d =? 62)%N) t with
        | O => None
        | S n =>
            match drop (S n) t with
            | _ :: _ => Some (S (S (S n)))
            | [] => None
            end
        end
      else None
  | [] => None
  end.

(** [[.!?]+], used by [get_text_stats] to count sentences. *)
Definition sentence_end_pattern : pattern := fun _ s =>
  match span (one_of ".!?") s with
  | O => None
  | S n => Some (S n)
  end.

(** *** Third-party packages used by the cleaner *)
Record libs : Type := {
  (** [BeautifulSoup(text, 'html.parser').get_text()] *)
  bs4_get_text : str -> result str;
  (** [emoji.demojize(text)] *)
  emoji_demojize : str -> str;
  (** [len(emoji.emoji_list(text))] *)
  emoji_count_of : str -> nat;
  (** [unidecode(text)] *)
  unidecode : str -> str;
  udb : unicode_db
}.

(** *** [str] methods *)
Fixpoint lstrip (s : str) : str :=
  match s with
  | c :: t => if isspace c then lstrip t else s
  | [] => []
  end.

Definition rstrip (s : str) : str := rev (lstrip (rev s)).

(** [text.strip()] *)
Definition strip (s : str) : str := rstrip (lstrip s).

(** [len(text.split())]: the number of maximal runs of non-whitespace. *)
Fixpoint word_count_go (in_word : bool) (s : str) : nat :=
  match s with
  | [] => 0
  | c :: t =>
      if isspace c then word_count_go false t
      else if in_word then word_count_go true t
      else S (word_count_go true t)
  end.

Definition word_count (s : str) : nat := word_count_go false s.

(** *** The methods of [TextCleaner] *)
Section Methods.
Context (L : libs).

Definition remove_urls (text : str) : str := re_sub url_pattern delete text.

Definition remove_emails (text : str) : str :=
  re_sub (email_pattern (udb L)) delete text.

Definition remove_html_tags (text : str) : str :=
  try_except (bs4_get_text L text) (fun _ => re_sub html_pattern delete text).

Definition remove_mentions (text : str) : str :=
  re_sub (mention_pattern (udb L)) delete text.

Definition remove_hashtags (text : str) : str :=
  re_sub (hashtag_pattern (udb L)) delete text.

Definition replace_emojis_with_text (text : str) : str := emoji_demojize L text.

Definition normalize_whitespace (text : str) : str :=
  strip (re_sub whitespace_pattern (fun _ => lit " ") text).

Definition remove_special_characters (text : str) (keep_punctuation : bool) : str :=
  re_sub (special_chars_pattern keep_punctuation) delete text.

Definition normalize_unicode (text : str) : str := unidecode L text.

Definition remove_repeated_characters (text : str) (max_repeats : nat) : str :=
  re_sub (repeated_chars max_repeats)
         (fun m => match m with c :: _ => replicate max_repeats c | [] => [] end)
         text.

Definition clean (text : str) (preserve_hashtags preserve_mentions : bool) : str :=
  match text with
  | [] => []
  | _ :: _ =>
      let cleaned := strip text in
      let cleaned := remove_html_tags cleaned in
      let cleaned := remove_urls cleaned in
      let cleaned := remove_emails cleaned in
      let cleaned := if preserve_hashtags then cleaned else remove_hashtags cleaned in
      let cleaned := if preserve_mentions then cleaned else remove_mentions cleaned in
      let cleaned := replace_emojis_with_text cleaned in
      let cleaned := remove_special_characters cleaned true in
      let cleaned := normalize_unicode cleaned in
      let cleaned := remove_repeated_characters cleaned 2 in
      let cleaned := normalize_whitespace cleaned in
      strip cleaned
  end.

(** [clean(text)] with the default arguments
    [preserve_hashtags=True, preserve_mentions=False]. *)
Definition clean_default (text : str) : str := clean text true false.

Definition clean_for_classification (text : str) : str :=
  match text with
  | [] => []
  | _ :: _ =>
      let cleaned := strip text in
      let cleaned := remove_html_tags cleaned in
      let cleaned := remove_urls cleaned in
      let cleaned := replace_emojis_with_text cleaned in
      let cleaned := normalize_unicode cleaned in
      let cleaned := remove_repeated_characters cleaned 2 in
      let cleaned := remove_special_characters cleaned true in
      let cleaned := normalize_whitespace cleaned in
      cleaned
  end.

Record text_stats : Type := {
  character_count : nat;
  word_count_ : nat;
  sentence_count : nat;
  hashtag_count : nat;
  mention_count : nat;
  emoji_count : nat;
  url_count : nat
}.

Definition get_text_stats (text : str) : text_stats :=
  {| character_count := length text;
     word_count_ := word_count text;
     sentence_count := S (re_count sentence_end_pattern text);
     hashtag_count := re_count (hashtag_pattern (udb L)) text;
     mention_count := re_count (mention_pattern (udb L)) text;
     emoji_count := emoji_count_of L text;
     url_count := re_count url_pattern text |}.

(** [a / b] on two [int]s that are counts of characters or matches: the
    binary64 quotient.  (Exact for operands below 2^53.) *)
Definition int_to_float (n : nat) : float :=
  PrimFloat.of_uint63 (Uint63.of_Z (Z.of_nat n)).

Definition true_div (a b : nat) : float :=
  PrimFloat.div (int_to_float a) (int_to_float b).

(** [x > y] on floats. *)
Definition float_gt (x y : float) : bool := PrimFloat.ltb y x.

Definition uppercase_count (text : str) : nat :=
  length (filter (fun c => isupper (udb L) c = true) text).

Definition is_spam (text : str) : bool :=
  let stats := get_text_stats text in
  let word_count := Nat.max (word_count_ stats) 1 in
  let hashtag_ratio := true_div (hashtag_count stats) word_count in
  if float_gt hashtag_ratio 0.3 then true else
  let mention_ratio := true_div (mention_count stats) word_count in
  if float_gt mention_ratio 0.2 then true else
  if (2 <? url_count stats)%nat then true else
  if (if (10 <? length text)%nat
      then float_gt (true_div (uppercase_count text) (length text)) 0.7
      else false)
  then true else
  let repeated_sections := re_count repeated_chars_pattern text in
  if (3 <? repeated_sections)%nat then true else
  false.

End Methods.

End TextCleaner.

(** ** services/virality_score.py *)

Module ViralityScorer.

(** The model [ViralityMetrics] of [models/schemas.py]; its numeric fields
    are declared [float], so integers are converted on construction. *)
Record ViralityMetrics : Type := {
  engagement_rate : float;
  velocity : float;
  sentiment_strength : float;
  quality_multiplier : float;
  regional_weight : float;
  virality_score : float;
  formula : string
}.

Definition field_float (v : pyval) : result float := n ← as_num v; to_float n.

(** A bound method: it receives its positional arguments as a list, and a
    call with the wrong number of them raises [TypeError] before the body
    runs. *)
Definition method : Type := list pyval -> result pyval.

Section Scorer.

(** [math.log10] on a positive float, from the C library. *)
Context (log10 : float -> float).

(** [math.log10(a)]: [ValueError] for arguments that are not positive. *)
Definition math_log10 (a : pyval) : result pyval :=
  x ← as_num a;
  f ← to_float x;
  if PrimFloat.leb f 0 then Raise ValueError else Ok (VFloat (log10 f)).

Definition calculate_engagement_rate : method := fun args =>
  match args with
  | [likes; shares; comments; views; impressions] =>
      Ok (try_except
        (s ← py_add likes comments;
         total_engagement ← py_add s shares;
         effective_impressions ← py_max (py_or (py_or impressions views) (VInt 1)) (VInt 1);
         q ← py_truediv total_engagement effective_impressions;
         raw_rate ← py_mul q (VInt 100);
         r1 ← py_add raw_rate (VInt 1);
         l ← math_log10 r1;
         scaled ← py_mul l (VInt 20);
         normalized_rate ← py_min scaled (VFloat 100.0);
         py_round2 normalized_rate)
        (fun _ => VFloat 0.0))
  | _ => Raise TypeError
  end.

Definition calculate_velocity : method := fun args =>
  match args with
  | [current_engagement; previous_engagement; time_minutes] =>
      Ok (try_except
        (stopped ← py_le time_minutes (VInt 0);
         if stopped : bool then Ok (VFloat 0.0) else
         engagement_change ← py_sub current_engagement previous_engagement;
         flat ← py_le engagement_change (VInt 0);
         if flat : bool then Ok (VFloat 0.0) else
         raw_velocity ← py_truediv engagement_change time_minutes;
         r1 ← py_add raw_velocity (VInt 1);
         l ← math_log10 r1;
         scaled ← py_mul l (VInt 15);
         normalized_velocity ← py_min scaled (VFloat 100.0);
         py_round2 normalized_velocity)
        (fun _ => VFloat 0.0))
  | _ => Raise TypeError
  end.

Definition calculate_sentiment_strength : method := fun args =>
  match args with
  | [sentiment_score] =>
      Ok (try_except
        (a ← py_abs sentiment_score;
         strength ← py_mul a (VInt 100);
         m ← py_min strength (VFloat 100.0);
         py_round2 m)
        (fun _ => VFloat 0.0))
  | _ => Raise TypeError
  end.

Definition calculate_quality_multiplier : method := fun args =>
  match args with
  | [toxicity; language_confidence; is_spam] =>
      Ok (try_except
        (let multiplier := 1.0%float in
         low ← py_lt toxicity (VFloat 0.3);
         multiplier ←
           (if low : bool then Ok (multiplier + 0.2)%float
            else high ← py_gt toxicity (VFloat 0.7);
                 Ok (if high : bool then (multiplier - 0.5)%float else multiplier));
         confident ← py_gt language_confidence (VFloat 0.8);
         let multiplier := if confident : bool then (multiplier + 0.1)%float else multiplier in
         let multiplier := if truthy is_spam then (multiplier - 0.8)%float else multiplier in
         inner ← py_min (VFloat multiplier) (VFloat 1.5);
         clamped ← py_max (VFloat 0.1) inner;
         py_round2 clamped)
        (fun _ => VFloat 0.5))
  | _ => Raise TypeError
  end.

Definition calculate_regional_weight : method := fun args =>
  match args with
  | [region; is_sa] =>
      Ok (try_except
        (let weight := 1.0%float in
         let weight := if truthy is_sa then (weight + 0.3)%float else weight in
         let high_engagement_regions := ["GP"; "WC"; "KZN"]%string in
         let weight :=
           if py_in_strs region high_engagement_regions
           then (weight + 0.1)%float else weight in
         py_round2 (VFloat weight))
        (fun _ => VFloat 1.0))
  | _ => Raise TypeError
  end.

Definition the_formula : string := "(E + V + S) * Q * R".

Definition calculate_virality_score (metrics : gmap string pyval) : ViralityMetrics :=
  try_except
    (s ← py_add (dict_get metrics "likes" (VInt 0)) (dict_get metrics "comments" (VInt 0));
     engagement ← py_add s (dict_get metrics "shares" (VInt 0));
     let impressions :=
       py_or (dict_get metrics "impressions" (dict_get metrics "views" (VInt 1))) (VInt 1) in
     let historical_engagement := dict_get metrics "historical_engagement" (VInt 0) in
     let time_diff_minutes := dict_get metrics "time_diff_minutes" (VInt 60) in
     let sentiment_score := dict_get metrics "sentiment" (VFloat 0.0) in
     let toxicity := dict_get metrics "toxicity" (VFloat 0.0) in
     let language_confidence := dict_get metrics "language_confidence" (VFloat 0.0) in
     let is_spam := dict_get metrics "is_spam" (VBool false) in
     let region := dict_get metrics "region" VNone in
     let is_sa := dict_get metrics "is_sa" (VBool false) in
     E ← calculate_engagement_rate [engagement; impressions];
     V ← calculate_velocity [engagement; historical_engagement; time_diff_minutes];
     S ← calculate_sentiment_strength [sentiment_score];
     Q ← calculate_quality_multiplier [toxicity; language_confidence; is_spam];
     R ← calculate_regional_weight [region; is_sa];
     ev ← py_add E V;
     evs ← py_add ev S;
     evsq ← py_mul evs Q;
     virality_score ← py_mul evsq R;
     virality_score ← py_min virality_score (VFloat 100.0);
     e ← field_float E;
     v ← field_float V;
     s ← field_float S;
     q ← field_float Q;
     r ← field_float R;
     vs ← field_float virality_score;
     Ok {| engagement_rate := e;
           velocity := v;
           sentiment_strength := s;
           quality_multiplier := q;
           regional_weight := r;
           virality_score := vs;
           formula := the_formula |})
    (fun _ =>
       {| engagement_rate := 0.0;
          velocity := 0.0;
          sentiment_strength := 0.0;
          quality_multiplier := 0.1;
          regional_weight := 1.0;
          virality_score := 0.0;
          formula := the_formula |}).

(** The formula of the docstring, with every component called the way its
    signature asks for: what [calculate_virality_score] is documented to
    compute. *)
Definition documented_score (metrics : gmap string pyval) : result pyval :=
  let likes := dict_get metrics "likes" (VInt 0) in
  let comments := dict_get metrics "comments" (VInt 0) in
  let shares := dict_get metrics "shares" (VInt 0) in
  s ← py_add likes comments;
  engagement ← py_add s shares;
  E ← calculate_engagement_rate
        [likes; shares; comments;
         dict_get metrics "views" (VInt 1);
         dict_get metrics "impressions" VNone];
  V ← calculate_velocity
        [engagement; dict_get metrics "historical_engagement" (VInt 0);
         dict_get metrics "time_diff_minutes" (VInt 60)];
  S ← calculate_sentiment_strength [dict_get metrics "sentiment" (VFloat 0.0)];
  Q ← calculate_quality_multiplier
        [dict_get metrics "toxicity" (VFloat 0.0);
         dict_get metrics "language_confidence" (VFloat 0.0);
         dict_get metrics "is_spam" (VBool false)];
  R ← calculate_regional_weight
        [dict_get metrics "region" VNone; dict_get metrics "is_sa" (VBool false)];
  ev ← py_add E V;
  evs ← py_add ev S;
  evsq ← py_mul evs Q;
  score ← py_mul evsq R;
  py_min score (VFloat 100.0).

End Scorer.

End ViralityScorer.

(** ** services/topic_cluster.py *)

Module TopicCluster.

(** A post dictionary.  The value under ['id'] identifies a row of the
    [IngestEvent] table (a UUID, or nothing); it is kept apart from the other
    entries because the orchestrator uses it as a key. *)
Record post : Type := {
  id : option string;
  fields : gmap string pyval
}.

(** [post.get(key, default)] for the keys other than ['id']. *)
Definition post_get (p : post) (key : string) (default : pyval) : pyval :=
  dict_get (fields p) key default.

(** One row of an embedding matrix. *)
Abbreviation vector := (list float).

(** [topic['id']]: [f'topic_{n}'] or ['fallback_cluster']. *)
Inductive cluster_id : Type :=
| topic_ (n : nat)
| fallback_cluster.

(** The entries that [generate_topic_metadata] adds to a topic. *)
Record metadata : Type := {
  title : str;
  summary : str;
  keywords : list str;
  platforms : list pyval;
  total_engagement : pyval;
  region : pyval;
  post_count : nat;
  created_at : str
}.

(** A topic dictionary.  [embeddings] and [meta] are absent from the
    fallback cluster. *)
Record topic : Type := {
  topic_id : cluster_id;
  posts : list post;
  size : nat;
  topic_virality_score : float;
  embeddings : option (list vector);
  meta : option metadata
}.

(** The third-party packages and the parts of the module that only wrap
    them. *)
Record libs : Type := {
  SENTENCE_TRANSFORMERS_AVAILABLE : bool;
  HDBSCAN_AVAILABLE : bool;
  (** [SentenceTransformer(name)] and [TfidfVectorizer(...)] *)
  new_sentence_transformer : result unit;
  new_tfidf_vectorizer : result unit;
  (** [_generate_sentence_transformer_embeddings] ([model.encode] behind the
      embedding cache) and [_generate_tfidf_embeddings] ([fit_transform]) *)
  sentence_transformer_embeddings : list pyval -> result (list vector);
  tfidf_embeddings : list pyval -> result (list vector);
  (** [HDBSCAN(min_cluster_size, metric='cosine', ...).fit_predict] and
      [DBSCAN(eps, min_samples, metric='cosine').fit_predict] *)
  hdbscan_fit_predict : Z -> list vector -> result (list Z);
  dbscan_fit_predict : float -> Z -> list vector -> result (list Z);
  (** [extract_keywords] (scikit-learn TF-IDF; it catches its own errors) *)
  extract_keywords : list pyval -> list str;
  (** [generate_topic_summary] (it catches its own errors) *)
  generate_topic_summary : list post -> str;
  (** [list(set(...))], [max(set(regions), key=regions.count)], whose
      results depend on the iteration order of a set *)
  distinct_platforms : list pyval -> list pyval;
  most_common_region : list pyval -> pyval;
  (** [datetime.utcnow().isoformat()] *)
  utcnow_isoformat : str;
  (** [str.title] *)
  str_title : str -> str
}.

(** The attributes of a [TopicCluster] instance that its methods read. *)
Record instance : Type := {
  is_loaded : bool;                 (* self._is_loaded *)
  has_model : bool;                 (* self.model is not None *)
  has_tfidf_vectorizer : bool;      (* self.tfidf_vectorizer is not None *)
  clustering_algorithm : string;
  min_cluster_size_ : Z;
  eps : float
}.

(** [TopicCluster()] *)
Definition new_instance : instance :=
  {| is_loaded := false;
     has_model := false;
     has_tfidf_vectorizer := false;
     clustering_algorithm := "hdbscan";
     min_cluster_size_ := 5;
     eps := 0.3 |}.

(** [len(a)] *)
Definition py_len (a : pyval) : result nat :=
  match a with
  | VStr s => Ok (length s)
  | _ => Raise TypeError
  end.

(** [sep.join(parts)] *)
Fixpoint join (sep : str) (parts : list str) : str :=
  match parts with
  | [] => []
  | [p] => p
  | p :: rest => p ++ sep ++ join sep rest
  end.

Section Methods.
Context (L : libs).

Definition _setup_tfidf_fallback (self : instance) : result instance :=
  _ ← new_tfidf_vectorizer L;
  Ok {| is_loaded := true;
        has_model := has_model self;
        has_tfidf_vectorizer := true;
        clustering_algorithm := clustering_algorithm self;
        min_cluster_size_ := min_cluster_size_ self;
        eps := eps self |}.

Definition load_models (self : instance) : result instance :=
  let attempt :=
    if SENTENCE_TRANSFORMERS_AVAILABLE L then
      _ ← new_sentence_transformer L;
      Ok {| is_loaded := true;
            has_model := true;
            has_tfidf_vectorizer := has_tfidf_vectorizer self;
            clustering_algorithm := clustering_algorithm self;
            min_cluster_size_ := min_cluster_size_ self;
            eps := eps self |}
    else _setup_tfidf_fallback self in
  match attempt with
  | Ok self' => Ok self'
  | Raise _ => _setup_tfidf_fallback self
  end.

Definition post_text (p : post) : pyval :=
  py_or (post_get p "textContent" (VStr [])) (post_get p "text" (VStr [])).

Definition _extract_texts (posts : list post) : list pyval :=
  filter (fun text => truthy text = true) (map post_text posts).

(** [np.zeros((rows, cols))] *)
Definition np_zeros (rows cols : nat) : list vector :=
  replicate rows (replicate cols 0%float).

Definition generate_embeddings (self : instance) (texts : list pyval) : list vector :=
  match texts with
  | [] => []
  | _ :: _ =>
      try_except
        (if SENTENCE_TRANSFORMERS_AVAILABLE L && has_model self
         then sentence_transformer_embeddings L texts
         else tfidf_embeddings L texts)
        (fun _ => np_zeros (length texts) 384)
  end.

(** [np.array([-1] * n)] *)
Definition all_noise (n : nat) : list Z := replicate n (-1)%Z.

Definition apply_clustering (self : instance) (embeddings : list vector)
    (min_cluster_size : Z) : list Z :=
  if (Z.of_nat (length embeddings) <? min_cluster_size)%Z then
    all_noise (length embeddings)
  else
    try_except
      (if bool_decide (clustering_algorithm self = "hdbscan"%string) && HDBSCAN_AVAILABLE L
       then hdbscan_fit_predict L min_cluster_size embeddings
       else dbscan_fit_predict L (eps self) min_cluster_size embeddings)
      (fun _ => all_noise (length embeddings)).

(** [x or default] for an optional integer. *)
Definition int_or (x : option Z) (default : Z) : Z :=
  match x with
  | Some z => if (z =? 0)%Z then default else z
  | None => default
  end.

(** The dictionary [topics] of [_group_posts_by_cluster], in insertion
    order. *)
Fixpoint topics_lookup (label : Z) (topics : list (Z * topic)) : option topic :=
  match topics with
  | [] => None
  | (l, t) :: rest => if (l =? label)%Z then Some t else topics_lookup label rest
  end.

Fixpoint topics_alter (f : topic -> topic) (label : Z) (topics : list (Z * topic))
    : list (Z * topic) :=
  match topics with
  | [] => []
  | (l, t) :: rest =>
      if (l =? label)%Z then (l, f t) :: rest
      else (l, t) :: topics_alter f label rest
  end.

Definition new_topic (counter : nat) : topic :=
  {| topic_id := topic_ counter;
     posts := [];
     size := 0;
     topic_virality_score := 0.0;
     embeddings := Some [];
     meta := None |}.

Definition add_post (p : post) (row : option vector) (t : topic) : topic :=
  {| topic_id := topic_id t;
     posts := posts t ++ [p];
     size := S (size t);
     topic_virality_score := topic_virality_score t;
     embeddings :=
       match row, embeddings t with
       | Some r, Some rows => Some (rows ++ [r])
       | _, e => e
       end;
     meta := meta t |}.

(** The loop of [_group_posts_by_cluster] over [zip(posts, cluster_labels)]. *)
Fixpoint group_loop (items : list (post * Z)) (post_idx : nat)
    (all_embeddings : list vector) (topics : list (Z * topic))
    (cluster_id_counter : nat) : list (Z * topic) :=
  match items with
  | [] => topics
  | (p, label) :: rest =>
      if (label =? -1)%Z then
        group_loop rest (S post_idx) all_embeddings topics cluster_id_counter
      else
        let '(topics, cluster_id_counter) :=
          match topics_lookup label topics with
          | Some _ => (topics, cluster_id_counter)
          | None => (topics ++ [(label, new_topic cluster_id_counter)],
                     S cluster_id_counter)
          end in
        let topics := topics_alter (add_post p (all_embeddings !! post_idx)) label topics in
        group_loop rest (S post_idx) all_embeddings topics cluster_id_counter
  end.

Definition _group_posts_by_cluster (self : instance) (posts : list post)
    (cluster_labels : list Z) (all_embeddings : list vector)
    (min_cluster_size : option Z) : list topic :=
  let effective_min_cluster_size := int_or min_cluster_size (min_cluster_size_ self) in
  let topics := group_loop (zip posts cluster_labels) 0 all_embeddings [] 0 in
  filter (fun t => (effective_min_cluster_size <=? Z.of_nat (size t))%Z = true)
         (map snd topics).

(** The loop of [generate_topic_title]: the state is
    [(representative_post, best_score)]. *)
Fixpoint title_loop (posts : list post) (representative_post : option pyval)
    (best_score : pyval) : result (option pyval) :=
  match posts with
  | [] => Ok representative_post
  | p :: rest =>
      let text := post_text p in
      let engagement := py_or (post_get p "engagementCount" (VInt 0)) (VInt 0) in
      length ← py_len text;
      if (0 <? length)%nat then
        score ← py_truediv engagement (VInt (Z.of_nat (Nat.max length 1)));
        better ← py_gt score best_score;
        if better : bool
        then title_loop rest (Some text) score
        else title_loop rest representative_post best_score
      else title_loop rest representative_post best_score
  end.

Definition untitled : str := lit "Untitled Topic".

(** The tail of [generate_topic_title], after the test on the
    representative post. *)
Definition keyword_title (keywords : list str) : str :=
  match keywords with
  | _ :: _ =>
      let title := str_title L (join (lit " ") (take 3 keywords)) in
      take 100 title
  | [] => untitled
  end.

Definition generate_topic_title (posts : list post) (keywords : list str) : str :=
  try_except
    (representative_post ← title_loop posts None (VInt (-1));
     match representative_post with
     | Some text =>
         if truthy text then
           n ← py_len text;
           if (n <=? 100)%nat
           then match text with VStr s => Ok s | _ => Raise TypeError end
           else Ok (keyword_title keywords)
         else Ok (keyword_title keywords)
     | None => Ok (keyword_title keywords)
     end)
    (fun _ => untitled).

(** [sum(post.get('engagementCount', 0) or 0 for post in posts)] *)
Fixpoint sum_engagement (posts : list post) (acc : pyval) : result pyval :=
  match posts with
  | [] => Ok acc
  | p :: rest =>
      acc ← py_add acc (py_or (post_get p "engagementCount" (VInt 0)) (VInt 0));
      sum_engagement rest acc
  end.

(** [f'Topic {cluster_id}'] *)
Definition placeholder_title (c : cluster_id) : str :=
  lit "Topic " ++
  match c with
  | topic_ n => lit "topic_" ++ lit (pretty n)
  | fallback_cluster => lit "fallback_cluster"
  end.

Definition generate_topic_metadata (topic_posts : list post) (c : cluster_id) : metadata :=
  try_except
    (let texts := _extract_texts topic_posts in
     let keywords := extract_keywords L texts in
     let title := generate_topic_title topic_posts keywords in
     let summary := generate_topic_summary L topic_posts in
     let platforms :=
       distinct_platforms L (map (fun p => post_get p "platform" (VStr [])) topic_posts) in
     total_engagement ← sum_engagement topic_posts (VInt 0);
     let regions :=
       map (fun p => post_get p "region" (VStr []))
           (filter (fun p => truthy (post_get p "region" VNone) = true) topic_posts) in
     let region :=
       match regions with
       | _ :: _ => most_common_region L regions
       | [] => VNone
       end in
     Ok {| title := title;
           summary := summary;
           keywords := keywords;
           platforms := platforms;
           total_engagement := total_engagement;
           region := region;
           post_count := length topic_posts;
           created_at := utcnow_isoformat L |})
    (fun _ =>
       {| title := placeholder_title c;
          summary := [];
          keywords := [];
          platforms := [];
          total_engagement := VInt 0;
          region := VNone;
          post_count := length topic_posts;
          created_at := utcnow_isoformat L |}).

(** [topic.update(metadata)] *)
Definition topic_update (t : topic) (m : metadata) : topic :=
  {| topic_id := topic_id t;
     posts := posts t;
     size := size t;
     topic_virality_score := topic_virality_score t;
     embeddings := embeddings t;
     meta := Some m |}.

(** The cluster that the handler of [cluster_posts] returns. *)
Definition fallback_topic (all_posts : list post) : topic :=
  {| topic_id := fallback_cluster;
     posts := all_posts;
     size := length all_posts;
     topic_virality_score := 0.0;
     embeddings := None;
     meta := None |}.

(** [cluster_posts].  The instance is loaded first, outside the [try]; what
    the loading leaves in [self] is read by the rest of the call only. *)
Definition cluster_posts (self : instance) (all_posts : list post)
    (min_cluster_size : option Z) : result (list topic) :=
  match all_posts with
  | [] => Ok []
  | _ :: _ =>
      self ← (if is_loaded self then Ok self else load_models self);
      let min_cluster_size := int_or min_cluster_size (min_cluster_size_ self) in
      Ok (try_except
        (let texts := _extract_texts all_posts in
         match texts with
         | [] => Ok []
         | _ :: _ =>
             let embeddings := generate_embeddings self texts in
             let cluster_labels := apply_clustering self embeddings min_cluster_size in
             let topics :=
               _group_posts_by_cluster self all_posts cluster_labels embeddings
                                       (Some min_cluster_size) in
             Ok (map (fun t => topic_update t (generate_topic_metadata (posts t) (topic_id t)))
                     topics)
         end)
        (fun _ => [fallback_topic all_posts]))
  end.

End Methods.

End TopicCluster.

(** ** The classifier services and the result models of models/schemas.py *)

Module Services.

Record SentimentScore : Type := {
  sentiment_score : float;
  sentiment_label : str;
  sentiment_confidence : float;
  emotions : option (gmap string float)
}.

Record ToxicityScore : Type := {
  toxicity_score : float;
  is_toxic : bool;
  categories : gmap string float;
  toxicity_confidence : float
}.

Record GeoClassification : Type := {
  geo_region : option str;
  geo_confidence : float;
  is_south_african : bool;
  indicators : list str
}.

(** The service instances that the routers receive.  Every call into a
    model can raise. *)
Record services : Type := {
  text_libs : TextCleaner.libs;
  (** [language_detector.detect(text, min_confidence)] *)
  detect : str -> float -> result (str * float);
  (** [language_detector.is_supported_language(text, min_confidence)] *)
  is_supported_language : str -> float -> result bool;
  (** [sentiment_analyzer.analyze(text)] *)
  sentiment_analyze : str -> result SentimentScore;
  (** [toxicity_filter.analyze(text)] *)
  toxicity_analyze : str -> result ToxicityScore;
  (** [geo_classifier.classify(text)] *)
  geo_classify : str -> result GeoClassification
}.

End Services.

(** ** routers/classify_router.py *)

Module ClassifyRouter.
Import Services.

Record ClassifyRequest : Type := {
  text : str;
  language : str;
  include_toxicity : bool;
  include_sentiment : bool;
  include_geo : bool
}.

Record ClassificationResult : Type := {
  r_text : str;
  r_language : str;
  r_language_confidence : float;
  r_sentiment : option SentimentScore;
  r_toxicity : option ToxicityScore;
  r_geo_classification : option GeoClassification;
  r_processing_time_ms : float;
  r_text_length : nat;
  r_is_spam : bool
}.

(** What the endpoint needs besides the classifiers. *)
Record environment : Type := {
  (** [settings.max_text_length] *)
  max_text_length : nat;
  (** the key built from the MD5 digests of the text and of the options *)
  cache_key : ClassifyRequest -> string;
  (** [cache_service.get_json(key)] followed by the construction of a
      [ClassificationResult] from the entry, which validates it *)
  cache_get_json : string -> option (result ClassificationResult);
  (** [(time.time() - start_time) * 1000] at the end of the request *)
  processing_time_ms : float
}.

Inductive classifier : Type := Sentiment | Toxicity | Geo.

(** What a request leaves behind: the calls made to the downstream
    classifiers, the errors logged for them, and the cache write. *)
Inductive event : Type :=
| Invoked (c : classifier)
| LoggedError (c : classifier)
| CacheSet (key : string).

(** [if requested: try: field = await call except Exception: log] *)
Definition guarded_call {A} (requested : bool) (c : classifier) (call : result A)
    : option A * list event :=
  if requested then
    match call with
    | Ok r => (Some r, [Invoked c])
    | Raise _ => (None, [Invoked c; LoggedError c])
    end
  else (None, []).

(** [except HTTPException: raise / except Exception: raise HTTPException(500)] *)
Definition as_http_error (e : exn) : exn :=
  match e with
  | HTTPException s => HTTPException s
  | _ => HTTPException 500
  end.

(** The field constraints [ge=0.0, le=1.0] of [language_confidence]. *)
Definition validate_result (r : ClassificationResult) : result ClassificationResult :=
  if PrimFloat.leb 0 (r_language_confidence r) && PrimFloat.leb (r_language_confidence r) 1
  then Ok r else Raise ValueError.

Section Endpoint.
Context (S : services) (E : environment).

(** Lines 137-163: the three downstream classifiers. *)
Definition fan_out (request : ClassifyRequest) (cleaned_text : str)
    (supported_language is_spam : bool)
    : (option SentimentScore * option ToxicityScore * option GeoClassification) * list event :=
  if supported_language && negb is_spam then
    let '(sentiment_result, e1) :=
      guarded_call (include_sentiment request) Sentiment (sentiment_analyze S cleaned_text) in
    let '(toxicity_result, e2) :=
      guarded_call (include_toxicity request) Toxicity (toxicity_analyze S cleaned_text) in
    let '(geo_result, e3) :=
      guarded_call (include_geo request) Geo (geo_classify S cleaned_text) in
    ((sentiment_result, toxicity_result, geo_result), e1 ++ e2 ++ e3)
  else ((None, None, None), []).

(** Lines 118-132: the language given in the request, or the detected one. *)
Definition detect_language (request : ClassifyRequest) (cleaned_text : str) : str * float :=
  if bool_decide (language request = lit "auto") then
    try_except (detect S cleaned_text 0.5) (fun _ => (lit "unknown", 0%float))
  else (language request, 1%float).

Definition classify_body (request : ClassifyRequest)
    : result ClassificationResult * list event :=
  if bool_decide (text request = []) || bool_decide (TextCleaner.strip (text request) = [])
  then (Raise (HTTPException 400), [])
  else if (max_text_length E <? length (text request))%nat
  then (Raise (HTTPException 400), [])
  else
    let key := cache_key E request in
    match cache_get_json E key with
    | Some cached => (cached, [])
    | None =>
        let cleaned_text := TextCleaner.clean_for_classification (text_libs S) (text request) in
        let is_spam := TextCleaner.is_spam (text_libs S) cleaned_text in
        let '(language_code, language_confidence) := detect_language request cleaned_text in
        match is_supported_language S cleaned_text 0.7 with
        | Raise e => (Raise e, [])
        | Ok supported_language =>
            let '((sentiment_result, toxicity_result, geo_result), events) :=
              fan_out request cleaned_text supported_language is_spam in
            let result :=
              validate_result
                {| r_text := text request;
                   r_language := language_code;
                   r_language_confidence := language_confidence;
                   r_sentiment := sentiment_result;
                   r_toxicity := toxicity_result;
                   r_geo_classification := geo_result;
                   r_processing_time_ms := processing_time_ms E;
                   r_text_length := length (text request);
                   r_is_spam := is_spam |} in
            match result with
            | Ok r => (Ok r, events ++ [CacheSet key])
            | Raise e => (Raise e, events)
            end
        end
    end.

Definition classify_text (request : ClassifyRequest)
    : result ClassificationResult * list event :=
  let '(outcome, events) := classify_body request in
  (match outcome with
   | Ok r => Ok r
   | Raise e => Raise (as_http_error e)
   end, events).

End Endpoint.

End ClassifyRouter.

(** ** routers/ingest_router.py *)

Module IngestRouter.
Import Services TopicCluster.

(** One row of the table [IngestEvent], as far as the orchestrator writes
    it. *)
Record ingest_event : Type := {
  processed : bool;
  topicId : option string
}.

(** The rows of [IngestEvent], by primary key. *)
Abbreviation table := (gmap string ingest_event).

(** The two tables that the orchestrator writes: the rows of [IngestEvent]
    and the primary keys of the rows of [trend_topics], to which the column
    [IngestEvent.topicId] is a foreign key. *)
Record database : Type := {
  ingest_events : table;
  trend_topics : gset string
}.

(** An [AsyncSession] made by [SessionLocal] ([autocommit=False]): the
    database as it is committed, and as the transaction of the session sees
    it.  Other sessions see [committed] only. *)
Record session : Type := {
  committed : database;
  view : database
}.

(** [SessionLocal()] *)
Definition open_session (db : database) : session :=
  {| committed := db; view := db |}.

(** [await db.commit()] *)
Definition commit (s : session) : session :=
  {| committed := view s; view := view s |}.

(** [await db.rollback()] *)
Definition rollback (s : session) : session :=
  {| committed := committed s; view := committed s |}.

(** The end of [async with SessionLocal() as db]: the session is closed, and
    what its transaction has not committed is rolled back. *)
Definition close (s : session) : database := committed s.

(** [db.add(db_topic)] and [await db.flush()] for a row with the key [i]. *)
Definition add_topic (i : string) (s : session) : session :=
  {| committed := committed s;
     view := {| ingest_events := ingest_events (view s);
                trend_topics := {[ i ]} ∪ trend_topics (view s) |} |}.

(** The two statements that [_update_ingest_event_flags] executes. *)
Inductive statement : Type :=
(** [UPDATE IngestEvent SET processed = true, topicId = :t
     WHERE id = :i AND processed = false] *)
| UpdateLinked (i : string) (t : string)
(** [UPDATE IngestEvent SET processed = true
     WHERE id IN :ids AND processed = false] *)
| UpdateProcessed (ids : list string).

Definition mark_linked (t : string) (row : ingest_event) : ingest_event :=
  if processed row then row
  else {| processed := true; topicId := Some t |}.

Definition mark_processed (row : ingest_event) : ingest_event :=
  if processed row then row
  else {| processed := true; topicId := topicId row |}.

(** The rows of [IngestEvent] after a statement that the database accepts. *)
Definition updated (stmt : statement) (events : table) : table :=
  match stmt with
  | UpdateLinked i t => alter (mark_linked t) i events
  | UpdateProcessed ids => foldr (fun i acc => alter mark_processed i acc) events ids
  end.

(** A string that the database driver takes for the value of a [UUID]
    column: 32 hexadecimal digits, hyphens apart. *)
Definition is_hex_digit (a : ascii) : bool :=
  let c := N_of_ascii a in
  ((48 <=? c) && (c <=? 57) || (97 <=? c) && (c <=? 102) || (65 <=? c) && (c <=? 70))%N.

Definition is_uuid (s : string) : bool :=
  let digits := filter (fun a : ascii => a <> "-"%char) (list_ascii_of_string s) in
  (length digits =? 32)%nat && forallb is_hex_digit digits.

(** Whether the database accepts a statement.  The columns [id] and
    [topicId] are [UUID]s, and [topicId] is a foreign key to
    [trend_topics.id]: a value that is no UUID is refused when the statement
    is sent, and a row cannot be given a topic that [trend_topics] does not
    hold, as the transaction sees it. *)
Definition accepted (stmt : statement) (db : database) : bool :=
  match stmt with
  | UpdateLinked i t =>
      is_uuid i && is_uuid t
      && match ingest_events db !! i with
         | Some row => processed row || bool_decide (t ∈ trend_topics db)
         | None => true
         end
  | UpdateProcessed ids => forallb is_uuid ids
  end.

(** [await db.execute(stmt)] in a transaction that sees [db]. *)
Definition execute (stmt : statement) (db : database) : result database :=
  if accepted stmt db
  then Ok {| ingest_events := updated stmt (ingest_events db);
             trend_topics := trend_topics db |}
  else Raise ProviderError.

(** Statements executed one after the other inside one [try]: the first one
    that raises ends the sequence, and the transaction is left as the
    statements before it made it. *)
Fixpoint execute_all (stmts : list statement) (db : database) : database :=
  match stmts with
  | [] => db
  | stmt :: rest =>
      match execute stmt db with
      | Ok db' => execute_all rest db'
      | Raise _ => db
      end
  end.

(** [f'topic_{n}'] and ['fallback_cluster'] *)
Definition render_cluster_id (c : cluster_id) : string :=
  match c with
  | topic_ n => "topic_" +:+ pretty n
  | fallback_cluster => "fallback_cluster"
  end.

(** A topic dictionary after the persistence loop: ['topic_id'] holds
    [str(db_topic.id)] when the loop got as far as setting it. *)
Record stored_topic : Type := {
  cluster : topic;
  db_topic_id : option string
}.

(** What the body of the persistence loop meets for one topic that has a
    title: the row is flushed with the key [i], recorded in the topic and
    counted, and the rest of the body (metrics, cache invalidation) goes
    through; or the rest of the body raises after that; or the body raises
    before the key is recorded (scoring, [db.add], [db.flush]). *)
Inductive creation : Type :=
| Created (i : string)
| CreatedThenFailed (i : string)
| NotCreated.

Section Orchestrator.
Context (S : services) (C : TopicCluster.libs).

(** The outcome of the body of the persistence loop, by topic. *)
Context (create_topic_row : topic -> creation).

(** The global [topic_cluster] instance at the time of the call. *)
Context (self : instance).

Definition process_single_post (p : post) : option post :=
  try_except
    (let text := post_text p in
     if negb (truthy text) then Ok None else
     match text with
     | VStr text_ =>
         let cleaned_text := TextCleaner.clean_for_classification (text_libs S) text_ in
         '(language_code, language_confidence) ← detect S cleaned_text 0.5;
         supported ← is_supported_language S cleaned_text 0.7;
         if negb supported then Ok None else
         if TextCleaner.is_spam (text_libs S) cleaned_text then Ok None else
         sentiment_result ← sentiment_analyze S cleaned_text;
         toxicity_result ← toxicity_analyze S cleaned_text;
         if is_toxic toxicity_result then Ok None else
         geo_result ← geo_classify S cleaned_text;
         let likes := py_or (post_get p "likesCount" (VInt 0)) (VInt 0) in
         let shares := py_or (post_get p "sharesCount" (VInt 0)) (VInt 0) in
         let comments := py_or (post_get p "commentsCount" (VInt 0)) (VInt 0) in
         let views := py_or (post_get p "viewsCount" (VInt 0)) (VInt 0) in
         ls ← py_add likes shares;
         engagement ← py_add ls comments;
         Ok (Some
           {| id := id p;
              fields :=
                list_to_map
                  [("platform", post_get p "platform" VNone);
                   ("text", text);
                   ("language", VStr language_code);
                   ("language_confidence", VFloat language_confidence);
                   ("sentiment", VFloat (sentiment_score sentiment_result));
                   ("toxicity", VFloat (toxicity_score toxicity_result));
                   ("is_sa", VBool (is_south_african geo_result));
                   ("region", from_option VStr VNone (geo_region geo_result));
                   ("likes", likes);
                   ("shares", shares);
                   ("comments", comments);
                   ("views", views);
                   ("engagement", engagement);
                   ("is_spam", VBool false);
                   ("publishedAt", post_get p "publishedAt" VNone)]%string |})
     | _ => Raise TypeError
     end)
    (fun _ => None).

(** The body of the persistence loop of [cluster_posts_background] for one
    topic, with its [except] branch: the topic dictionary afterwards, the
    session and the counter [topics_created].  A topic without a title
    raises [KeyError] before anything is added. *)
Definition store_topic (t : topic) (s : session) (topics_created : nat)
    : stored_topic * session * nat :=
  match meta t with
  | None => ({| cluster := t; db_topic_id := None |}, rollback s, topics_created)
  | Some _ =>
      match create_topic_row t with
      | Created i =>
          ({| cluster := t; db_topic_id := Some i |}, add_topic i s, topics_created + 1)
      | CreatedThenFailed i =>
          ({| cluster := t; db_topic_id := Some i |}, rollback (add_topic i s),
           topics_created + 1)
      | NotCreated =>
          ({| cluster := t; db_topic_id := None |}, rollback s, topics_created)
      end
  end.

(** The persistence loop. *)
Fixpoint store_topics (topics : list topic) (s : session) (topics_created : nat)
    : list stored_topic * session * nat :=
  match topics with
  | [] => ([], s, topics_created)
  | t :: rest =>
      let '(stored, s, topics_created) := store_topic t s topics_created in
      let '(others, s, topics_created) := store_topics rest s topics_created in
      (stored :: others, s, topics_created)
  end.

(** [topic.get('topic_id') or topic.get('id', f"topic_{topic['title']}")]:
    the default of the second [get] is built before the call, so a topic
    without a title raises [KeyError] here even though it has an ['id']. *)
Definition mapped_topic_id (t : stored_topic) : result string :=
  let by_cluster :=
    match meta (cluster t) with
    | Some _ => Ok (render_cluster_id (topic_id (cluster t)))
    | None => Raise KeyError
    end in
  match db_topic_id t with
  | Some i => if bool_decide (i = EmptyString) then by_cluster else Ok i
  | None => by_cluster
  end.

(** The inner loop of [_create_topic_id_mapping]. *)
Definition map_posts (topic_id : string) (topic_posts : list post)
    (mapping : gmap string string) : gmap string string :=
  foldl
    (fun mapping p =>
       match id p with
       | Some post_id => <[post_id := topic_id]> mapping
       | None => mapping
       end)
    mapping topic_posts.

(** The outer loop of [_create_topic_id_mapping]. *)
Fixpoint map_topics (topics : list stored_topic) (mapping : gmap string string)
    : result (gmap string string) :=
  match topics with
  | [] => Ok mapping
  | t :: rest =>
      topic_id ← mapped_topic_id t;
      map_topics rest (map_posts topic_id (posts (cluster t)) mapping)
  end.

Definition _create_topic_id_mapping (topics : list stored_topic) : gmap string string :=
  try_except (map_topics topics ∅) (fun _ => ∅).

(** [[post.get('id') for post in posts if post.get('id')]] *)
Definition post_ids_of (batch : list post) : list string := omap id batch.

(** The statements that [_update_ingest_event_flags] builds, in the order in
    which it executes them. *)
Definition flag_statements (batch : list post) (topic_id_mapping : gmap string string)
    : list statement :=
  let post_ids := post_ids_of batch in
  match post_ids with
  | [] => []
  | _ :: _ =>
      if bool_decide (topic_id_mapping = ∅) then [UpdateProcessed post_ids]
      else
        omap (fun post_id =>
                match topic_id_mapping !! post_id with
                | Some t => Some (UpdateLinked post_id t)
                | None => None
                end) post_ids
  end.

(** [_update_ingest_event_flags] in a transaction that sees [db]: what the
    transaction sees when the call returns.  The function does not commit. *)
Definition _update_ingest_event_flags (db : database) (batch : list post)
    (topic_id_mapping : gmap string string) : database :=
  execute_all (flag_statements batch topic_id_mapping) db.

(** The topic dictionaries after the persistence loop of a call of
    [cluster_posts_background]; they depend on no table. *)
Definition stored_topics (topics : list topic) : list stored_topic :=
  (store_topics topics (open_session {| ingest_events := ∅; trend_topics := ∅ |}) 0).1.1.

(** The statements that one call of [cluster_posts_background] builds. *)
Definition cluster_statements (batch : list post) (min_cluster_size : Z) : list statement :=
  match cluster_posts C self batch (Some min_cluster_size) with
  | Ok topics => flag_statements batch (_create_topic_id_mapping (stored_topics topics))
  | Raise _ => []
  end.

(** The session of [cluster_posts_background] at the end of its [async
    with] block, before it is closed: the topics are stored, the session is
    committed if one of them was counted, and only then the flags of the
    ingest events are updated. *)
Definition cluster_posts_session (db : database) (batch : list post)
    (min_cluster_size : Z) : session :=
  match cluster_posts C self batch (Some min_cluster_size) with
  | Ok topics =>
      let '(stored, s, topics_created) := store_topics topics (open_session db) 0 in
      let s := if (0 <? topics_created)%nat then commit s else s in
      let topic_id_mapping := _create_topic_id_mapping stored in
      {| committed := committed s;
         view := _update_ingest_event_flags (view s) batch topic_id_mapping |}
  | Raise _ => open_session db
  end.

(** [cluster_posts_background]: the database that the call leaves. *)
Definition cluster_posts_background (db : database) (batch : list post)
    (min_cluster_size : Z) : database :=
  close (cluster_posts_session db batch min_cluster_size).

Definition processed_posts_of (batch : list post) : list post :=
  omap process_single_post batch.

(** The statements that one batch run builds. *)
Definition run_statements (batch : list post) : list statement :=
  match processed_posts_of batch with
  | [] => []
  | processed_posts => cluster_statements processed_posts 5
  end.

(** The session of a batch run before it is closed, if the run opens one. *)
Definition run_session (db : database) (batch : list post) : session :=
  match processed_posts_of batch with
  | [] => open_session db
  | processed_posts => cluster_posts_session db processed_posts 5
  end.

(** [process_and_cluster_posts_background]: the database that the run
    leaves. *)
Definition process_and_cluster_posts_background (db : database) (batch : list post)
    : database :=
  match processed_posts_of batch with
  | [] => db
  | processed_posts => cluster_posts_background db processed_posts 5
  end.

End Orchestrator.

End IngestRouter.

(** ** Stand-ins for the third-party packages

    Instances on which the embedded code can be run.  On the inputs they are
    used with below (ASCII text without markup or emoji) the text packages
    agree with the stand-ins: BeautifulSoup, [emoji.demojize] and
    [unidecode] return such text unchanged. *)

Module Doubles.

Definition ascii_db : TextCleaner.unicode_db :=
  {| TextCleaner.uni_alnum := fun _ => false;
     TextCleaner.uni_upper := fun _ => false |}.

Definition plain_text_libs : TextCleaner.libs :=
  {| TextCleaner.bs4_get_text := fun t => Ok t;
     TextCleaner.emoji_demojize := fun t => t;
     TextCleaner.emoji_count_of := fun _ => 0;
     TextCleaner.unidecode := fun t => t;
     TextCleaner.udb := ascii_db |}.

(** The same packages on text that may hold the letter U+00E9, which
    [unidecode] transliterates to [e] and the character database classifies
    as alphanumeric. *)
Definition latin_text_libs : TextCleaner.libs :=
  {| TextCleaner.bs4_get_text := fun t => Ok t;
     TextCleaner.emoji_demojize := fun t => t;
     TextCleaner.emoji_count_of := fun _ => 0;
     TextCleaner.unidecode :=
       fun t => map (fun c => if (c =? 233)%N then 101%N else c) t;
     TextCleaner.udb :=
       {| TextCleaner.uni_alnum := fun c => (c =? 233)%N;
          TextCleaner.uni_upper := fun _ => false |} |}.

(** [str.title] on ASCII text: the first letter of every run of letters in
    upper case, the others in lower case. *)
Fixpoint ascii_title_go (previous_is_cased : bool) (s : str) : str :=
  match s with
  | [] => []
  | c :: t =>
      let c' :=
        if previous_is_cased
        then (if TextCleaner.is_ascii_upper c then c + 32 else c)%N
        else (if TextCleaner.is_ascii_lower c then c - 32 else c)%N in
      c' :: ascii_title_go (TextCleaner.is_ascii_alpha c) t
  end.

Definition ascii_title (s : str) : str := ascii_title_go false s.

(** An outage: the embedding providers and the clustering algorithms raise
    on every call. *)
Definition outage_libs : TopicCluster.libs :=
  {| TopicCluster.SENTENCE_TRANSFORMERS_AVAILABLE := true;
     TopicCluster.HDBSCAN_AVAILABLE := true;
     TopicCluster.new_sentence_transformer := Ok tt;
     TopicCluster.new_tfidf_vectorizer := Ok tt;
     TopicCluster.sentence_transformer_embeddings := fun _ => Raise ProviderError;
     TopicCluster.tfidf_embeddings := fun _ => Raise ProviderError;
     TopicCluster.hdbscan_fit_predict := fun _ _ => Raise ProviderError;
     TopicCluster.dbscan_fit_predict := fun _ _ _ => Raise ProviderError;
     TopicCluster.extract_keywords := fun _ => [];
     TopicCluster.generate_topic_summary := fun _ => [];
     TopicCluster.distinct_platforms := fun l => l;
     TopicCluster.most_common_region := fun _ => VNone;
     TopicCluster.utcnow_isoformat := lit "2024-01-01T00:00:00";
     TopicCluster.str_title := ascii_title |}.

(** Classifier services that raise on every call. *)
Definition offline_services : Services.services :=
  {| Services.text_libs := plain_text_libs;
     Services.detect := fun _ _ => Raise ProviderError;
     Services.is_supported_language := fun _ _ => Raise ProviderError;
     Services.sentiment_analyze := fun _ => Raise ProviderError;
     Services.toxicity_analyze := fun _ => Raise ProviderError;
     Services.geo_classify := fun _ => Raise ProviderError |}.

(** Services in a degraded state: the sentiment model raises, the other
    classifiers answer. *)
Definition degraded_services : Services.services :=
  {| Services.text_libs := plain_text_libs;
     Services.detect := fun _ _ => Ok (lit "en", 0.9%float);
     Services.is_supported_language := fun _ _ => Ok true;
     Services.sentiment_analyze := fun _ => Raise ProviderError;
     Services.toxicity_analyze := fun _ =>
       Ok {| Services.toxicity_score := 0.1;
             Services.is_toxic := false;
             Services.categories := ∅;
             Services.toxicity_confidence := 0.8 |};
     Services.geo_classify := fun _ =>
       Ok {| Services.geo_region := Some (lit "WC");
             Services.geo_confidence := 0.7;
             Services.is_south_african := true;
             Services.indicators := [] |} |}.

(** Services that answer: every text is supported, clean and harmless. *)
Definition healthy_services : Services.services :=
  {| Services.text_libs := plain_text_libs;
     Services.detect := fun _ _ => Ok (lit "en", 0.9%float);
     Services.is_supported_language := fun _ _ => Ok true;
     Services.sentiment_analyze := fun _ =>
       Ok {| Services.sentiment_score := 0.5;
             Services.sentiment_label := lit "positive";
             Services.sentiment_confidence := 0.9;
             Services.emotions := None |};
     Services.toxicity_analyze := fun _ =>
       Ok {| Services.toxicity_score := 0.1;
             Services.is_toxic := false;
             Services.categories := ∅;
             Services.toxicity_confidence := 0.8 |};
     Services.geo_classify := fun _ =>
       Ok {| Services.geo_region := Some (lit "WC");
             Services.geo_confidence := 0.7;
             Services.is_south_african := true;
             Services.indicators := [] |} |}.

(** Packages that answer and agree: every text is embedded as the same
    vector and the clustering puts every row into cluster 0. *)
Definition agreeing_libs : TopicCluster.libs :=
  {| TopicCluster.SENTENCE_TRANSFORMERS_AVAILABLE := true;
     TopicCluster.HDBSCAN_AVAILABLE := true;
     TopicCluster.new_sentence_transformer := Ok tt;
     TopicCluster.new_tfidf_vectorizer := Ok tt;
     TopicCluster.sentence_transformer_embeddings := fun texts => Ok (map (fun _ => [1%float]) texts);
     TopicCluster.tfidf_embeddings := fun texts => Ok (map (fun _ => [1%float]) texts);
     TopicCluster.hdbscan_fit_predict := fun _ rows => Ok (map (fun _ => 0%Z) rows);
     TopicCluster.dbscan_fit_predict := fun _ _ rows => Ok (map (fun _ => 0%Z) rows);
     TopicCluster.extract_keywords := fun _ => [];
     TopicCluster.generate_topic_summary := fun _ => [];
     TopicCluster.distinct_platforms := fun l => l;
     TopicCluster.most_common_region := fun _ => VNone;
     TopicCluster.utcnow_isoformat := lit "2024-01-01T00:00:00";
     TopicCluster.str_title := ascii_title |}.

(** An environment with an empty cache. *)
Definition cold_environment : ClassifyRouter.environment :=
  {| ClassifyRouter.max_text_length := 5000;
     ClassifyRouter.cache_key := fun _ => "classify:0:opts:0"%string;
     ClassifyRouter.cache_get_json := fun _ => None;
     ClassifyRouter.processing_time_ms := 1.5 |}.

(** A request for all three analyses. *)
Definition full_request : ClassifyRouter.ClassifyRequest :=
  {| ClassifyRouter.text := lit "lekker day in Cape Town";
     ClassifyRouter.language := lit "auto";
     ClassifyRouter.include_toxicity := true;
     ClassifyRouter.include_sentiment := true;
     ClassifyRouter.include_geo := true |}.

End Doubles.

(** * Statements

    The notions in which the properties below are stated. *)

Module ViralityScorerSpec.
Import ViralityScorer.

(** The record built by the [except] branch of [calculate_virality_score]. *)
Definition recovery_metrics : ViralityMetrics :=
  {| engagement_rate := 0.0;
     velocity := 0.0;
     sentiment_strength := 0.0;
     quality_multiplier := 0.1;
     regional_weight := 1.0;
     virality_score := 0.0;
     formula := the_formula |}.


(** The metrics dictionary [{'sentiment': 1.0}]. *)
Definition strong_sentiment : gmap string pyval := {[ "sentiment"%string := VFloat 1.0 ]}.

End ViralityScorerSpec.

Module TextCleanerSpec.
Import TextCleaner.

Section Cleaner.
Context (L : libs).

(** Running a list of cleaning steps, first step first. *)
Definition run_steps (steps : list (str -> str)) (text : str) : str :=
  foldl (fun cleaned step => step cleaned) text steps.

(** The order of the specification: markup, URLs and e-mail addresses,
    emoji, transliteration, repeated characters, noise, whitespace. *)
Definition specified_steps : list (str -> str) :=
  [ remove_html_tags L;
    remove_urls;
    remove_emails L;
    replace_emojis_with_text L;
    normalize_unicode L;
    (fun t => remove_repeated_characters t 2);
    (fun t => remove_special_characters t true);
    normalize_whitespace ].

(** The order of [clean] with its default arguments. *)
Definition coded_steps : list (str -> str) :=
  [ strip;
    remove_html_tags L;
    remove_urls;
    remove_emails L;
    remove_mentions L;
    replace_emojis_with_text L;
    (fun t => remove_special_characters t true);
    normalize_unicode L;
    (fun t => remove_repeated_characters t 2);
    normalize_whitespace;
    strip ].

(** The characters that [remove_special_characters] keeps. *)
Definition kept (c : N) : Prop := kept_char true c = true.

(** Plain text: ASCII letters and digits, the punctuation [.,!?;:] and the
    space. *)
Definition plain_char (c : N) : bool :=
  is_ascii_alnum c || one_of ".,!?;:" c || (c =? 32)%N.

Definition plain (s : str) : Prop := Forall (fun c => plain_char c = true) s.

(** What the proof of idempotence asks of the three text packages: on plain
    text BeautifulSoup (when it does not raise), [emoji.demojize] and
    [unidecode] return their argument, and [unidecode] maps letters, digits,
    [.,!?;:] and Unicode whitespace to characters of the same kinds. *)
Record lawful : Prop := {
  get_text_plain : forall t r, plain t -> bs4_get_text L t = Ok r -> r = t;
  demojize_plain : forall t, plain t -> emoji_demojize L t = t;
  unidecode_plain : forall t, plain t -> unidecode L t = t;
  unidecode_kept : forall t, Forall kept t -> Forall kept (unidecode L t)
}.

(** Every character is followed by fewer than two copies of itself, unless
    it is [exempt]: there is no run of three. *)
Fixpoint runs_ok (exempt : N -> bool) (s : str) : Prop :=
  match s with
  | [] => True
  | a :: t => (exempt a = true \/ span (N.eqb a) t < 2) /\ runs_ok exempt t
  end.

(** No whitespace character is followed by another one. *)
Fixpoint single_spaced (s : str) : Prop :=
  match s with
  | [] => True
  | a :: t => (isspace a = true -> span isspace t = 0) /\ single_spaced t
  end.

(** The shape of a cleaned text: plain, without surrounding or doubled
    spaces and without a run of three equal characters. *)
Definition normal (s : str) : Prop :=
  plain s /\ strip s = s /\ single_spaced s /\ runs_ok isspace s.

(** A pattern that does not look at the character before the match. *)
Definition ignores_prev (m : pattern) : Prop := forall p p' s, m p s = m p' s.

(** [remove_repeated_characters(text, max_repeats=2)] *)
Definition collapse (s : str) : str := remove_repeated_characters s 2.

(** [whitespace_pattern.sub(' ', text)] *)
Definition squeeze (s : str) : str := re_sub whitespace_pattern (fun _ => lit " ") s.

(** The quantities that [is_spam] compares. *)
Definition hashtag_ratio (text : str) : float :=
  let stats := get_text_stats L text in
  true_div (hashtag_count stats) (Nat.max (word_count_ stats) 1).

Definition mention_ratio (text : str) : float :=
  let stats := get_text_stats L text in
  true_div (mention_count stats) (Nat.max (word_count_ stats) 1).

Definition uppercase_ratio (text : str) : float :=
  true_div (uppercase_count L text) (length text).

Definition repeated_sections (text : str) : nat :=
  re_count repeated_chars_pattern text.

(** The five conditions, the capitalisation test being applied to texts
    whose length is at least [min_length]. *)
Definition spam_conditions (min_length : nat) (text : str) : Prop :=
  float_gt (hashtag_ratio text) 0.3 = true
  \/ float_gt (mention_ratio text) 0.2 = true
  \/ 2 < url_count (get_text_stats L text)
  \/ (min_length <= length text /\ float_gt (uppercase_ratio text) 0.7 = true)
  \/ 3 < repeated_sections text.

End Cleaner.

End TextCleanerSpec.

Module TopicClusterSpec.
Import TopicCluster.

(** A post dictionary [{'id': i, 'text': t}]. *)
Definition text_post (i : string) (t : str) : post :=
  {| id := Some i; fields := {[ "text"%string := VStr t ]} |}.

(** Five posts with the same short text. *)
Definition five_posts : list post :=
  map (fun i => text_post i (lit "lekker day in Cape Town")) ["p1"; "p2"; "p3"; "p4"; "p5"]%string.

(** A post whose text has 101 characters. *)
Definition long_post : post := text_post "p0" (replicate 101 97%N).

(** An instance whose models have been loaded. *)
Definition loaded_instance : instance :=
  {| is_loaded := true;
     has_model := true;
     has_tfidf_vectorizer := false;
     clustering_algorithm := "hdbscan";
     min_cluster_size_ := 5;
     eps := 0.3 |}.

(** Every call of an embedding provider raises. *)
Definition embedding_fails (L : libs) : Prop :=
  forall texts,
    (exists e, sentence_transformer_embeddings L texts = Raise e)
    /\ (exists e, tfidf_embeddings L texts = Raise e).

(** Every call of a clustering algorithm raises. *)
Definition clustering_fails (L : libs) : Prop :=
  forall k rows,
    (exists e, hdbscan_fit_predict L k rows = Raise e)
    /\ (forall eps, exists e, dbscan_fit_predict L eps k rows = Raise e).

(** An embedding provider that answers returns one row per text. *)
Definition one_row_per_text (L : libs) : Prop :=
  forall texts rows,
    (sentence_transformer_embeddings L texts = Ok rows -> length rows = length texts)
    /\ (tfidf_embeddings L texts = Ok rows -> length rows = length texts).

(** [str.title] maps a non-empty string to a non-empty string. *)
Definition title_keeps_nonempty (L : libs) : Prop :=
  forall s, s <> [] -> str_title L s <> [].

(** The representative post kept by the loop of [generate_topic_title] is a
    non-empty string. *)
Definition representative_ok (r : option pyval) : Prop :=
  match r with
  | None => True
  | Some (VStr s) => s <> []
  | Some _ => False
  end.

(** The same, with the post that the text comes from. *)
Definition representative_from (topic_posts : list post) (r : option pyval) : Prop :=
  match r with
  | None => True
  | Some (VStr s) => s <> [] /\ exists p, p ∈ topic_posts /\ post_text p = VStr s
  | Some _ => False
  end.

End TopicClusterSpec.

Module ClassifyRouterSpec.
Import Services ClassifyRouter.

(** The classifiers called during a request, in call order. *)
Definition invoked (events : list event) : list classifier :=
  omap (fun e => match e with Invoked c => Some c | _ => None end) events.

(** The classifiers a request asks for, in the order of the code. *)
Definition requested (request : ClassifyRequest) : list classifier :=
  (if include_sentiment request then [Sentiment] else [])
  ++ (if include_toxicity request then [Toxicity] else [])
  ++ (if include_geo request then [Geo] else []).

(** The field a classifier fills: its result when it was asked for and
    returned one, null when it was not asked for or raised. *)
Definition field_of {A} (asked : bool) (call : result A) : option A :=
  if asked then
    match call with
    | Ok r => Some r
    | Raise _ => None
    end
  else None.

(** [0 <= x <= 1] on floats, the constraint on [language_confidence]. *)
Definition in_unit_interval (x : float) : Prop :=
  PrimFloat.leb 0 x = true /\ PrimFloat.leb x 1 = true.

End ClassifyRouterSpec.

Module IngestRouterSpec.
Import Services TopicCluster IngestRouter.


(** A record that has not been consumed yet. *)
Definition unconsumed : ingest_event := {| processed := false; topicId := None |}.

(** A record consumed without a topic, and one consumed into topic [t]. *)
Definition consumed_unlinked (row : ingest_event) : ingest_event :=
  {| processed := true; topicId := topicId row |}.

Definition consumed_into (t : string) : ingest_event :=
  {| processed := true; topicId := Some t |}.

(** An [IngestEvent] row as the endpoints pass it to the background task. *)
Definition event_post (i : string) (text_content : str) : post :=
  {| id := Some i;
     fields := {[ "textContent"%string := VStr text_content ]} |}.

(** Four rows with a usable text, and the table that holds them
    unconsumed together with a row [e0] whose text is empty. *)
Definition four_events : list post :=
  map (fun i => event_post i (lit "lekker day in Cape Town")) ["e1"; "e2"; "e3"; "e4"]%string.

Definition fresh_table : table :=
  list_to_map (map (fun i => (i, unconsumed)) ["e0"; "e1"; "e2"; "e3"; "e4"]%string).

Definition fresh_database : database :=
  {| ingest_events := fresh_table; trend_topics := ∅ |}.

(** The keys of five ingest events and of two topics. *)
Definition event_keys : list string :=
  ["00000000-0000-4000-8000-000000000001"; "00000000-0000-4000-8000-000000000002";
   "00000000-0000-4000-8000-000000000003"; "00000000-0000-4000-8000-000000000004";
   "00000000-0000-4000-8000-000000000005"]%string.

Definition event_1 : string := "00000000-0000-4000-8000-000000000001".

Definition topic_A : string := "aaaaaaaa-0000-4000-8000-000000000000".


(** The first [n] of the five events, each with the same usable text, as
    the endpoints pass them, and a database that holds the five events
    unconsumed and no topic. *)
Definition events (n : nat) : list post :=
  map (fun i => event_post i (lit "lekker day in Cape Town")) (take n event_keys).

Definition pending_database : database :=
  {| ingest_events := list_to_map (map (fun i => (i, unconsumed)) event_keys);
     trend_topics := ∅ |}.

(** A session whose transaction has changed no row of [IngestEvent] and has
    deleted no topic. *)
Definition adds_topics_only (s : session) : Prop :=
  ingest_events (view s) = ingest_events (committed s)
  /\ trend_topics (committed s) ⊆ trend_topics (view s).




End IngestRouterSpec.

(** ** [str] methods shared by the classifier services *)

Module PyStr.
Import TextCleaner.

(** The part of the Unicode case mapping that [str.lower] consults for a
    character above U+007F: the replacement (up to three characters) of the
    character, given the text before and after it, on which the mapping of
    the capital sigma depends. *)
Record casing : Type := {
  to_lower_full : str -> N -> str -> str
}.

Definition ascii_lower (c : N) : N :=
  if is_ascii_upper c then (c + 32)%N else c.

Fixpoint lower_go (U : casing) (before s : str) : str :=
  match s with
  | [] => []
  | c :: t =>
      (if is_ascii c then [ascii_lower c] else to_lower_full U before c t)
      ++ lower_go U (before ++ [c]) t
  end.

(** [text.lower()] *)
Definition lower (U : casing) (text : str) : str := lower_go U [] text.

(** [needle in hay] *)
Fixpoint contains (needle hay : str) : bool :=
  starts_with needle hay
  || match hay with
     | [] => false
     | _ :: t => contains needle t
     end.

(** A pattern without metacharacters. *)
Definition literal_pattern (p : str) : pattern := fun _ s =>
  if starts_with p s then Some (length p) else None.

(** [text.replace(old, new)] for a non-empty [old]. *)
Definition replace (old new text : str) : str :=
  re_sub (literal_pattern old) (fun _ => new) text.

(** [min(a, b)] and [max(a, b)] on floats: the first argument unless the
    second is smaller (larger). *)
Definition float_min (a b : float) : float := if PrimFloat.ltb b a then b else a.
Definition float_max (a b : float) : float := if PrimFloat.ltb a b then b else a.

(** [sum(1 for x in xs if p(x))] *)
Definition count_if {A} (p : A -> bool) (xs : list A) : nat :=
  length (filter (fun x => p x = true) xs).

End PyStr.

(** ** services/toxicity_filter.py *)

Module ToxicityFilter.
Import TextCleaner PyStr Services.

Definition _load_blacklist : list str :=
  map lit
    [ "kill"; "murder"; "die"; "death"; "suicide"; "harm"; "violence";
      "hate"; "racist"; "nazi"; "terrorist"; "extremist";
      "fuck"; "shit"; "cunt"; "asshole"; "bitch"; "whore";
      "porn"; "sex"; "nude"; "explicit"; "adult"; "xxx";
      "scam"; "fraud"; "illegal"; "drugs"; "weapon" ]%string.

(** The attributes of a [ToxicityFilter] that the keyword analysis reads. *)
Record instance : Type := {
  threshold : float;
  _is_loaded : bool;
  blacklist : list str
}.

(** [ToxicityFilter(threshold=threshold)], given [settings.toxicity_threshold]. *)
Definition new_instance (threshold_arg settings_toxicity_threshold : float) : instance :=
  {| threshold :=
       if truthy (VFloat threshold_arg) then threshold_arg else settings_toxicity_threshold;
     _is_loaded := false;
     blacklist := _load_blacklist |}.

(** [ToxicityScore(score=..., is_toxic=..., categories=..., confidence=...)]:
    the model validates [ge=0.0, le=1.0] on [score] and [confidence]. *)
Definition new_ToxicityScore (score : float) (is_toxic : bool)
    (categories : gmap string float) (confidence : float) : result ToxicityScore :=
  if PrimFloat.leb 0 score && PrimFloat.leb score 1
     && PrimFloat.leb 0 confidence && PrimFloat.leb confidence 1
  then Ok {| toxicity_score := score;
             is_toxic := is_toxic;
             categories := categories;
             toxicity_confidence := confidence |}
  else Raise ValueError.

Section Methods.
Context (U : casing).

Definition check_blacklist (self : instance) (text : str) : bool * list str :=
  let matched := filter (fun keyword => contains keyword text = true) (blacklist self) in
  ((0 <? length matched)%nat, matched).

Definition violence_words : list str :=
  map lit ["kill"; "murder"; "die"; "death"; "harm"; "violence"]%string.
Definition hate_words : list str := map lit ["hate"; "racist"; "nazi"; "terrorist"]%string.
Definition profanity_words : list str :=
  map lit ["fuck"; "shit"; "cunt"; "asshole"; "bitch"]%string.
Definition sexual_words : list str := map lit ["porn"; "sex"; "nude"; "explicit"; "adult"]%string.
Definition threat_words : list str := map lit ["kill you"; "harm you"; "threaten"]%string.

(** [min(count / 2.0, 1.0)] for the number of [words] that occur in [text]. *)
Definition category_score (words : list str) (text : str) : float :=
  let count := count_if (fun word => contains word text) words in
  float_min (int_to_float count / 2.0) 1.0.

Definition _categorize_keywords (keywords : list str) : gmap string float :=
  let text := lower U (TopicCluster.join (lit " ") keywords) in
  list_to_map
    [ ("violence", category_score violence_words text);
      ("hate_speech", category_score hate_words text);
      ("profanity", category_score profanity_words text);
      ("sexual_content", category_score sexual_words text);
      ("threat", category_score threat_words text) ]%string.

Definition _analyze_with_keywords (self : instance) (text : str) : ToxicityScore :=
  try_except
    (let '(is_toxic, matched_keywords) := check_blacklist self (lower U text) in
     let toxicity_score :=
       match matched_keywords with
       | _ :: _ => float_min (int_to_float (length matched_keywords) * 0.2) 1.0
       | [] => 0.0%float
       end in
     let categories := _categorize_keywords matched_keywords in
     let confidence := if PrimFloat.ltb 0 toxicity_score then 0.7%float else 1.0%float in
     new_ToxicityScore toxicity_score is_toxic categories confidence)
    (fun _ =>
       {| toxicity_score := 0.0;
          is_toxic := false;
          categories := ∅;
          toxicity_confidence := 0.0 |}).

(** [is_toxic(text, threshold)]: the threshold is read and not used. *)
Definition is_toxic_ (self : instance) (text : str) (threshold_arg : option float) : bool :=
  let check_threshold :=
    match threshold_arg with
    | Some t => if truthy (VFloat t) then t else threshold self
    | None => threshold self
    end in
  let '(is_toxic, _) := check_blacklist self (lower U text) in
  if is_toxic then true else false.

(** The loop [while "  " in text: text = text.replace("  ", " ")]; every
    round shortens the text, so [length text] rounds are enough. *)
Fixpoint collapse_double_spaces (rounds : nat) (text : str) : str :=
  match rounds with
  | O => text
  | S rounds' =>
      if contains (lit "  ") text
      then collapse_double_spaces rounds' (replace (lit "  ") (lit " ") text)
      else text
  end.

(** [preprocess_text], the same in [SentimentAnalyzer] and [ToxicityFilter]. *)
Definition preprocess_text (text : str) : str :=
  match text with
  | [] => []
  | _ :: _ =>
      let text := strip text in
      let text := collapse_double_spaces (length text) text in
      take 512 text
  end.

(** [get_toxicity_level] *)
Definition get_toxicity_level (score : float) : string :=
  if PrimFloat.ltb 0.7 score then "high"
  else if PrimFloat.ltb 0.4 score then "moderate"
  else if PrimFloat.ltb 0.2 score then "low"
  else "safe".

End Methods.

End ToxicityFilter.

(** ** services/language_detector.py *)

Module LanguageDetector.
Import TextCleaner PyStr.

(** A dictionary with [str] keys, in insertion order. *)
Definition dict (V : Type) : Type := list (str * V).

(** [d.get(key)] *)
Fixpoint dict_lookup {V} (d : dict V) (key : str) : option V :=
  match d with
  | [] => None
  | (k, v) :: rest => if bool_decide (k = key) then Some v else dict_lookup rest key
  end.

(** [key in d] *)
Definition dict_has {V} (d : dict V) (key : str) : bool :=
  match dict_lookup d key with Some _ => true | None => false end.

Definition literal_dict (entries : list (string * string)) : dict str :=
  map (fun '(k, v) => (lit k, lit v)) entries.

(** The attributes of a [LanguageDetector]. *)
Record instance : Type := {
  model_type : str;
  has_model : bool;                        (* self.model is set *)
  is_model_loaded : bool;
  sa_languages : dict str;
  fasttext_to_sa : dict str;
  (** key -> ((language, confidence), timestamp) *)
  detection_cache : gmap string ((str * float) * float);
  cache_ttl : float
}.

(** [LanguageDetector(model_type)] *)
Definition new_instance (model_type : str) : instance :=
  {| model_type := model_type;
     has_model := false;
     is_model_loaded := false;
     sa_languages :=
       literal_dict
         [ ("en", "English"); ("af", "Afrikaans"); ("zu", "isiZulu");
           ("xh", "isiXhosa"); ("st", "Sesotho"); ("tn", "Setswana");
           ("ts", "Xitsonga"); ("ss", "siSwati"); ("nr", "isiNdebele");
           ("ve", "Tshivenda") ]%string;
     fasttext_to_sa :=
       literal_dict
         [ ("en", "en"); ("af", "af"); ("zu", "zu"); ("xh", "xh");
           ("nr", "zu"); ("st", "zu"); ("ts", "zu"); ("tn", "af");
           ("ss", "zu"); ("ve", "en") ]%string;
     detection_cache := ∅;
     cache_ttl := 3600 |}.

(** What [langdetect.detect] does with a text. *)
Inductive langdetect_outcome : Type :=
| Detected (language : str)
| LangDetectException
| OtherException (e : exn).

(** The packages and the clock behind the detector. *)
Record environment : Type := {
  LANGDETECT_AVAILABLE : bool;
  (** [hashlib.md5(text.encode()).hexdigest()]; encoding a lone surrogate
      raises *)
  md5_hexdigest : str -> result string;
  (** [self.model.predict(text, k=1)] with the label prefix removed and the
      probability converted: lines 179-181 *)
  fasttext_predict : str -> result (str * float);
  langdetect_detect : str -> langdetect_outcome;
  (** [time.time()] at the cache test and at the cache write *)
  time_at_lookup : float;
  time_at_store : float;
  udb : unicode_db;
  case_map : casing
}.

(** [http[s]?://\S+] *)
Definition link_tail (s : str) (len_before : nat) : option nat :=
  if starts_with (lit "://") s then
    match span (fun c => negb (isspace c)) (drop 3 s) with
    | O => None
    | S n => Some (len_before + 3 + S n)
    end
  else None.

Definition link_pattern : pattern := fun _ s =>
  if starts_with (lit "http") s then
    let r := drop 4 s in
    let with_s :=
      match r with
      | c :: t => if (c =? 115)%N then link_tail t 5 else None
      | [] => None
      end in
    match with_s with
    | Some n => Some n
    | None => link_tail r 4
    end
  else None.

(** [[^a-zA-Z\s]] *)
Definition not_letter_pattern : pattern := fun _ s =>
  match s with
  | c :: _ => if is_ascii_alpha c || isspace c then None else Some 1
  | [] => None
  end.

(** [text.split()]: the maximal runs of characters that are not whitespace. *)
Fixpoint split_go (word s : str) : list str :=
  match s with
  | [] => match word with [] => [] | _ :: _ => [word] end
  | c :: t =>
      if isspace c then
        match word with
        | [] => split_go [] t
        | _ :: _ => word :: split_go [] t
        end
      else split_go (word ++ [c]) t
  end.

Definition split (text : str) : list str := split_go [] text.

Section Methods.
Context (E : environment).

Definition _get_cache_key (text : str) : result string := md5_hexdigest E text.

Definition _preprocess_for_detection (text : str) : str :=
  match text with
  | [] => []
  | _ :: _ =>
      let text := re_sub link_pattern delete text in
      let text := re_sub (mention_pattern (udb E)) delete text in
      let text := re_sub (hashtag_pattern (udb E)) delete text in
      let text := re_sub not_letter_pattern delete text in
      let text := TopicCluster.join (lit " ") (split text) in
      take 1000 text
  end.

Definition unknown : str * float := (lit "unknown", 0%float).

Definition _detect_fasttext (text : str) : result (str * float) :=
  let processed_text := _preprocess_for_detection text in
  match processed_text with
  | [] => Ok unknown
  | _ :: _ =>
      '(language, confidence) ← fasttext_predict E processed_text;
      Ok (lower (case_map E) language, confidence)
  end.

Definition _detect_langdetect (text : str) : result (str * float) :=
  if (length text <? 10)%nat then Ok unknown
  else
    let processed_text := _preprocess_for_detection text in
    match processed_text with
    | [] => Ok unknown
    | _ :: _ =>
        match langdetect_detect E processed_text with
        | Detected language => Ok (lower (case_map E) language, 0.8%float)
        | LangDetectException => Ok unknown
        | OtherException e => Raise e
        end
    end.

Definition _map_to_sa_language (self : instance) (language : str) : str :=
  if dict_has (sa_languages self) language then language
  else if bool_decide (model_type self = lit "fasttext") && dict_has (fasttext_to_sa self) language
  then default language (dict_lookup (fasttext_to_sa self) language)
  else language.

(** [detect]: the answer and the detector afterwards.  The cache key is
    computed outside the [try]. *)
Definition detect (self : instance) (text : str) (min_confidence : float)
    : result ((str * float) * instance) :=
  if bool_decide (text = []) || negb (is_model_loaded self) then Ok (unknown, self)
  else
    cache_key ← _get_cache_key text;
    let cached :=
      match detection_cache self !! cache_key with
      | Some (cached_result, timestamp) =>
          if PrimFloat.ltb (time_at_lookup E - timestamp) (cache_ttl self)
          then Some cached_result else None
      | None => None
      end in
    match cached with
    | Some cached_result => Ok (cached_result, self)
    | None =>
        let detected : option (result (str * float)) :=
          if bool_decide (model_type self = lit "fasttext") && has_model self
          then Some (_detect_fasttext text)
          else if LANGDETECT_AVAILABLE E then Some (_detect_langdetect text)
          else None in
        match detected with
        | None => Ok (unknown, self)
        | Some (Raise _) => Ok (unknown, self)
        | Some (Ok (language, confidence)) =>
            let mapped_language := _map_to_sa_language self language in
            Ok ((mapped_language, confidence),
                {| model_type := model_type self;
                   has_model := has_model self;
                   is_model_loaded := is_model_loaded self;
                   sa_languages := sa_languages self;
                   fasttext_to_sa := fasttext_to_sa self;
                   detection_cache :=
                     <[cache_key := ((mapped_language, confidence), time_at_store E)]>
                       (detection_cache self);
                   cache_ttl := cache_ttl self |})
        end
    end.

Definition is_supported_language (self : instance) (text : str) (min_confidence : float)
    : result (bool * instance) :=
  '((language, confidence), self) ← detect self text min_confidence;
  Ok (dict_has (sa_languages self) language && PrimFloat.leb min_confidence confidence, self).

End Methods.

End LanguageDetector.

(** ** services/geo_classifier.py *)

Module GeoClassifier.
Import TextCleaner PyStr LanguageDetector Services.

(** The tables that [__init__] sets and no method assigns again. *)
Definition sa_provinces : dict str :=
  literal_dict
    [ ("gauteng", "GP"); ("western cape", "WC"); ("kwazulu-natal", "KZN");
      ("kzn", "KZN"); ("eastern cape", "EC"); ("free state", "FS");
      ("mpumalanga", "MP"); ("north west", "NW"); ("northern cape", "NC");
      ("limpopo", "LP") ]%string.

Definition sa_cities : dict str :=
  literal_dict
    [ ("johannesburg", "GP"); ("joburg", "GP"); ("cape town", "WC");
      ("capetown", "WC"); ("durban", "KZN"); ("pretoria", "GP");
      ("tshwane", "GP"); ("port elizabeth", "EC"); ("gqeberha", "EC");
      ("bloemfontein", "FS"); ("polokwane", "LP"); ("nelspruit", "MP");
      ("kimberley", "NC"); ("pietermaritzburg", "KZN"); ("east london", "EC");
      ("stellenbosch", "WC"); ("paarl", "WC"); ("vanderbijlpark", "GP");
      ("germiston", "GP"); ("boksburg", "GP"); ("benoni", "GP");
      ("witbank", "MP"); ("emalahleni", "MP"); ("rustenburg", "NW");
      ("klerksdorp", "NW"); ("welkom", "FS"); ("mthatha", "EC");
      ("umtata", "EC") ]%string.

Definition sa_landmarks : list str :=
  map lit
    [ "table mountain"; "robben island"; "kruger national park";
      "union buildings"; "soweto"; "v&a waterfront"; "gold reef city";
      "uShaka marine world"; "drakensberg"; "garden route";
      "sun city"; "cradle of humankind"; "ape caves" ]%string.

Definition language_regions : dict (option (list str)) :=
  [ (lit "en", None);
    (lit "af", Some (map lit ["WC"; "NC"; "GP"]%string));
    (lit "zu", Some (map lit ["KZN"; "GP"; "MP"]%string));
    (lit "xh", Some (map lit ["EC"; "WC"]%string));
    (lit "st", Some (map lit ["FS"; "GP"]%string));
    (lit "tn", Some (map lit ["NW"; "NC"]%string));
    (lit "ts", Some (map lit ["MP"; "LP"]%string));
    (lit "ss", Some (map lit ["MP"; "LP"]%string));
    (lit "nr", Some (map lit ["KZN"; "LP"]%string));
    (lit "ve", Some (map lit ["LP"]%string)) ].

Definition sa_references : list str :=
  map lit
    [ "mzansi"; "lekker"; "braai"; "eish"; "yebo"; "howzit"; "sharp"; "robot";
      "bakkie"; "boerewors"; "biltong"; "samoosa"; "koeksister";
      "springboks"; "bafana bafana"; "proteas"; "rugby"; "cricket";
      "heritage day"; "freedom day"; "youth day"; "reconciliation day";
      "load shedding"; "eskom"; "sars"; "sans"; "cape malay"; "township" ]%string.

Definition international_locations : list str :=
  map lit
    [ "london"; "new york"; "paris"; "tokyo"; "sydney"; "dubai";
      "berlin"; "moscow"; "beijing"; "singapore"; "mumbai"; "delhi" ]%string.

Definition weights : dict float :=
  [ (lit "location_mention", 0.4%float);
    (lit "language_pattern", 0.3%float);
    (lit "cultural_reference", 0.2%float);
    (lit "author_location", 0.1%float) ].

(** [GeoClassification(region=..., confidence=..., is_south_african=...,
    indicators=...)]: the model validates [ge=0.0, le=1.0] on [confidence]. *)
Definition new_GeoClassification (region : option str) (confidence : float)
    (is_south_african : bool) (indicators : list str) : result GeoClassification :=
  if PrimFloat.leb 0 confidence && PrimFloat.leb confidence 1
  then Ok {| geo_region := region;
             geo_confidence := confidence;
             is_south_african := is_south_african;
             indicators := indicators |}
  else Raise ValueError.

(** [d[key] = d.get(key, 0) + n] on a dictionary of counters; a new key goes
    to the end. *)
Fixpoint dict_add (d : dict nat) (key : str) (n : nat) : dict nat :=
  match d with
  | [] => [(key, n)]
  | (k, v) :: rest =>
      if bool_decide (k = key) then (k, v + n) :: rest
      else (k, v) :: dict_add rest key n
  end.

(** [max(d.items(), key=lambda x: x[1])]: the first item with the greatest
    value. *)
Fixpoint max_item (best : str * nat) (items : dict nat) : str * nat :=
  match items with
  | [] => best
  | item :: rest => max_item (if (best.2 <? item.2)%nat then item else best) rest
  end.

(** [{v: k for k, v in d.items()}]: a later item replaces an earlier one
    with the same new key, which stays in its place. *)
Fixpoint dict_set {V} (d : dict V) (key : str) (v : V) : dict V :=
  match d with
  | [] => [(key, v)]
  | (k, w) :: rest =>
      if bool_decide (k = key) then (k, v) :: rest
      else (k, w) :: dict_set rest key v
  end.

Definition dict_invert (d : dict str) : dict str :=
  foldl (fun acc '(k, v) => dict_set acc v k) [] d.

(** [d.values()] *)
Definition dict_values {V} (d : dict V) : list V := map snd d.

Record sa_indicators : Type := {
  language_patterns : list str;
  cultural_references : list str
}.

Section Methods.
Context (U : casing).

(** The keys of [d], in order, that occur in [text]. *)
Definition keys_in {V} (d : dict V) (text : str) : list str :=
  filter (fun key => contains key text = true) (map fst d).

Definition extract_location_mentions (text : str) : list (str * str) :=
  let text_lower := lower U text in
  map (fun city => (city, lit "city")) (keys_in sa_cities text_lower)
  ++ map (fun province => (province, lit "province")) (keys_in sa_provinces text_lower)
  ++ map (fun landmark => (landmark, lit "landmark"))
         (filter (fun landmark => contains landmark text_lower = true) sa_landmarks).

Definition classify_by_language (language text : str) : option str * float :=
  match dict_lookup language_regions language with
  | Some regions =>
      match regions with
      | None | Some [] => (None, 0.0%float)
      | Some [region] => (Some region, 0.6%float)
      | Some (_ :: _ :: _) => (None, 0.3%float)
      end
  | None => (None, 0.0%float)
  end.

(** The loop of [classify_province] over the location mentions. *)
Definition score_mention (province_scores : dict nat) (mention : str * str) : dict nat :=
  let '(location, location_type) := mention in
  if bool_decide (location_type = lit "city") && dict_has sa_cities location then
    dict_add province_scores (default [] (dict_lookup sa_cities location)) 2
  else if bool_decide (location_type = lit "province") && dict_has sa_provinces location then
    dict_add province_scores (default [] (dict_lookup sa_provinces location)) 3
  else if bool_decide (location_type = lit "landmark") then
    if contains (lit "kruger") location then dict_add province_scores (lit "MP") 1
    else if contains (lit "table mountain") location || contains (lit "v&a") location
    then dict_add province_scores (lit "WC") 1
    else province_scores
  else province_scores.

Definition classify_province (location_mentions : list (str * str)) (language : str)
    : option str * float :=
  let province_scores := foldl score_mention [] location_mentions in
  let province_scores :=
    match language with
    | [] => province_scores
    | _ :: _ =>
        match (classify_by_language language []).1 with
        | Some (_ :: _ as region) =>
            if bool_decide (region ∈ dict_values sa_provinces)
            then dict_add province_scores region 1
            else province_scores
        | _ => province_scores
        end
    end in
  match province_scores with
  | [] => (None, 0.0%float)
  | first :: rest =>
      let best_province := max_item first rest in
      let confidence := float_min (int_to_float best_province.2 / 3.0) 1.0 in
      (Some best_province.1, confidence)
  end.

Definition detect_language_patterns (text : str) : dict float :=
  let text_lower := lower U text in
  let slang_count := count_if (fun slang => contains slang text_lower) sa_references in
  let patterns :=
    if (0 <? slang_count)%nat
    then [(lit "slang", float_min (int_to_float slang_count / 3.0) 1.0)] else [] in
  let cultural_count := count_if (fun ref => contains ref text_lower) sa_references in
  let patterns :=
    if (0 <? cultural_count)%nat
    then patterns ++ [(lit "cultural", float_min (int_to_float cultural_count / 5.0) 1.0)]
    else patterns in
  if existsb (fun term => contains term text_lower) (map lit ["load shedding"; "eskom"]%string)
  then patterns ++ [(lit "context", 0.8%float)]
  else patterns.

Definition detect_sa_indicators (text : str) : sa_indicators :=
  let text_lower := lower U text in
  {| cultural_references := filter (fun ref => contains ref text_lower = true) sa_references;
     language_patterns := map fst (detect_language_patterns text) |}.

Definition calculate_sa_score (indicators : dict nat) : float :=
  let total_score :=
    foldl
      (fun total_score '(indicator, count) =>
         let weight := default 0.1%float (dict_lookup weights indicator) in
         let contribution := float_min (int_to_float count * weight) 1.0 in
         (total_score + contribution)%float)
      0.0%float indicators in
  float_min total_score 1.0.

(** [author_location and "south africa" in author_location.lower()] *)
Definition author_in_south_africa (author_location : option str) : bool :=
  match author_location with
  | Some (_ :: _ as location) => contains (lit "south africa") (lower U location)
  | _ => false
  end.

(** [is_south_african].  The integer [0] that [max(0, ...)] returns for a
    score that is not positive is written as the float of the same value. *)
Definition is_south_african_ (text : str) (author_location : option str)
    (indicators : option sa_indicators) : bool * float :=
  let indicators :=
    match indicators with
    | Some given => given
    | None => detect_sa_indicators text
    end in
  let sa_score :=
    calculate_sa_score
      [ (lit "location_mentions", length (extract_location_mentions text));
        (lit "language_patterns", length (language_patterns indicators));
        (lit "cultural_references", length (cultural_references indicators));
        (lit "author_location", if author_in_south_africa author_location then 1 else 0) ] in
  let text_lower := lower U text in
  let non_sa_score :=
    (int_to_float (count_if (fun loc => contains loc text_lower) international_locations)
     * 0.3)%float in
  let final_score := float_max 0 (sa_score - non_sa_score) in
  let is_sa := PrimFloat.leb 0.3 final_score in
  (is_sa, float_min final_score 1.0).

(** [classify].  [load_models] only sets a flag, which the rest of the call
    does not read. *)
Definition classify (text : str) (author_location : option str) : GeoClassification :=
  let nowhere :=
    {| geo_region := None;
       geo_confidence := 0.0;
       is_south_african := false;
       indicators := [] |} in
  match text with
  | [] => nowhere
  | _ :: _ =>
      try_except
        (let location_mentions := extract_location_mentions text in
         let sa_indicators := detect_sa_indicators text in
         let '(is_sa, sa_score) := is_south_african_ text author_location (Some sa_indicators) in
         let '(region, confidence) :=
           if is_sa then classify_province location_mentions text
           else
             (None,
              if existsb (fun location => contains location (lower U text))
                         international_locations
              then 0.9%float else 0.0%float) in
         let indicators :=
           (match location_mentions with [] => [] | _ :: _ => [lit "location_mentions"] end)
           ++ (match cultural_references sa_indicators with
               | [] => [] | _ :: _ => [lit "cultural_references"] end)
           ++ (match language_patterns sa_indicators with
               | [] => [] | _ :: _ => [lit "language_patterns"] end)
           ++ (if author_in_south_africa author_location then [lit "author_location"] else []) in
         new_GeoClassification region confidence is_sa indicators)
        (fun _ => nowhere)
  end.

(** [calculate_regional_weight] of the geo-classifier. *)
Definition calculate_regional_weight (region : option str) (is_sa : bool) : float :=
  let weight := 1.0%float in
  if is_sa then
    let weight := (weight * 1.3)%float in
    let high_engagement_regions := map lit ["GP"; "WC"; "KZN"]%string in
    match region with
    | Some r => if bool_decide (r ∈ high_engagement_regions) then (weight * 1.1)%float else weight
    | None => weight
    end
  else weight.

(** [get_region_name] *)
Definition get_region_name (region_code : str) : str :=
  let code_to_name := dict_invert sa_provinces in
  default region_code (dict_lookup code_to_name region_code).

End Methods.

End GeoClassifier.

(** ** routers/classify_router.py: the batch endpoint *)

Module ClassifyBatch.
Import Services ClassifyRouter.

(** What [classify_batch] reads besides the classifiers and the environment
    of [classify_text]. *)
Record batch_settings : Type := {
  (** [settings.max_batch_size] *)
  max_batch_size : nat;
  (** [logger.isEnabledFor(logging.INFO)] for the logger of the module, a
      [logging.Logger] of the standard library *)
  info_enabled : bool
}.

Section Endpoint.
Context (S : services) (E : environment) (B : batch_settings).

(** The result that the loop appends for a request on which
    [classify_text] raises. *)
Definition failed_result (request : ClassifyRequest) : ClassificationResult :=
  {| r_text := text request;
     r_language := lit "unknown";
     r_language_confidence := 0.0;
     r_sentiment := None;
     r_toxicity := None;
     r_geo_classification := None;
     r_processing_time_ms := 0.0;
     r_text_length := length (text request);
     r_is_spam := false |}.

(** The loop over the requests. *)
Fixpoint classify_each (requests : list ClassifyRequest)
    : list ClassificationResult * list event :=
  match requests with
  | [] => ([], [])
  | request :: rest =>
      let '(outcome, events) := classify_text S E request in
      let result := try_except outcome (fun _ => failed_result request) in
      let '(results, later) := classify_each rest in
      (result :: results, events ++ later)
  end.

(** [logger.info("Batch classification completed", batch_size=...,
    processing_time_ms=..., avg_time_ms=processing_time_ms / len(requests))]:
    the arguments are evaluated first, so the division raises for an empty
    batch; [Logger.info] then passes the keyword arguments on to
    [Logger._log], which does not accept them, when the level is enabled. *)
Definition log_batch (batch_size : nat) : result unit :=
  if (batch_size =? 0)%nat then Raise ZeroDivisionError
  else if info_enabled B then Raise TypeError
  else Ok tt.

Definition classify_batch (requests : list ClassifyRequest)
    : result (list ClassificationResult) * list event :=
  if (max_batch_size B <? length requests)%nat then (Raise (HTTPException 400), [])
  else
    let '(results, events) := classify_each requests in
    (match log_batch (length requests) with
     | Ok _ => Ok results
     | Raise e => Raise (as_http_error e)
     end, events).

End Endpoint.

End ClassifyBatch.

Module PyStrSpec.
Import TextCleaner PyStr.

(** Adjacent characters. *)
Fixpoint has_pair (a b : N) (s : str) : bool :=
  match s with
  | [] => false
  | x :: t =>
      ((x =? a)%N && match t with y :: _ => (y =? b)%N | [] => false end)
      || has_pair a b t
  end.

End PyStrSpec.

Module ToxicityFilterSpec.
Import TextCleaner PyStr PyStrSpec ToxicityFilter.

(** A filter as [ToxicityFilter.__init__] creates it, whatever its
    threshold and whether or not its model has been loaded since. *)
Definition filter_with (threshold : float) (loaded : bool) : instance :=
  {| threshold := threshold; _is_loaded := loaded; blacklist := _load_blacklist |}.

(** Every run of spaces replaced by one space. *)
Fixpoint one_space_per_run (s : str) : str :=
  match s with
  | [] => []
  | c :: t =>
      if (c =? 32)%N && match t with d :: _ => (d =? 32)%N | [] => false end
      then one_space_per_run t
      else c :: one_space_per_run t
  end.


(** The characters of the blacklist: lower-case letters other than [y], and
    the space that joins the matched keywords. *)
Definition blacklist_char (c : N) : bool :=
  (is_ascii_lower c && negb (c =? 121)%N) || (c =? 32)%N.

Definition tame (w : str) : Prop :=
  Forall (fun c => blacklist_char c = true) w /\ has_pair 104 114 w = false.

(** The next character is a space. *)
Definition next_is_space (t : str) : bool :=
  match head t with Some d => (d =? 32)%N | None => false end.

End ToxicityFilterSpec.

Module LanguageDetectorSpec.
Import TextCleaner PyStr LanguageDetector.

(** A detector with the two language tables of [__init__], whatever its
    other attributes have become. *)
Definition detector_with (model_type : str) (has_model loaded : bool)
    (cache : gmap string ((str * float) * float)) (ttl : float) : instance :=
  {| model_type := model_type;
     has_model := has_model;
     is_model_loaded := loaded;
     sa_languages := sa_languages (new_instance model_type);
     fasttext_to_sa := fasttext_to_sa (new_instance model_type);
     detection_cache := cache;
     cache_ttl := ttl |}.

(** The keys of a dictionary. *)
Definition keys {V} (d : dict V) : list str := map fst d.

Definition letter_or_space (c : N) : bool := is_ascii_alpha c || (c =? 32)%N.

(** A word of [text.split()]: not empty, and made of letters. *)
Definition letter_word (w : str) : Prop :=
  w <> [] /\ Forall (fun c => is_ascii_alpha c = true) w.

(** Letters and single spaces, not starting with a space. *)
Definition letters_spaced (s : str) : Prop :=
  Forall (fun c => letter_or_space c = true) s
  /\ PyStrSpec.has_pair 32 32 s = false
  /\ ToxicityFilterSpec.next_is_space s = false.

End LanguageDetectorSpec.

Module PipelineSpec.
Import Services.

(** The classifier services of a router whose language detector is [ld]:
    [detect] and [is_supported_language] answer as the methods of [ld] do. *)
Definition served_by (S : services) (E : LanguageDetector.environment)
    (ld : LanguageDetector.instance) : Prop :=
  (forall text min_confidence,
     detect S text min_confidence
     = (r ← LanguageDetector.detect E ld text min_confidence; Ok r.1))
  /\ (forall text min_confidence,
        is_supported_language S text min_confidence
        = (r ← LanguageDetector.is_supported_language E ld text min_confidence; Ok r.1)).

(** An environment in which the detection packages answer. *)
Definition answering_environment : LanguageDetector.environment :=
  {| LanguageDetector.LANGDETECT_AVAILABLE := true;
     LanguageDetector.md5_hexdigest := fun _ => Ok "d41d8cd98f00b204e9800998ecf8427e"%string;
     LanguageDetector.fasttext_predict := fun _ => Ok (lit "en", 0.99%float);
     LanguageDetector.langdetect_detect := fun _ => LanguageDetector.Detected (lit "en");
     LanguageDetector.time_at_lookup := 1000;
     LanguageDetector.time_at_store := 1000;
     LanguageDetector.udb := Doubles.ascii_db;
     LanguageDetector.case_map := {| PyStr.to_lower_full := fun _ c _ => [c] |} |}.

(** The services of [ingest_router.py] at import time: its detector is a
    fresh [LanguageDetector()]; the other classifiers answer. *)
Definition services_at_import : services :=
  {| text_libs := text_libs Doubles.healthy_services;
     detect := fun text min_confidence =>
       r ← LanguageDetector.detect answering_environment
             (LanguageDetector.new_instance (lit "fasttext")) text min_confidence;
       Ok r.1;
     is_supported_language := fun text min_confidence =>
       r ← LanguageDetector.is_supported_language answering_environment
             (LanguageDetector.new_instance (lit "fasttext")) text min_confidence;
       Ok r.1;
     sentiment_analyze := sentiment_analyze Doubles.healthy_services;
     toxicity_analyze := toxicity_analyze Doubles.healthy_services;
     geo_classify := geo_classify Doubles.healthy_services |}.

End PipelineSpec.

Module GeoClassifierSpec.
Import TextCleaner PyStr LanguageDetector LanguageDetectorSpec GeoClassifier.

(** The four counts that [is_south_african] weighs, and the number of
    international locations that it sets against them. *)
Definition location_count (U : casing) (text : str) : nat :=
  length (extract_location_mentions U text).

Definition cultural_count (U : casing) (text : str) : nat :=
  length (cultural_references (detect_sa_indicators U text)).

Definition pattern_count (U : casing) (text : str) : nat :=
  length (language_patterns (detect_sa_indicators U text)).

Definition author_count (U : casing) (author_location : option str) : nat :=
  if author_in_south_africa U author_location then 1 else 0.

Definition international_count (U : casing) (text : str) : nat :=
  count_if (fun loc => contains loc (lower U text)) international_locations.

(** The dictionary of counts that [is_south_african] scores. *)
Definition indicator_counts (locations patterns references author : nat) : dict nat :=
  [ (lit "location_mentions", locations);
    (lit "language_patterns", patterns);
    (lit "cultural_references", references);
    (lit "author_location", author) ].

(** A score in which every indicator weighs 0.1. *)
Definition flat_score (locations patterns references author : nat) : float :=
  let part (count : nat) := float_min (int_to_float count * 0.1) 1.0 in
  float_min (0.0 + part locations + part patterns + part references + part author) 1.0.

(** The decision of [is_south_african] as a function of the counts. *)
Definition verdict (locations patterns references author international : nat) : bool :=
  PrimFloat.leb 0.3
    (float_max 0
       (calculate_sa_score (indicator_counts locations patterns references author)
        - int_to_float international * 0.3)).

(** The decision read off the counts when the text names no international
    location. *)
Definition expected_verdict (locations references author : nat) : bool :=
  (0 <? references)%nat || (3 <=? locations + author)%nat.

(** The pattern counts that can go with a count of cultural references. *)
Definition pattern_counts_for (references : nat) : list nat :=
  match references with
  | O => [0]
  | S _ => [2; 3]
  end.

(** The decision agrees with [expected_verdict] on every combination of
    counts that a text without international locations can produce: the
    table of all combinations, by rows. *)
Definition verdict_agrees (locations references author patterns : nat) : bool :=
  Bool.eqb (verdict locations patterns references author 0)
           (expected_verdict locations references author).

Definition verdict_agrees_for_author (locations references author : nat) : bool :=
  forallb (verdict_agrees locations references author) (pattern_counts_for references).

Definition verdict_agrees_for_references (locations references : nat) : bool :=
  forallb (verdict_agrees_for_author locations references) [0; 1].

Definition verdict_agrees_for_locations (locations : nat) : bool :=
  forallb (verdict_agrees_for_references locations) (seq 0 29).

(** The region as the value that the scorer receives. *)
Definition region_value (region : option str) : pyval :=
  match region with
  | Some r => VStr r
  | None => VNone
  end.

Definition high_engagement (region : option str) : bool :=
  py_in_strs (region_value region) ["GP"; "WC"; "KZN"]%string.

(** Text in which every character is its own lower-case form. *)
Definition plain_casing : casing := {| to_lower_full := fun _ c _ => [c] |}.

End GeoClassifierSpec.

Module StatementSpec.
Import IngestRouter.

(** The keys that a statement names in its [WHERE] clause. *)
Definition targets (stmt : statement) : list string :=
  match stmt with
  | UpdateLinked i _ => [i]
  | UpdateProcessed ids => ids
  end.

(** Every row that the statement names is consumed already, or missing. *)
Definition spent (stmt : statement) (db : table) : Prop :=
  forall i row, i ∈ targets stmt -> db !! i = Some row -> processed row = true.

(** A statement that the database accepts and that finds no row to
    change. *)
Definition settled (stmt : statement) (db : database) : Prop :=
  accepted stmt db = true /\ spent stmt (ingest_events db).

End StatementSpec.

Module GroupingSpec.
Import TopicCluster.

(** The posts that [zip(posts, cluster_labels)] pairs with [label], in
    order. *)
Definition with_label (label : Z) (items : list (post * Z)) : list post :=
  map fst (filter (fun item : post * Z => item.2 = label) items).

(** The state of the loop of [_group_posts_by_cluster] after the items
    [done]: one topic per label met, in the order of first occurrence and
    numbered accordingly, each holding the posts of its label. *)
Definition grouped (done : list (post * Z)) (topics : list (Z * topic)) : Prop :=
  NoDup (map fst topics)
  /\ (forall j label t, topics !! j = Some (label, t) ->
        label <> (-1)%Z
        /\ topic_id t = topic_ j
        /\ posts t = with_label label done
        /\ size t = length (posts t))
  /\ (forall label, label ∉ map fst topics -> label <> (-1)%Z -> with_label label done = []).

(** What the loop does to the topics when it files a post under [label]. *)
Definition file_under (f : topic -> topic) (label : Z) (entry : Z * topic) : Z * topic :=
  (entry.1, if (entry.1 =? label)%Z then f entry.2 else entry.2).

(** The pairs of [zip(posts, cluster_labels)] that are not noise. *)
Definition clustered (items : list (post * Z)) : list (post * Z) :=
  filter (fun item : post * Z => item.2 <> (-1)%Z) items.

(** A post without text or other entries. *)
Definition bare_post : post := {| id := None; fields := ∅ |}.

(** Packages that answer: every text is embedded as the same vector and the
    clustering puts every row into cluster 0. *)
Definition single_cluster_libs : libs :=
  {| SENTENCE_TRANSFORMERS_AVAILABLE := true;
     HDBSCAN_AVAILABLE := true;
     new_sentence_transformer := Ok tt;
     new_tfidf_vectorizer := Ok tt;
     sentence_transformer_embeddings := fun texts => Ok (map (fun _ => [1%float]) texts);
     tfidf_embeddings := fun texts => Ok (map (fun _ => [1%float]) texts);
     hdbscan_fit_predict := fun _ rows => Ok (map (fun _ => 0%Z) rows);
     dbscan_fit_predict := fun _ _ rows => Ok (map (fun _ => 0%Z) rows);
     extract_keywords := fun _ => [];
     generate_topic_summary := fun _ => [];
     distinct_platforms := fun l => l;
     most_common_region := fun _ => VNone;
     utcnow_isoformat := lit "2024-01-01T00:00:00";
     str_title := fun s => s |}.

(** A clustering algorithm that answers returns one label per row. *)
Definition one_label_per_row (L : libs) : Prop :=
  forall k rows labels,
    (hdbscan_fit_predict L k rows = Ok labels -> length labels = length rows)
    /\ (forall eps, dbscan_fit_predict L eps k rows = Ok labels -> length labels = length rows).

(** What [cluster_posts] promises of a topic it returns for [all_posts]. *)
Definition described (all_posts : list post) (minimum : Z) (t : topic) : Prop :=
  size t = length (posts t)
  /\ (minimum <= Z.of_nat (size t))%Z
  /\ posts t `sublist_of` all_posts
  /\ (exists n, topic_id t = topic_ n)
  /\ (exists m, meta t = Some m /\ post_count m = size t).

End GroupingSpec.

Module GeoRegionSpec.
Import TextCleaner PyStr.

(** The case mapping turns no character above U+007F into an ASCII capital
    letter. *)
Definition lowers_fully (U : casing) : Prop :=
  forall before c after,
    is_ascii c = false ->
    Forall (fun x => is_ascii_upper x = false) (to_lower_full U before c after).

End GeoRegionSpec.

Module ClassifyBatchSpec.
Import Services ClassifyRouter ClassifyBatch.

(** The result kept for a request: the one of [classify_text], or the
    substitute when [classify_text] raises. *)
Definition result_of (S : services) (E : environment) (request : ClassifyRequest)
    (r : ClassificationResult) : Prop :=
  (classify_text S E request).1 = Ok r
  \/ ((exists e, (classify_text S E request).1 = Raise e) /\ r = failed_result request).

(** Settings under which the logger of the module drops INFO records. *)
Definition quiet_settings : batch_settings :=
  {| max_batch_size := 100; info_enabled := false |}.

End ClassifyBatchSpec.

(** * Properties *)

(** ** The virality scorer *)

Module ViralityScorerFacts.
Import ViralityScorer ViralityScorerSpec.

(** A call with two positional arguments never reaches the body of
    [calculate_engagement_rate], which declares five. *)
Lemma calculate_engagement_rate_two_args log10 (a b : pyval) :
  calculate_engagement_rate log10 [a; b] = Raise TypeError.
Proof. reflexivity. Qed.

(** The [try] body of [calculate_virality_score] always raises: either
    while adding up the engagement counters or, at the latest, at the call
    of [calculate_engagement_rate]. *)
Lemma virality_score_recovery log10 (metrics : gmap string pyval) :
  calculate_virality_score log10 metrics = recovery_metrics.
Proof.
  unfold calculate_virality_score.
  destruct (py_add (dict_get metrics "likes" (VInt 0))
                   (dict_get metrics "comments" (VInt 0))) as [s|e]; [|reflexivity].
  cbn [mbind result_bind bind try_except].
  destruct (py_add s (dict_get metrics "shares" (VInt 0))) as [engagement|e];
    reflexivity.
Qed.

(** C1.  Whatever the metrics dictionary holds, [calculate_virality_score]
    ends in its [except] branch, because it calls
    [calculate_engagement_rate] with two arguments where the method declares
    five: the result is always E = V = S = 0, Q = 0.1, R = 1.0 and a score
    of 0, instead of min((E + V + S) * Q * R, 100). *)
Theorem calculate_virality_score_always_recovers log10 (metrics : gmap string pyval) :
  calculate_virality_score log10 metrics = recovery_metrics
  /\ virality_score (calculate_virality_score log10 metrics) = 0%float
  /\ (forall engagement impressions : pyval,
        calculate_engagement_rate log10 [engagement; impressions] = Raise TypeError).
Proof.
  rewrite virality_score_recovery. repeat split.
Qed.

(** On [{'sentiment': 1.0}] the documented formula gives 100 (E = V = 0,
    S = 100, Q = 1.2, R = 1.0), as soon as [log10 1 = 0]. *)
Lemma documented_score_strong_sentiment log10 :
  log10 1%float = 0%float ->
  documented_score log10 strong_sentiment = Ok (VFloat 100).
Proof.
  intros Hlog.
  assert (HE : calculate_engagement_rate log10
                 [VInt 0; VInt 0; VInt 0; VInt 1; VNone] = Ok (VFloat 0)).
  { unfold calculate_engagement_rate, math_log10.
    change (py_add (VInt 0) (VInt 0)) with (Ok (VInt 0)).
    cbn [mbind result_bind bind].
    change (py_add (VInt 0) (VInt 0)) with (Ok (VInt 0)).
    cbn [mbind result_bind bind].
    replace (py_max (py_or (py_or VNone (VInt 1)) (VInt 1)) (VInt 1))
      with (Ok (VInt 1)) by (vm_compute; reflexivity).
    cbn [mbind result_bind bind].
    replace (py_truediv (VInt 0) (VInt 1)) with (Ok (VFloat 0)) by (vm_compute; reflexivity).
    cbn [mbind result_bind bind].
    replace (py_mul (VFloat 0) (VInt 100)) with (Ok (VFloat 0)) by (vm_compute; reflexivity).
    cbn [mbind result_bind bind].
    replace (py_add (VFloat 0) (VInt 1)) with (Ok (VFloat 1)) by (vm_compute; reflexivity).
    cbn [mbind result_bind bind as_num to_float].
    replace (PrimFloat.leb 1 0) with false by (vm_compute; reflexivity).
    rewrite Hlog. vm_compute. reflexivity. }
  unfold documented_score.
  replace (dict_get strong_sentiment "likes" (VInt 0)) with (VInt 0) by reflexivity.
  replace (dict_get strong_sentiment "comments" (VInt 0)) with (VInt 0) by reflexivity.
  replace (dict_get strong_sentiment "shares" (VInt 0)) with (VInt 0) by reflexivity.
  replace (dict_get strong_sentiment "views" (VInt 1)) with (VInt 1) by reflexivity.
  replace (dict_get strong_sentiment "impressions" VNone) with VNone by reflexivity.
  change (py_add (VInt 0) (VInt 0)) with (Ok (VInt 0)).
  cbn [mbind result_bind bind].
  change (py_add (VInt 0) (VInt 0)) with (Ok (VInt 0)).
  cbn [mbind result_bind bind].
  rewrite HE.
  vm_compute. reflexivity.
Qed.




End ViralityScorerFacts.

(** ** The text cleaner *)

Module TextCleanerFacts.
Import TextCleaner TextCleanerSpec Doubles.

(** *** The patterns on sample texts

    The values on the right are what Python's [re] returns for the patterns
    of the source. *)

Example remove_urls_sample :
  remove_urls (lit "see https://t.co/a%20b?q=1#frag now") = lit "see #frag now".
Proof. vm_compute. reflexivity. Qed.

Example remove_emails_sample :
  remove_emails plain_text_libs (lit "mail john.doe@example.co.za today") = lit "mail  today"
  /\ remove_emails plain_text_libs (lit "a@b.c|") = lit "a@b.c|"
  /\ remove_emails plain_text_libs (lit "x@y.zz|w") = []
  /\ remove_emails plain_text_libs (lit "_a@b.cd") = [].
Proof. repeat split; vm_compute; reflexivity. Qed.

Example remove_mentions_sample :
  remove_mentions plain_text_libs (lit "hi @bob and #tag_1!") = lit "hi  and #tag_1!"
  /\ remove_mentions plain_text_libs (lit "mail john.doe@example.co.za today")
     = lit "mail john.doe.co.za today".
Proof. split; vm_compute; reflexivity. Qed.

Example remove_repeated_characters_sample :
  remove_repeated_characters (lit "goooal!!!  yes" ++ [10; 10; 10]%N ++ lit "no") 2
  = lit "gooal!!  yes" ++ [10; 10; 10]%N ++ lit "no"
  /\ re_count repeated_chars_pattern (lit "goooal!!!  yes" ++ [10; 10; 10]%N ++ lit "no") = 2.
Proof. split; vm_compute; reflexivity. Qed.

Example normalize_whitespace_sample :
  normalize_whitespace (lit "goooal!!!  yes" ++ [10; 10; 10]%N ++ lit "no")
  = lit "goooal!!! yes no"
  /\ normalize_whitespace (lit "  two  words " ++ [9]%N) = lit "two words"
  /\ word_count (lit "  two  words " ++ [9]%N) = 2.
Proof. repeat split; vm_compute; reflexivity. Qed.

Example html_fallback_sample :
  re_sub html_pattern delete (lit "a<b>c</b>d < e") = lit "acd < e".
Proof. vm_compute. reflexivity. Qed.

(** C7, as amended.  [is_spam] returns [True] exactly when one of the five
    conditions holds, the capitalisation test being applied to texts of more
    than 10 characters (length at least 11). *)
Theorem is_spam_iff_conditions (L : libs) (text : str) :
  is_spam L text = true <-> spam_conditions L 11 text.
Proof.
  unfold is_spam, spam_conditions, hashtag_ratio, mention_ratio, uppercase_ratio,
    repeated_sections.
  cbv zeta.
  destruct (float_gt (true_div (hashtag_count (get_text_stats L text)) _) 0.3) eqn:Hh.
  { split; [intros _; left; reflexivity | reflexivity]. }
  destruct (float_gt (true_div (mention_count (get_text_stats L text)) _) 0.2) eqn:Hm.
  { split; [intros _; right; left; reflexivity | reflexivity]. }
  destruct (2 <? url_count (get_text_stats L text))%nat eqn:Hu.
  { apply Nat.ltb_lt in Hu. split; [intros _; right; right; left; exact Hu | reflexivity]. }
  apply Nat.ltb_ge in Hu.
  destruct (10 <? length text)%nat eqn:Hlen.
  - apply Nat.ltb_lt in Hlen.
    destruct (float_gt (true_div (uppercase_count L text) (length text)) 0.7) eqn:Hc.
    { split; [intros _; right; right; right; left; split; [lia | reflexivity]
             | reflexivity]. }
    destruct (3 <? re_count repeated_chars_pattern text)%nat eqn:Hr.
    + apply Nat.ltb_lt in Hr. split; [intros _; do 4 right; exact Hr | reflexivity].
    + apply Nat.ltb_ge in Hr. split; [discriminate |].
      intros [H|[H|[H|[[_ H]|H]]]]; try discriminate; lia.
  - apply Nat.ltb_ge in Hlen.
    destruct (3 <? re_count repeated_chars_pattern text)%nat eqn:Hr.
    + apply Nat.ltb_lt in Hr. split; [intros _; do 4 right; exact Hr | reflexivity].
    + apply Nat.ltb_ge in Hr. split; [discriminate |].
      intros [H|[H|[H|[[H _]|H]]]]; try discriminate; lia.
Qed.

(** C7 as claimed fails on a text of exactly 10 characters: ["ABCDEFGHIJ"] is
    all upper case (ratio 1.0 > 0.7, length 10) and meets no other
    condition, yet [is_spam] returns [False] because the code tests
    [len(text) > 10]. *)
Lemma is_spam_misses_length_ten :
  length (lit "ABCDEFGHIJ") = 10
  /\ float_gt (uppercase_ratio plain_text_libs (lit "ABCDEFGHIJ")) 0.7 = true
  /\ spam_conditions plain_text_libs 10 (lit "ABCDEFGHIJ")
  /\ is_spam plain_text_libs (lit "ABCDEFGHIJ") = false.
Proof.
  split; [reflexivity|]. split; [vm_compute; reflexivity|]. split.
  - unfold spam_conditions. do 3 right. left.
    split; [vm_compute; lia | vm_compute; reflexivity].
  - vm_compute. reflexivity.
Qed.

(** C6, as amended.  With its default arguments [clean] returns the empty
    string for the empty string and otherwise applies, in this order:
    strip, markup removal, URL removal, e-mail removal, mention removal,
    emoji to text, removal of the characters outside letters, digits,
    whitespace and [.,!?;:], transliteration, collapse of repeated
    characters, whitespace normalisation, strip. *)
Theorem clean_is_coded_steps (L : libs) (text : str) :
  clean_default L text =
    match text with
    | [] => []
    | _ :: _ => run_steps (coded_steps L) text
    end.
Proof. destruct text; reflexivity. Qed.

(** C6 as claimed fails: on ["hi @bob"] the steps of the specification, in
    its order, give ["hi bob"], while [clean] removes the mention before it
    strips the noise and gives ["hi"]. *)
Lemma clean_differs_from_specified_order :
  clean_default plain_text_libs (lit "hi @bob") = lit "hi"
  /\ run_steps (specified_steps plain_text_libs) (lit "hi @bob") = lit "hi bob".
Proof. split; vm_compute; reflexivity. Qed.

(** *** Idempotence of [clean] *)

(** **** Greedy runs *)

Lemma span_le_length (p : N -> bool) (s : str) : span p s <= length s.
Proof. induction s as [|c t IH]; cbn; [lia|]. destruct (p c); cbn; lia. Qed.

Lemma span_drop_span (p : N -> bool) (s : str) : span p (drop (span p s) s) = 0.
Proof.
  induction s as [|c t IH]; [reflexivity|].
  cbn [span]. destruct (p c) eqn:Hc; cbn [drop]; [exact IH|].
  cbn [span]. rewrite Hc. reflexivity.
Qed.

Lemma span_zero_head (p : N -> bool) (s : str) :
  span p s = 0 <-> (forall c, head s = Some c -> p c = false).
Proof.
  destruct s as [|c t]; cbn.
  - split; [intros _ c [=] | reflexivity].
  - destruct (p c) eqn:Hc; split; try discriminate; try reflexivity.
    + intros H. specialize (H c eq_refl). congruence.
    + intros _ d [= <-]. exact Hc.
Qed.

Lemma span_same_head (p : N -> bool) (s s' : str) :
  head s' = head s -> span p s = 0 -> span p s' = 0.
Proof. rewrite !span_zero_head. intros -> H. exact H. Qed.

(** **** [re.sub] without the skip counter *)

Lemma re_sub_go_drop (m : pattern) (repl : str -> str) :
  ignores_prev m ->
  forall s k prev, re_sub_go m repl k prev s = re_sub m repl (drop k s).
Proof.
  intros Hm. unfold re_sub. induction s as [|c t IH]; intros k prev.
  - destruct k; reflexivity.
  - destruct k as [|k]; cbn [re_sub_go drop].
    + rewrite (Hm prev None). destruct (m None (c :: t)) as [[|n]|]; reflexivity.
    + apply IH.
Qed.

(** The unfolding equation of [re.sub] for a pattern that does not look
    behind. *)
Lemma re_sub_cons (m : pattern) (repl : str -> str) (c : N) (t : str) :
  ignores_prev m ->
  re_sub m repl (c :: t) =
    match m None (c :: t) with
    | Some (S n) => repl (take (S n) (c :: t)) ++ re_sub m repl (drop n t)
    | _ => c :: re_sub m repl t
    end.
Proof.
  intros Hm. unfold re_sub at 1. cbn [re_sub_go].
  destruct (m None (c :: t)) as [[|n]|]; rewrite re_sub_go_drop by exact Hm;
    rewrite ?drop_0; reflexivity.
Qed.

(** A pattern that matches nowhere leaves the text as it is. *)
Lemma re_sub_go_id (Q : str -> Prop) (m : pattern) (repl : str -> str) :
  (forall c t, Q (c :: t) -> Q t) ->
  (forall prev s, Q s -> m prev s = None) ->
  forall s prev, Q s -> re_sub_go m repl 0 prev s = s.
Proof.
  intros Htail Hnone. induction s as [|c t IH]; intros prev HQ; [reflexivity|].
  cbn [re_sub_go]. rewrite (Hnone prev _ HQ). f_equal. apply IH. eapply Htail, HQ.
Qed.

Lemma re_sub_id_forall (P : N -> Prop) (m : pattern) (repl : str -> str) (s : str) :
  (forall prev s, Forall P s -> m prev s = None) ->
  Forall P s -> re_sub m repl s = s.
Proof.
  intros Hnone Hs. apply (re_sub_go_id (Forall P)); [|exact Hnone|exact Hs].
  intros c t H. inversion H; assumption.
Qed.

(** The characters of the result come from the text or from the
    replacements. *)
Lemma re_sub_go_forall (P : N -> Prop) (m : pattern) (repl : str -> str) :
  (forall matched, Forall P matched -> Forall P (repl matched)) ->
  forall s k prev, Forall P s -> Forall P (re_sub_go m repl k prev s).
Proof.
  intros Hrepl. induction s as [|c t IH]; intros k prev Hs; [constructor|].
  inversion Hs as [|? ? Hc Ht]; subst. cbn [re_sub_go].
  destruct k as [|k]; [|apply IH, Ht].
  destruct (m prev (c :: t)) as [[|n]|].
  - constructor; [exact Hc | apply IH, Ht].
  - apply Forall_app. split; [|apply IH, Ht].
    apply Hrepl. apply Forall_take. exact Hs.
  - constructor; [exact Hc | apply IH, Ht].
Qed.

(** **** Character classes *)

Lemma one_of_punctuation (c : N) :
  one_of ".,!?;:" c
  = ((c =? 46) || (c =? 44) || (c =? 33) || (c =? 63) || (c =? 59) || (c =? 58))%N.
Proof.
  unfold one_of. change (lit ".,!?;:") with [46; 44; 33; 63; 59; 58]%N.
  cbn [existsb]. rewrite orb_false_r, !orb_assoc. reflexivity.
Qed.

Ltac char_classes :=
  unfold kept, kept_char, plain_char, is_ascii_alnum, is_ascii_alpha, is_ascii_lower,
    is_ascii_upper, is_ascii_digit, isspace, in_range in *;
  rewrite ?one_of_punctuation in *;
  cbn [andb] in *;
  rewrite ?orb_true_iff, ?andb_true_iff, ?orb_false_iff, ?andb_false_iff,
    ?N.leb_le, ?N.eqb_eq, ?N.leb_gt, ?N.eqb_neq in *;
  lia.

Lemma plain_char_kept (c : N) : plain_char c = true -> kept c.
Proof. intros H. char_classes. Qed.

Lemma plain_char_space (c : N) : plain_char c = true -> isspace c = true -> c = 32%N.
Proof. intros H Hs. char_classes. Qed.

Lemma plain_char_not (c d : N) :
  plain_char c = true -> d = 10%N \/ d = 47%N \/ d = 60%N \/ d = 64%N -> c <> d.
Proof. intros H Hd. char_classes. Qed.

Lemma kept_not_space_plain (c : N) : kept c -> isspace c = false -> plain_char c = true.
Proof. intros H Hs. char_classes. Qed.

Lemma space_plain_iff (c : N) :
  kept c -> (isspace c = true -> c = 32%N) -> plain_char c = true.
Proof.
  intros H Hs. destruct (isspace c) eqn:Hc.
  - rewrite (Hs eq_refl). reflexivity.
  - apply kept_not_space_plain; assumption.
Qed.

Lemma plain_forall_kept (s : str) : plain s -> Forall kept s.
Proof. intros H. eapply Forall_impl; [exact H | exact plain_char_kept]. Qed.

Lemma plain_forall_not (d : N) (s : str) :
  d = 10%N \/ d = 47%N \/ d = 60%N \/ d = 64%N ->
  plain s -> Forall (fun c => c <> d) s.
Proof.
  intros Hd H. eapply Forall_impl; [exact H|].
  intros c Hc. apply plain_char_not; assumption.
Qed.

(** **** Steps that find nothing to remove in plain text *)

Lemma starts_with_forall (P : N -> Prop) (p s : str) :
  starts_with p s = true -> Forall P s -> Forall P p.
Proof.
  revert s. induction p as [|a p IH]; intros s Hp Hs; [constructor|].
  destruct s as [|c s]; [discriminate|]. cbn in Hp.
  apply andb_true_iff in Hp as [Hac Hp]. apply N.eqb_eq in Hac. subst c.
  inversion Hs; subst. constructor; [assumption | eauto].
Qed.

Lemma url_tail_none (r : str) (k : nat) :
  Forall (fun c => c <> 47%N) r -> url_tail r k = None.
Proof.
  intros Hr. unfold url_tail.
  destruct (starts_with (lit "://") r) eqn:Hp; [|reflexivity].
  apply (starts_with_forall _ _ _ Hp) in Hr.
  change (lit "://") with [58; 47; 47]%N in Hr.
  inversion Hr as [|? ? _ Hr']; subst. inversion Hr' as [|? ? Hslash _]; subst.
  contradiction.
Qed.

Lemma url_pattern_none (prev : option N) (s : str) :
  Forall (fun c => c <> 47%N) s -> url_pattern prev s = None.
Proof.
  intros Hs. unfold url_pattern.
  destruct (starts_with (lit "http") s); [|reflexivity].
  pose proof (Forall_drop _ 4 _ Hs) as Hr.
  rewrite (url_tail_none (drop 4 s) 4 Hr).
  destruct (drop 4 s) as [|c t]; [reflexivity|].
  inversion Hr; subst.
  destruct (c =? 115)%N; [|reflexivity].
  rewrite url_tail_none by assumption. reflexivity.
Qed.

Lemma email_pattern_none (U : unicode_db) (prev : option N) (s : str) :
  Forall (fun c => c <> 64%N) s -> email_pattern U prev s = None.
Proof.
  intros Hs. unfold email_pattern.
  destruct (word_boundary U prev (head s)); [|reflexivity].
  destruct (span local_char s) as [|l]; [reflexivity|].
  pose proof (Forall_drop _ (S l) _ Hs) as Hr.
  destruct (drop (S l) s) as [|c r]; [reflexivity|].
  inversion Hr as [|? ? Hc _]; subst.
  apply N.eqb_neq in Hc. rewrite Hc. reflexivity.
Qed.

Lemma sigil_pattern_none (U : unicode_db) (sigil : N) (prev : option N) (s : str) :
  Forall (fun c => c <> sigil) s -> sigil_pattern U sigil prev s = None.
Proof.
  intros Hs. unfold sigil_pattern. destruct s as [|c t]; [reflexivity|].
  inversion Hs as [|? ? Hc _]; subst. apply N.eqb_neq in Hc. rewrite Hc. reflexivity.
Qed.

Lemma html_pattern_none (prev : option N) (s : str) :
  Forall (fun c => c <> 60%N) s -> html_pattern prev s = None.
Proof.
  intros Hs. unfold html_pattern. destruct s as [|c t]; [reflexivity|].
  inversion Hs as [|? ? Hc _]; subst. apply N.eqb_neq in Hc. rewrite Hc. reflexivity.
Qed.

Lemma special_chars_pattern_none (prev : option N) (s : str) :
  Forall kept s -> special_chars_pattern true prev s = None.
Proof.
  intros Hs. unfold special_chars_pattern. destruct s as [|c t]; [reflexivity|].
  inversion Hs as [|? ? Hc _]; subst. unfold kept in Hc. rewrite Hc. reflexivity.
Qed.

Lemma remove_urls_plain (t : str) : plain t -> remove_urls t = t.
Proof.
  intros Ht. apply (re_sub_id_forall (fun c => c <> 47%N)).
  - apply url_pattern_none.
  - apply plain_forall_not; auto.
Qed.

Lemma remove_emails_plain (L : libs) (t : str) : plain t -> remove_emails L t = t.
Proof.
  intros Ht. apply (re_sub_id_forall (fun c => c <> 64%N)).
  - apply email_pattern_none.
  - apply plain_forall_not; auto.
Qed.

Lemma remove_mentions_plain (L : libs) (t : str) : plain t -> remove_mentions L t = t.
Proof.
  intros Ht. apply (re_sub_id_forall (fun c => c <> 64%N)).
  - apply sigil_pattern_none.
  - apply plain_forall_not; auto.
Qed.

Lemma remove_html_tags_plain (L : libs) (t : str) :
  lawful L -> plain t -> remove_html_tags L t = t.
Proof.
  intros HL Ht. unfold remove_html_tags.
  destruct (bs4_get_text L t) as [r|e] eqn:Hget; cbn [try_except].
  - apply (get_text_plain L HL t r Ht Hget).
  - apply (re_sub_id_forall (fun c => c <> 60%N)).
    + apply html_pattern_none.
    + apply plain_forall_not; auto.
Qed.

Lemma remove_special_characters_kept_id (t : str) :
  Forall kept t -> remove_special_characters t true = t.
Proof.
  intros Ht. apply (re_sub_id_forall kept); [|exact Ht].
  apply special_chars_pattern_none.
Qed.

(** Whatever the text, only kept characters are left after
    [remove_special_characters]: this is what [normalize_unicode] receives
    in [clean]. *)
Lemma remove_special_characters_kept (s : str) :
  Forall kept (remove_special_characters s true).
Proof.
  unfold remove_special_characters, re_sub. generalize 0 (@None N).
  induction s as [|c t IH]; intros k prev; [constructor|].
  cbn [re_sub_go]. destruct k as [|k]; [|apply IH].
  cbn [special_chars_pattern]. destruct (kept_char true c) eqn:Hc.
  - constructor; [exact Hc | apply IH].
  - cbn [delete app]. apply IH.
Qed.

(** **** Induction on a text, with every suffix of the tail at hand *)

Lemma str_drop_ind (P : str -> Prop) :
  P [] ->
  (forall c t, (forall k, P (drop k t)) -> P (c :: t)) ->
  forall s, P s.
Proof.
  intros Hnil Hcons s.
  assert (H : forall n s, length s <= n -> P s).
  { induction n as [|n IH]; intros [|c t] Hlen; try exact Hnil; cbn in Hlen; [lia|].
    apply Hcons. intros k. apply IH. rewrite length_drop. lia. }
  apply (H (length s)). lia.
Qed.

(** **** Shapes kept by prefixes and suffixes *)

Lemma span_take_le (p : N -> bool) (k : nat) (s : str) : span p (take k s) <= span p s.
Proof.
  revert k. induction s as [|c t IH]; intros [|k]; cbn; try lia.
  destruct (p c); [|lia]. specialize (IH k). lia.
Qed.

Lemma span_mono (p q : N -> bool) (s : str) :
  (forall c, p c = true -> q c = true) -> span p s <= span q s.
Proof.
  intros Hpq. induction s as [|c t IH]; cbn; [lia|].
  destruct (p c) eqn:Hc; [|lia]. rewrite (Hpq c Hc). lia.
Qed.

Lemma runs_ok_tail (exempt : N -> bool) (c : N) (t : str) :
  runs_ok exempt (c :: t) -> runs_ok exempt t.
Proof. intros [_ H]. exact H. Qed.

Lemma runs_ok_drop (exempt : N -> bool) (k : nat) (s : str) :
  runs_ok exempt s -> runs_ok exempt (drop k s).
Proof.
  revert s. induction k as [|k IH]; intros [|c t] H; try exact H.
  apply IH. eapply runs_ok_tail, H.
Qed.

Lemma runs_ok_take (exempt : N -> bool) (k : nat) (s : str) :
  runs_ok exempt s -> runs_ok exempt (take k s).
Proof.
  revert k. induction s as [|c t IH]; intros [|k] H; try exact I.
  destruct H as [Hc Ht]. split; [|apply IH, Ht].
  destruct Hc as [Hc|Hc]; [left; exact Hc | right].
  pose proof (span_take_le (N.eqb c) k t). lia.
Qed.

Lemma runs_ok_exempt_mono (e1 e2 : N -> bool) (s : str) :
  (forall c, e1 c = true -> e2 c = true) -> runs_ok e1 s -> runs_ok e2 s.
Proof.
  intros He. induction s as [|c t IH]; [trivial|].
  intros [[Hc|Hc] Ht]; (split; [|apply IH, Ht]); [left; apply He, Hc | right; exact Hc].
Qed.

Lemma single_spaced_drop (k : nat) (s : str) : single_spaced s -> single_spaced (drop k s).
Proof.
  revert s. induction k as [|k IH]; intros [|c t] H; try exact H.
  apply IH. exact (proj2 H).
Qed.

Lemma single_spaced_take (k : nat) (s : str) : single_spaced s -> single_spaced (take k s).
Proof.
  revert k. induction s as [|c t IH]; intros [|k] H; try exact I.
  destruct H as [Hc Ht]. split; [|apply IH, Ht].
  intros Hs. pose proof (span_take_le isspace k t). specialize (Hc Hs). lia.
Qed.

(** **** [strip] *)

Lemma lstrip_drop (s : str) : exists k, lstrip s = drop k s.
Proof.
  induction s as [|c t [k IH]]; [exists 0; reflexivity|].
  cbn [lstrip]. destruct (isspace c); [exists (S k); exact IH | exists 0; reflexivity].
Qed.

Lemma rstrip_take (s : str) : exists k, rstrip s = take k s.
Proof.
  unfold rstrip. destruct (lstrip_drop (rev s)) as [k ->].
  exists (length s - k). rewrite skipn_rev. apply rev_involutive.
Qed.

Lemma lstrip_head (s : str) (c : N) : head (lstrip s) = Some c -> isspace c = false.
Proof.
  induction s as [|d t IH]; [discriminate|].
  cbn [lstrip]. destruct (isspace d) eqn:Hd; [exact IH|].
  cbn. intros [= <-]. exact Hd.
Qed.

Lemma lstrip_id (s : str) :
  (forall c, head s = Some c -> isspace c = false) -> lstrip s = s.
Proof.
  destruct s as [|c t]; [reflexivity|]. intros H. cbn [lstrip].
  rewrite (H c eq_refl). reflexivity.
Qed.

Lemma lstrip_idem (s : str) : lstrip (lstrip s) = lstrip s.
Proof. apply lstrip_id, lstrip_head. Qed.

Lemma rstrip_idem (s : str) : rstrip (rstrip s) = rstrip s.
Proof. unfold rstrip. rewrite rev_involutive, lstrip_idem. reflexivity. Qed.

Lemma head_take (k : nat) (s : str) (c : N) : head (take k s) = Some c -> head s = Some c.
Proof. destruct k, s; cbn; congruence. Qed.

Lemma strip_idem (s : str) : strip (strip s) = strip s.
Proof.
  unfold strip.
  assert (H : lstrip (rstrip (lstrip s)) = rstrip (lstrip s)).
  { apply lstrip_id. intros c Hc.
    destruct (rstrip_take (lstrip s)) as [k Hk]. rewrite Hk in Hc.
    apply head_take in Hc. eapply lstrip_head, Hc. }
  rewrite H. apply rstrip_idem.
Qed.

Lemma strip_infix (s : str) : exists j k, strip s = take k (drop j s).
Proof.
  unfold strip. destruct (lstrip_drop s) as [j ->].
  destruct (rstrip_take (drop j s)) as [k ->]. eauto.
Qed.

Lemma strip_plain (s : str) : plain s -> plain (strip s).
Proof.
  intros H. destruct (strip_infix s) as (j & k & ->).
  apply Forall_take, Forall_drop, H.
Qed.

Lemma strip_single_spaced (s : str) : single_spaced s -> single_spaced (strip s).
Proof.
  intros H. destruct (strip_infix s) as (j & k & ->).
  apply single_spaced_take, single_spaced_drop, H.
Qed.

Lemma strip_runs_ok (exempt : N -> bool) (s : str) :
  runs_ok exempt s -> runs_ok exempt (strip s).
Proof.
  intros H. destruct (strip_infix s) as (j & k & ->).
  apply runs_ok_take, runs_ok_drop, H.
Qed.

(** **** Collapsing repeated characters *)

Lemma collapse_cons (c : N) (t : str) :
  collapse (c :: t) =
    if negb (c =? 10)%N && (2 <=? span (N.eqb c) t)
    then c :: c :: collapse (drop (span (N.eqb c) t) t)
    else c :: collapse t.
Proof.
  unfold collapse, remove_repeated_characters.
  rewrite re_sub_cons by (intros p p' s; reflexivity).
  cbn [repeated_chars]. destruct (c =? 10)%N; [reflexivity|].
  destruct (2 <=? span (N.eqb c) t); reflexivity.
Qed.

Lemma collapse_head (s : str) : head (collapse s) = head s.
Proof.
  destruct s as [|c t]; [reflexivity|]. rewrite collapse_cons.
  destruct (negb (c =? 10)%N && (2 <=? span (N.eqb c) t)); reflexivity.
Qed.

Lemma collapse_after_run (c : N) (t : str) :
  span (N.eqb c) (collapse (drop (span (N.eqb c) t) t)) = 0.
Proof.
  apply (span_same_head _ (drop (span (N.eqb c) t) t)).
  - apply collapse_head.
  - apply span_drop_span.
Qed.

Lemma collapse_span_le (x : N) (s : str) :
  span (N.eqb x) (collapse s) <= span (N.eqb x) s.
Proof.
  induction s as [|c t IH] using str_drop_ind; [reflexivity|].
  rewrite collapse_cons.
  destruct (negb (c =? 10)%N && (2 <=? span (N.eqb c) t)) eqn:Hmatch.
  - apply andb_true_iff in Hmatch as [_ Hrun]. apply Nat.leb_le in Hrun.
    cbn [span]. destruct (x =? c)%N eqn:Hx; [|lia].
    apply N.eqb_eq in Hx. subst x. rewrite collapse_after_run. lia.
  - specialize (IH 0). rewrite drop_0 in IH.
    cbn [span]. destruct (x =? c)%N; lia.
Qed.

(** After the collapse no character other than a newline starts a run of
    three. *)
Lemma collapse_runs_ok (s : str) : runs_ok (N.eqb 10) (collapse s).
Proof.
  induction s as [|c t IH] using str_drop_ind; [exact I|].
  rewrite collapse_cons.
  destruct (negb (c =? 10)%N && (2 <=? span (N.eqb c) t)) eqn:Hmatch.
  - pose proof (collapse_after_run c t) as Hnext.
    cbn [runs_ok span]. rewrite N.eqb_refl, Hnext.
    repeat split; [right; lia | right; lia | apply IH].
  - specialize (IH 0). rewrite drop_0 in IH.
    split; [|exact IH].
    apply andb_false_iff in Hmatch as [Hnl|Hrun].
    + left. apply negb_false_iff in Hnl. rewrite N.eqb_sym. exact Hnl.
    + right. apply Nat.leb_gt in Hrun. pose proof (collapse_span_le c t). lia.
Qed.

Lemma collapse_id (s : str) : runs_ok (N.eqb 10) s -> collapse s = s.
Proof.
  intros Hs. unfold collapse, remove_repeated_characters, re_sub.
  apply (re_sub_go_id (runs_ok (N.eqb 10))); [apply runs_ok_tail | | exact Hs].
  intros prev [|c t] H; [reflexivity|]. cbn [repeated_chars].
  destruct H as [[Hnl|Hrun] _].
  - rewrite N.eqb_sym, Hnl. reflexivity.
  - destruct (c =? 10)%N; [reflexivity|].
    apply Nat.leb_gt in Hrun. rewrite Hrun. reflexivity.
Qed.

Lemma collapse_forall (P : N -> Prop) (s : str) : Forall P s -> Forall P (collapse s).
Proof.
  apply re_sub_go_forall. intros [|c matched] H; [constructor|].
  inversion H; subst. repeat constructor; assumption.
Qed.

(** **** Squeezing whitespace *)

Lemma squeeze_cons (c : N) (t : str) :
  squeeze (c :: t) =
    if isspace c then 32%N :: squeeze (drop (span isspace t) t) else c :: squeeze t.
Proof.
  unfold squeeze. rewrite re_sub_cons by (intros p p' s; reflexivity).
  unfold whitespace_pattern. cbn [span]. destruct (isspace c); reflexivity.
Qed.

Lemma squeeze_head_not_space (s : str) :
  span isspace s = 0 -> span isspace (squeeze s) = 0.
Proof.
  destruct s as [|c t]; [reflexivity|]. rewrite squeeze_cons. cbn [span].
  destruct (isspace c) eqn:Hc; [discriminate|]. cbn [span]. rewrite Hc. reflexivity.
Qed.

Lemma squeeze_single_spaced (s : str) : single_spaced (squeeze s).
Proof.
  induction s as [|c t IH] using str_drop_ind; [exact I|].
  rewrite squeeze_cons. destruct (isspace c) eqn:Hc.
  - split; [|apply IH]. intros _. apply squeeze_head_not_space, span_drop_span.
  - specialize (IH 0). rewrite drop_0 in IH. split; [congruence | exact IH].
Qed.

Lemma squeeze_spaces (s : str) :
  Forall (fun c => isspace c = true -> c = 32%N) (squeeze s).
Proof.
  induction s as [|c t IH] using str_drop_ind; [constructor|].
  rewrite squeeze_cons. destruct (isspace c) eqn:Hc.
  - constructor; [reflexivity | apply IH].
  - specialize (IH 0). rewrite drop_0 in IH. constructor; [congruence | exact IH].
Qed.

Lemma squeeze_span_le (x : N) (s : str) :
  isspace x = false -> span (N.eqb x) (squeeze s) <= span (N.eqb x) s.
Proof.
  intros Hx. induction s as [|c t IH] using str_drop_ind; [reflexivity|].
  rewrite squeeze_cons. destruct (isspace c) eqn:Hc.
  - cbn [span]. destruct (x =? 32)%N eqn:H32; [|lia].
    apply N.eqb_eq in H32. subst x. discriminate.
  - specialize (IH 0). rewrite drop_0 in IH.
    cbn [span]. destruct (x =? c)%N; lia.
Qed.

Lemma squeeze_runs_ok (s : str) : runs_ok isspace s -> runs_ok isspace (squeeze s).
Proof.
  induction s as [|c t IH] using str_drop_ind; [trivial|].
  intros [Hc Ht]. rewrite squeeze_cons. destruct (isspace c) eqn:Hs.
  - split; [left; reflexivity | apply IH, runs_ok_drop, Ht].
  - specialize (IH 0). rewrite drop_0 in IH. split; [|apply IH, Ht].
    destruct Hc as [Hc|Hc]; [discriminate|].
    right. pose proof (squeeze_span_le c t Hs). lia.
Qed.

Lemma squeeze_id (s : str) :
  single_spaced s -> Forall (fun c => isspace c = true -> c = 32%N) s -> squeeze s = s.
Proof.
  induction s as [|c t IH]; [reflexivity|].
  intros [Hc Ht] Hs. inversion Hs as [|? ? H32 Hs']; subst.
  rewrite squeeze_cons. destruct (isspace c) eqn:Hsp.
  - rewrite (Hc eq_refl), drop_0, (H32 eq_refl), IH by assumption. reflexivity.
  - rewrite IH by assumption. reflexivity.
Qed.

Lemma squeeze_plain (s : str) : Forall kept s -> plain (squeeze s).
Proof.
  intros Hs.
  assert (Hk : Forall kept (squeeze s)).
  { apply re_sub_go_forall; [|exact Hs]. intros _ _. repeat constructor. }
  pose proof (squeeze_spaces s) as Hsp.
  unfold plain. rewrite Forall_forall in *.
  intros c Hc. apply space_plain_iff; auto.
Qed.

(** The order of [clean] shows in what reaches the transliteration: only
    kept characters, because the noise has been stripped before. *)
Lemma clean_transliterates_kept_text (L : libs) (c : N) (t : str) :
  exists k,
    Forall kept k
    /\ clean_default L (c :: t)
       = strip (normalize_whitespace (collapse (normalize_unicode L k))).
Proof. eexists. split; [apply remove_special_characters_kept | reflexivity]. Qed.

(** With the order of [clean] an accented letter is stripped as noise
    before it can be transliterated; with the order of the specification
    it is transliterated first and survives. *)
Example clean_order_matters :
  clean_default latin_text_libs [233%N] = []
  /\ run_steps (specified_steps latin_text_libs) [233%N] = lit "e".
Proof. split; vm_compute; reflexivity. Qed.

(** **** The two halves of the argument *)

Lemma normalize_whitespace_squeeze (s : str) : normalize_whitespace s = strip (squeeze s).
Proof. reflexivity. Qed.

Lemma newline_is_space (c : N) : (10 =? c)%N = true -> isspace c = true.
Proof. intros H. apply N.eqb_eq in H. subst c. reflexivity. Qed.

(** In a text without doubled whitespace, a run of three can only be made
    of other characters. *)
Lemma single_spaced_runs_ok (s : str) :
  single_spaced s -> runs_ok isspace s -> runs_ok (N.eqb 10) s.
Proof.
  induction s as [|c t IH]; [trivial|].
  intros [Hsp Ht] [Hc Hr]. split; [|apply IH; assumption].
  right. destruct Hc as [Hc|Hc]; [|exact Hc].
  assert (Hle : span (N.eqb c) t <= span isspace t).
  { apply span_mono. intros d Hd. apply N.eqb_eq in Hd. subst d. exact Hc. }
  rewrite (Hsp Hc) in Hle. lia.
Qed.

Lemma normal_nil : normal [].
Proof. repeat split; constructor. Qed.

(** Every output of [clean] is normal. *)
Lemma clean_normal (L : libs) (x : str) : lawful L -> normal (clean_default L x).
Proof.
  intros HL. destruct x as [|c t]; [exact normal_nil|].
  unfold clean_default, clean. cbv zeta.
  set (t5 := replace_emojis_with_text L _).
  pose proof (remove_special_characters_kept t5) as H6.
  apply (unidecode_kept L HL) in H6.
  fold (normalize_unicode L (remove_special_characters t5 true)) in H6.
  set (t7 := normalize_unicode L _) in *.
  fold (collapse t7).
  pose proof (collapse_forall kept t7 H6) as H8.
  pose proof (runs_ok_exempt_mono _ isspace _ newline_is_space (collapse_runs_ok t7)) as R8.
  rewrite normalize_whitespace_squeeze, strip_idem.
  repeat split.
  - apply strip_plain, squeeze_plain, H8.
  - apply strip_idem.
  - apply strip_single_spaced, squeeze_single_spaced.
  - apply strip_runs_ok, squeeze_runs_ok, R8.
Qed.

(** [clean] returns a normal text unchanged. *)
Lemma clean_fixes_normal (L : libs) (y : str) :
  lawful L -> normal y -> clean_default L y = y.
Proof.
  intros HL (Hplain & Hstrip & Hspaced & Hruns).
  destruct y as [|c t] eqn:Hy; [reflexivity|]. rewrite <- Hy in *.
  assert (clean_default L y =
          strip (normalize_whitespace (collapse (normalize_unicode L
            (remove_special_characters (replace_emojis_with_text L
              (remove_mentions L (remove_emails L (remove_urls
                (remove_html_tags L (strip y)))))) true))))) as ->
    by (rewrite Hy; reflexivity).
  rewrite Hstrip.
  rewrite (remove_html_tags_plain L y HL Hplain).
  rewrite (remove_urls_plain y Hplain).
  rewrite (remove_emails_plain L y Hplain).
  rewrite (remove_mentions_plain L y Hplain).
  unfold replace_emojis_with_text. rewrite (demojize_plain L HL y Hplain).
  rewrite (remove_special_characters_kept_id y (plain_forall_kept y Hplain)).
  unfold normalize_unicode. rewrite (unidecode_plain L HL y Hplain).
  rewrite (collapse_id y (single_spaced_runs_ok y Hspaced Hruns)).
  rewrite normalize_whitespace_squeeze.
  rewrite (squeeze_id y Hspaced).
  - rewrite Hstrip. exact Hstrip.
  - eapply Forall_impl; [exact Hplain|]. intros d Hd. apply plain_char_space, Hd.
Qed.

(** C8.  [clean] (with its default arguments) is idempotent: cleaning a
    cleaned text changes nothing, for every input text and for every text
    package that returns plain text unchanged. *)
Theorem clean_idempotent (L : libs) (x : str) :
  lawful L ->
  clean_default L (clean_default L x) = clean_default L x.
Proof.
  intros HL. apply clean_fixes_normal; [exact HL|]. apply clean_normal, HL.
Qed.

Lemma plain_text_libs_lawful : lawful plain_text_libs.
Proof.
  split; cbn.
  - intros t r _ [= <-]. reflexivity.
  - reflexivity.
  - reflexivity.
  - intros t H. exact H.
Qed.

(** The theorem on a text with markup, a mention, a URL, repeated letters
    and doubled spaces. *)
Lemma clean_idempotent_witness :
  clean_default plain_text_libs
    (clean_default plain_text_libs (lit "Soooo   cooool!!! @bob see http://t.co/x"))
  = clean_default plain_text_libs (lit "Soooo   cooool!!! @bob see http://t.co/x").
Proof.
  apply (clean_idempotent plain_text_libs
           (lit "Soooo   cooool!!! @bob see http://t.co/x") plain_text_libs_lawful).
Defined.

(** What the witness cleans to. *)
Example clean_sample :
  clean_default plain_text_libs (lit "Soooo   cooool!!! @bob see http://t.co/x")
  = lit "Soo cool!! see".
Proof. vm_compute. reflexivity. Qed.

(** The sibling [clean_for_classification], which strips the noise after it
    has collapsed the repeats, is not idempotent: ["a@a@a"] becomes ["aaa"],
    which becomes ["aa"]. *)
Example clean_for_classification_not_idempotent :
  clean_for_classification plain_text_libs (lit "a@a@a") = lit "aaa"
  /\ clean_for_classification plain_text_libs (lit "aaa") = lit "aa".
Proof. split; vm_compute; reflexivity. Qed.

End TextCleanerFacts.

(** ** The clustering engine *)

Module TopicClusterFacts.
Import TopicCluster TopicClusterSpec Doubles.

Lemma try_except_raise {A} (body : result A) (handler : exn -> A) (e : exn) :
  body = Raise e -> try_except body handler = handler e.
Proof. intros ->. reflexivity. Qed.

(** Noise points do not open or extend any topic. *)
Lemma group_loop_noise (items : list (post * Z)) :
  Forall (fun item => snd item = (-1)%Z) items ->
  forall post_idx all_embeddings topics counter,
    group_loop items post_idx all_embeddings topics counter = topics.
Proof.
  induction 1 as [|[p label] items Hlabel _ IH]; intros; [reflexivity|].
  cbn in Hlabel. subst label. cbn. apply IH.
Qed.

Lemma zip_replicate_snd {A B} (l : list A) (n : nat) (b : B) :
  Forall (fun item => snd item = b) (zip l (replicate n b)).
Proof.
  revert n. induction l as [|a l IH]; intros [|n]; cbn; constructor; auto.
Qed.

(** When the provider raises, the embeddings are zero vectors of width 384. *)
Lemma generate_embeddings_on_failure (L : libs) (self : instance) (texts : list pyval) :
  embedding_fails L ->
  generate_embeddings L self texts = np_zeros (length texts) 384.
Proof.
  intros Hfail. destruct texts as [|t texts]; [reflexivity|].
  unfold generate_embeddings.
  destruct (Hfail (t :: texts)) as [[e1 H1] [e2 H2]].
  destruct (SENTENCE_TRANSFORMERS_AVAILABLE L && has_model self);
    [rewrite H1 | rewrite H2]; reflexivity.
Qed.

(** When the clustering algorithm raises, every point is labelled noise. *)
Lemma apply_clustering_on_failure (L : libs) (self : instance)
    (rows : list vector) (min_cluster_size : Z) :
  clustering_fails L ->
  apply_clustering L self rows min_cluster_size = all_noise (length rows).
Proof.
  intros Hfail. unfold apply_clustering.
  destruct (Z.of_nat (length rows) <? min_cluster_size)%Z; [reflexivity|].
  destruct (Hfail min_cluster_size rows) as [[e1 H1] H2].
  destruct (bool_decide (clustering_algorithm self = "hdbscan"%string) && HDBSCAN_AVAILABLE L).
  - rewrite H1. reflexivity.
  - destruct (H2 (eps self)) as [e2 H2']. rewrite H2'. reflexivity.
Qed.

(** A batch smaller than the minimum cluster size is labelled noise
    without calling any clustering algorithm. *)
Lemma apply_clustering_small_batch (L : libs) (self : instance)
    (rows : list vector) (min_cluster_size : Z) :
  (Z.of_nat (length rows) < min_cluster_size)%Z ->
  apply_clustering L self rows min_cluster_size = all_noise (length rows).
Proof.
  intros Hlt. unfold apply_clustering.
  apply Z.ltb_lt in Hlt. rewrite Hlt. reflexivity.
Qed.

(** Labels that are all noise give no cluster. *)
Lemma cluster_posts_all_noise (L : libs) (self : instance) (all_posts : list post)
    (min_cluster_size : option Z) :
  is_loaded self = true ->
  (forall rows k, apply_clustering L self rows k = all_noise (length rows)) ->
  cluster_posts L self all_posts min_cluster_size = Ok [].
Proof.
  intros Hloaded Hnoise. unfold cluster_posts.
  destruct all_posts as [|p all_posts]; [reflexivity|].
  rewrite Hloaded. cbn [mbind result_bind bind].
  destruct (_extract_texts (p :: all_posts)) as [|t texts]; [reflexivity|].
  rewrite Hnoise. unfold _group_posts_by_cluster, all_noise.
  rewrite group_loop_noise by apply zip_replicate_snd.
  reflexivity.
Qed.

Lemma generate_embeddings_length (L : libs) (self : instance) (texts : list pyval) :
  one_row_per_text L ->
  length (generate_embeddings L self texts) = length texts.
Proof.
  intros Hrows. destruct texts as [|t texts]; [reflexivity|].
  unfold generate_embeddings.
  destruct (SENTENCE_TRANSFORMERS_AVAILABLE L && has_model self).
  - destruct (sentence_transformer_embeddings L (t :: texts)) as [rows|e] eqn:Hp;
      cbn [try_except].
    + apply (proj1 (Hrows (t :: texts) rows)), Hp.
    + unfold np_zeros. apply length_replicate.
  - destruct (tfidf_embeddings L (t :: texts)) as [rows|e] eqn:Hp; cbn [try_except].
    + apply (proj2 (Hrows (t :: texts) rows)), Hp.
    + unfold np_zeros. apply length_replicate.
Qed.

(** A batch with fewer posts than the minimum cluster size gives no
    cluster. *)
Lemma cluster_posts_small_batch (L : libs) (self : instance) (all_posts : list post)
    (min_cluster_size : Z) :
  is_loaded self = true ->
  one_row_per_text L ->
  (0 < min_cluster_size)%Z ->
  (Z.of_nat (length all_posts) < min_cluster_size)%Z ->
  cluster_posts L self all_posts (Some min_cluster_size) = Ok [].
Proof.
  intros Hloaded Hrows Hpos Hsmall. unfold cluster_posts.
  destruct all_posts as [|p all_posts]; [reflexivity|].
  rewrite Hloaded. cbn [mbind result_bind bind].
  destruct (_extract_texts (p :: all_posts)) as [|t texts] eqn:Htexts; [reflexivity|].
  assert (Hk : int_or (Some min_cluster_size) (min_cluster_size_ self) = min_cluster_size).
  { unfold int_or. destruct (min_cluster_size =? 0)%Z eqn:Hz; [lia | reflexivity]. }
  rewrite Hk.
  assert (Hlen : length (t :: texts) <= length (p :: all_posts)).
  { rewrite <- Htexts. unfold _extract_texts.
    etransitivity; [apply length_filter|]. rewrite length_map. reflexivity. }
  rewrite apply_clustering_small_batch
    by (rewrite generate_embeddings_length by exact Hrows; lia).
  unfold _group_posts_by_cluster, all_noise.
  rewrite group_loop_noise by apply zip_replicate_snd.
  reflexivity.
Qed.

(** C2, as amended.  A failure of the embedding provider is absorbed by
    [generate_embeddings], which continues with an all-zero matrix (one row
    of 384 zeros per text); a failure of the clustering algorithm is
    absorbed by [apply_clustering], which labels every post as noise, and
    [cluster_posts] then returns the empty list of clusters.  Neither
    failure reaches the handler of [cluster_posts] that builds the fallback
    cluster. *)
Theorem cluster_posts_absorbs_failures (L : libs) (self : instance)
    (all_posts : list post) (min_cluster_size : option Z) :
  is_loaded self = true ->
  (embedding_fails L ->
     forall texts, generate_embeddings L self texts = np_zeros (length texts) 384)
  /\ (clustering_fails L ->
       (forall rows k, apply_clustering L self rows k = all_noise (length rows))
       /\ cluster_posts L self all_posts min_cluster_size = Ok []).
Proof.
  intros Hloaded. split.
  - intros Hfail texts. apply generate_embeddings_on_failure, Hfail.
  - intros Hfail. split.
    + intros rows k. apply apply_clustering_on_failure, Hfail.
    + apply cluster_posts_all_noise; [exact Hloaded|].
      intros rows k. apply apply_clustering_on_failure, Hfail.
Qed.

Lemma outage_embedding_fails : embedding_fails outage_libs.
Proof. intros texts. split; eexists; reflexivity. Qed.

Lemma outage_clustering_fails : clustering_fails outage_libs.
Proof. intros k rows. split; [|intros eps]; eexists; reflexivity. Qed.

(** The theorem applied to five posts during an outage of both the
    embedding provider and the clustering algorithm. *)
Lemma cluster_posts_absorbs_failures_witness :
  is_loaded loaded_instance = true
  /\ embedding_fails outage_libs
  /\ clustering_fails outage_libs
  /\ generate_embeddings outage_libs loaded_instance (_extract_texts five_posts)
     = np_zeros 5 384
  /\ cluster_posts outage_libs loaded_instance five_posts (Some 5%Z) = Ok [].
Proof.
  pose proof (cluster_posts_absorbs_failures outage_libs loaded_instance five_posts
                (Some 5%Z) eq_refl) as [Hemb Hclu].
  split; [reflexivity|].
  split; [exact outage_embedding_fails|].
  split; [exact outage_clustering_fails|].
  split.
  - exact (Hemb outage_embedding_fails (_extract_texts five_posts)).
  - exact (proj2 (Hclu outage_clustering_fails)).
Defined.

(** C2 as claimed fails: with the embedding provider and the clustering
    algorithm raising on every call, [cluster_posts] returns no cluster at
    all for a batch of five posts, so every post is missing from the
    output; the fallback cluster is not built. *)
Lemma cluster_posts_outage_returns_nothing :
  length five_posts = 5
  /\ cluster_posts outage_libs new_instance five_posts (Some 5%Z) = Ok []
  /\ cluster_posts outage_libs new_instance five_posts None = Ok [].
Proof. repeat split; vm_compute; reflexivity. Qed.

Lemma title_loop_representative (topic_posts : list post) :
  forall representative_post best_score r,
    representative_ok representative_post ->
    title_loop topic_posts representative_post best_score = Ok r ->
    representative_ok r.
Proof.
  induction topic_posts as [|p rest IH]; intros rep best r Hrep Hloop.
  - cbn in Hloop. congruence.
  - cbn [title_loop] in Hloop.
    destruct (post_text p) as [| | | |s] eqn:Htext;
      cbn [py_len mbind result_bind bind] in Hloop; try discriminate.
    destruct (0 <? length s)%nat eqn:Hlen; [|eauto].
    destruct (py_truediv _ _) as [score|];
      cbn [mbind result_bind bind] in Hloop; [|discriminate].
    destruct (py_gt score best) as [[|]|];
      cbn [mbind result_bind bind] in Hloop; [| eauto | discriminate].
    refine (IH _ _ _ _ Hloop). cbn. intros ->. discriminate.
Qed.

Lemma join_nonempty (sep : str) (parts : list str) (p : str) :
  head parts = Some p -> p <> [] -> join sep parts <> [].
Proof.
  destruct parts as [|q [|q' parts]]; cbn; intros [= ->] Hp; [exact Hp|].
  destruct p; [congruence | discriminate].
Qed.

Lemma keyword_title_bounded (L : libs) (keywords : list str) :
  length (keyword_title L keywords) <= 100.
Proof.
  unfold keyword_title. destruct keywords.
  - vm_compute. lia.
  - rewrite length_take. lia.
Qed.

Lemma keyword_title_nonempty (L : libs) (keywords : list str) :
  title_keeps_nonempty L ->
  Forall (fun k => k <> []) keywords ->
  keyword_title L keywords <> [].
Proof.
  intros Htitle Hkw. unfold keyword_title.
  destruct keywords as [|k keywords]; [discriminate|].
  inversion Hkw as [|? ? Hk _]; subst.
  assert (Hj : join (lit " ") (take 3 (k :: keywords)) <> [])
    by (apply (join_nonempty _ _ k); [reflexivity | exact Hk]).
  apply Htitle in Hj.
  destruct (str_title L _); [congruence | discriminate].
Qed.

(** The text that the loop of [generate_topic_title] keeps is the
    non-empty text of one of the posts. *)
Lemma title_loop_from (all_posts rest : list post) :
  (forall p, p ∈ rest -> p ∈ all_posts) ->
  forall representative_post best_score r,
    representative_from all_posts representative_post ->
    title_loop rest representative_post best_score = Ok r ->
    representative_from all_posts r.
Proof.
  induction rest as [|p rest IH]; intros Hsub rep best r Hrep Hloop.
  - cbn in Hloop. congruence.
  - assert (Hrest : forall q, q ∈ rest -> q ∈ all_posts)
      by (intros q Hq; apply Hsub; right; exact Hq).
    cbn [title_loop] in Hloop.
    destruct (post_text p) as [| | | |s] eqn:Htext;
      cbn [py_len mbind result_bind bind] in Hloop; try discriminate.
    destruct (0 <? length s)%nat eqn:Hlen; [|eauto].
    destruct (py_truediv _ _) as [score|];
      cbn [mbind result_bind bind] in Hloop; [|discriminate].
    destruct (py_gt score best) as [[|]|];
      cbn [mbind result_bind bind] in Hloop; [| eauto | discriminate].
    refine (IH Hrest _ _ _ _ Hloop). cbn. split.
    + intros ->. discriminate.
    + exists p. split; [apply Hsub; left|exact Htext].
Qed.

(** C10, as amended.  On every path, for every cluster and every list of
    keywords, [generate_topic_title] returns at most 100 characters.  It
    returns the text that its loop keeps, which is the non-empty text of one
    of the posts, when that text has at most 100 characters; when the loop
    keeps no text or a longer one, the title-cased first three keywords cut
    at 100 characters, or ["Untitled Topic"] if there is no keyword; and
    ["Untitled Topic"] when the loop raises.  The title is non-empty as soon
    as no keyword is the empty string. *)
Theorem generate_topic_title_bounded (L : libs) (topic_posts : list post)
    (keywords : list str) :
  let title := generate_topic_title L topic_posts keywords in
  let fallback :=
    match keywords with
    | [] => untitled
    | _ :: _ => take 100 (str_title L (join (lit " ") (take 3 keywords)))
    end in
  length title <= 100
  /\ match title_loop topic_posts None (VInt (-1)) with
     | Ok (Some text) =>
         exists s, text = VStr s /\ s <> []
           /\ (exists p, p ∈ topic_posts /\ post_text p = VStr s)
           /\ title = if (length s <=? 100)%nat then s else fallback
     | Ok None => title = fallback
     | Raise _ => title = untitled
     end
  /\ (title_keeps_nonempty L -> Forall (fun k => k <> []) keywords -> title <> []).
Proof.
  intros title fallback.
  assert (Hfallback : keyword_title L keywords = fallback)
    by (destruct keywords; reflexivity).
  pose proof (keyword_title_bounded L keywords) as Hb.
  assert (Hpaths :
    match title_loop topic_posts None (VInt (-1)) with
    | Ok (Some text) =>
        exists s, text = VStr s /\ s <> []
          /\ (exists p, p ∈ topic_posts /\ post_text p = VStr s)
          /\ title = if (length s <=? 100)%nat then s else fallback
    | Ok None => title = fallback
    | Raise _ => title = untitled
    end).
  { subst title. unfold generate_topic_title.
    destruct (title_loop topic_posts None (VInt (-1))) as [r|e] eqn:Hloop;
      cbn [mbind result_bind bind try_except]; [|reflexivity].
    pose proof (title_loop_from topic_posts topic_posts (fun p Hp => Hp) None _ r I Hloop)
      as Hr.
    destruct r as [[| | | |s]|]; cbn in Hr; try contradiction; [|exact Hfallback].
    destruct Hr as [Hs Hfrom]. exists s. repeat split; try assumption.
    destruct s as [|c s]; [congruence|]. cbn [truthy py_len mbind result_bind bind].
    destruct (length (c :: s) <=? 100)%nat; cbn [try_except]; [reflexivity|exact Hfallback]. }
  split; [|split; [exact Hpaths|]].
  - destruct (title_loop topic_posts None (VInt (-1))) as [[text|]|e].
    + destruct Hpaths as (s & _ & _ & _ & ->).
      destruct (length s <=? 100)%nat eqn:Hlen;
        [apply Nat.leb_le, Hlen|rewrite <- Hfallback; exact Hb].
    + rewrite Hpaths, <- Hfallback. exact Hb.
    + rewrite Hpaths. vm_compute. lia.
  - intros Htitle Hkw.
    pose proof (keyword_title_nonempty L keywords Htitle Hkw) as Hn.
    rewrite Hfallback in Hn.
    destruct (title_loop topic_posts None (VInt (-1))) as [[text|]|e].
    + destruct Hpaths as (s & _ & Hs & _ & ->).
      destruct (length s <=? 100)%nat; assumption.
    + rewrite Hpaths. exact Hn.
    + rewrite Hpaths. discriminate.
Qed.

Lemma ascii_title_keeps_nonempty : title_keeps_nonempty outage_libs.
Proof. intros [|c s] Hs; [congruence | discriminate]. Qed.

(** C10 as claimed fails on non-emptiness: for a cluster whose only post has
    101 characters and the keyword list [['']], the title is the empty
    string. *)
Lemma generate_topic_title_can_be_empty :
  [long_post] <> []
  /\ generate_topic_title outage_libs [long_post] [[]] = [].
Proof. split; [discriminate | vm_compute; reflexivity]. Qed.

(** With the keywords ["cape"] and ["town"] the same cluster gets the title
    ["Cape Town"]; a cluster of five short posts with equal engagement gets
    the text of the first one. *)
Example generate_topic_title_examples :
  generate_topic_title outage_libs [long_post] [lit "cape"; lit "town"] = lit "Cape Town"
  /\ generate_topic_title outage_libs five_posts [] = lit "lekker day in Cape Town"
  /\ generate_topic_title outage_libs [] [] = lit "Untitled Topic".
Proof. repeat split; vm_compute; reflexivity. Qed.

End TopicClusterFacts.

(** ** The classification endpoint *)

Module ClassifyRouterFacts.
Import Services ClassifyRouter ClassifyRouterSpec Doubles.

Lemma guarded_call_field {A} (asked : bool) (c : classifier) (call : result A) :
  fst (guarded_call asked c call) = field_of asked call.
Proof. destruct asked, call; reflexivity. Qed.

Lemma guarded_call_invoked {A} (asked : bool) (c : classifier) (call : result A) :
  invoked (snd (guarded_call asked c call)) = if asked then [c] else [].
Proof. destruct asked, call; reflexivity. Qed.

Lemma invoked_app (e1 e2 : list event) : invoked (e1 ++ e2) = invoked e1 ++ invoked e2.
Proof. unfold invoked. apply omap_app. Qed.

(** The fan-out on a supported, non-spam text: each requested classifier is
    called once, in order, whatever the others did, and each field is the
    classifier's own result or null. *)
Lemma fan_out_contains_failures (S : services) (request : ClassifyRequest) (cleaned_text : str) :
  let '((sentiment_result, toxicity_result, geo_result), events) :=
    fan_out S request cleaned_text true false in
  sentiment_result = field_of (include_sentiment request) (sentiment_analyze S cleaned_text)
  /\ toxicity_result = field_of (include_toxicity request) (toxicity_analyze S cleaned_text)
  /\ geo_result = field_of (include_geo request) (geo_classify S cleaned_text)
  /\ invoked events = requested request.
Proof.
  unfold fan_out, requested. cbn [andb negb].
  pose proof (guarded_call_field (include_sentiment request) Sentiment
                (sentiment_analyze S cleaned_text)) as Hs.
  pose proof (guarded_call_invoked (include_sentiment request) Sentiment
                (sentiment_analyze S cleaned_text)) as Hs'.
  destruct (guarded_call (include_sentiment request) Sentiment _) as [s e1].
  pose proof (guarded_call_field (include_toxicity request) Toxicity
                (toxicity_analyze S cleaned_text)) as Ht.
  pose proof (guarded_call_invoked (include_toxicity request) Toxicity
                (toxicity_analyze S cleaned_text)) as Ht'.
  destruct (guarded_call (include_toxicity request) Toxicity _) as [t e2].
  pose proof (guarded_call_field (include_geo request) Geo
                (geo_classify S cleaned_text)) as Hg.
  pose proof (guarded_call_invoked (include_geo request) Geo
                (geo_classify S cleaned_text)) as Hg'.
  destruct (guarded_call (include_geo request) Geo _) as [g e3].
  cbn [fst snd] in *. rewrite !invoked_app, Hs', Ht', Hg'. auto.
Qed.

(** C9.  For a request that reaches the fan-out (valid text, no cached
    result) on a supported, non-spam text, whatever each downstream
    classifier does (return or raise): [classify_text] returns a result and
    raises nothing; every requested classifier is invoked exactly once, in
    the order sentiment, toxicity, region; and each of the three fields
    holds its classifier's result when it returned one and is null when it
    raised or was not requested. *)
Theorem classify_text_contains_failures (S : services) (E : environment)
    (request : ClassifyRequest) :
  let cleaned_text := TextCleaner.clean_for_classification (text_libs S) (text request) in
  TextCleaner.strip (text request) <> [] ->
  length (text request) <= max_text_length E ->
  cache_get_json E (cache_key E request) = None ->
  is_supported_language S cleaned_text 0.7 = Ok true ->
  TextCleaner.is_spam (text_libs S) cleaned_text = false ->
  in_unit_interval (snd (detect_language S request cleaned_text)) ->
  exists r events,
    classify_text S E request = (Ok r, events)
    /\ r_sentiment r
       = field_of (include_sentiment request) (sentiment_analyze S cleaned_text)
    /\ r_toxicity r
       = field_of (include_toxicity request) (toxicity_analyze S cleaned_text)
    /\ r_geo_classification r
       = field_of (include_geo request) (geo_classify S cleaned_text)
    /\ invoked events = requested request.
Proof.
  intros cleaned_text Hstrip Hlen Hmiss Hsupported Hspam [Hlo Hhi].
  assert (Htext : text request <> []) by (intros Heq; rewrite Heq in Hstrip; auto).
  unfold classify_text, classify_body.
  rewrite (bool_decide_eq_false_2 _ Htext), (bool_decide_eq_false_2 _ Hstrip).
  cbn [orb].
  apply Nat.ltb_ge in Hlen. rewrite Hlen, Hmiss.
  fold cleaned_text. rewrite Hspam, Hsupported.
  destruct (detect_language S request cleaned_text) as [code confidence].
  cbn [snd] in Hlo, Hhi.
  pose proof (fan_out_contains_failures S request cleaned_text) as Hfan.
  destruct (fan_out S request cleaned_text true false) as [[[s t] g] events].
  destruct Hfan as (Hs & Ht & Hg & Hi).
  unfold validate_result. cbn [r_language_confidence]. rewrite Hlo, Hhi. cbn [andb].
  eexists _, _. split; [reflexivity|]. cbn [r_sentiment r_toxicity r_geo_classification].
  repeat split; try assumption.
  rewrite invoked_app, Hi. cbn. apply app_nil_r.
Qed.

(** The theorem applied to a request for all three analyses while the
    sentiment model is down: the sentiment field is null, the two other
    classifiers were still called and their results returned. *)
Lemma classify_text_contains_failures_witness :
  exists r events,
    classify_text degraded_services cold_environment full_request = (Ok r, events)
    /\ r_sentiment r = None
    /\ r_toxicity r = field_of true (toxicity_analyze degraded_services
           (TextCleaner.clean_for_classification plain_text_libs (text full_request)))
    /\ r_geo_classification r = field_of true (geo_classify degraded_services
           (TextCleaner.clean_for_classification plain_text_libs (text full_request)))
    /\ invoked events = [Sentiment; Toxicity; Geo].
Proof.
  refine (classify_text_contains_failures degraded_services cold_environment full_request
            _ _ _ _ _ _).
  - vm_compute. discriminate.
  - vm_compute. lia.
  - reflexivity.
  - reflexivity.
  - vm_compute. reflexivity.
  - split; vm_compute; reflexivity.
Defined.

End ClassifyRouterFacts.

(** ** The ingestion orchestrator *)

Module IngestRouterFacts.
Import Services TopicCluster IngestRouter IngestRouterSpec Doubles.

Lemma mark_processed_idem (row : ingest_event) :
  mark_processed (mark_processed row) = mark_processed row.
Proof. unfold mark_processed. destruct (processed row) eqn:Hp; cbn; rewrite ?Hp; reflexivity. Qed.

Lemma mark_linked_idem (t : string) (row : ingest_event) :
  mark_linked t (mark_linked t row) = mark_linked t row.
Proof. unfold mark_linked. destruct (processed row) eqn:Hp; cbn; rewrite ?Hp; reflexivity. Qed.

(** The bulk statement, row by row. *)
Lemma lookup_mark_all (ids : list string) (db : table) (i : string) :
  foldr (fun j acc => alter mark_processed j acc) db ids !! i
  = if bool_decide (i ∈ ids) then mark_processed <$> db !! i else db !! i.
Proof.
  induction ids as [|j ids IH]; cbn [foldr].
  - rewrite bool_decide_eq_false_2 by apply not_elem_of_nil. reflexivity.
  - destruct (decide (i = j)) as [->|Hne].
    + rewrite lookup_alter_eq, IH.
      rewrite (bool_decide_eq_true_2 (j ∈ j :: ids)) by apply list_elem_of_here.
      case_bool_decide; [|reflexivity].
      destruct (db !! j) as [row|]; [|reflexivity].
      cbn. f_equal. apply mark_processed_idem.
    + rewrite lookup_alter_ne by congruence. rewrite IH.
      rewrite (bool_decide_ext (i ∈ j :: ids) (i ∈ ids)); [reflexivity|].
      rewrite elem_of_cons. tauto.
Qed.

(** A statement changes no topic. *)
Lemma execute_trend_topics (stmt : statement) (db db' : database) :
  execute stmt db = Ok db' -> trend_topics db' = trend_topics db.
Proof.
  unfold execute. destruct (accepted stmt db); [|discriminate].
  intros [= <-]. reflexivity.
Qed.

Lemma execute_all_trend_topics (stmts : list statement) (db : database) :
  trend_topics (execute_all stmts db) = trend_topics db.
Proof.
  revert db. induction stmts as [|stmt rest IH]; intros db; [reflexivity|].
  cbn [execute_all]. destruct (execute stmt db) as [db'|e] eqn:Hexec; [|reflexivity].
  rewrite IH. eapply execute_trend_topics, Hexec.
Qed.

(** The cluster ids that [cluster_posts] gives its topics are no UUIDs. *)
Lemma render_cluster_id_is_no_uuid (c : cluster_id) : is_uuid (render_cluster_id c) = false.
Proof.
  destruct c as [n|]; [|vm_compute; reflexivity].
  unfold is_uuid, render_cluster_id.
  change ("topic_" +:+ pretty n) with (String "t" ("opic_" +:+ pretty n)).
  cbn [list_ascii_of_string]. rewrite filter_cons_True by discriminate.
  cbn [forallb]. change (is_hex_digit "t") with false.
  apply andb_false_r.
Qed.

(** The body of the persistence loop changes no row of [IngestEvent] and
    commits nothing. *)
Lemma store_topic_adds_topics_only (create_topic_row : topic -> creation) (t : topic)
    (s : session) (topics_created : nat) :
  adds_topics_only s ->
  adds_topics_only (store_topic create_topic_row t s topics_created).1.2
  /\ committed (store_topic create_topic_row t s topics_created).1.2 = committed s.
Proof.
  intros [Hevents Htopics]. unfold store_topic, adds_topics_only.
  destruct (meta t); [destruct (create_topic_row t)|]; cbn; repeat split;
    try reflexivity; try exact Hevents; set_solver.
Qed.

Lemma store_topics_adds_topics_only (create_topic_row : topic -> creation)
    (topics : list topic) (s : session) (topics_created : nat) :
  adds_topics_only s ->
  adds_topics_only (store_topics create_topic_row topics s topics_created).1.2
  /\ committed (store_topics create_topic_row topics s topics_created).1.2 = committed s.
Proof.
  revert s topics_created. induction topics as [|t rest IH]; intros s n Hs; [split; [exact Hs|reflexivity]|].
  cbn [store_topics].
  destruct (store_topic_adds_topics_only create_topic_row t s n Hs) as [H1 Hc1].
  destruct (store_topic create_topic_row t s n) as [[stored s1] n1]. cbn in H1, Hc1.
  destruct (IH s1 n1 H1) as [H2 Hc2].
  destruct (store_topics create_topic_row rest s1 n1) as [[others s2] n2]. cbn in H2, Hc2 |- *.
  split; [exact H2|congruence].
Qed.

Lemma open_session_adds_topics_only (db : database) : adds_topics_only (open_session db).
Proof. split; reflexivity. Qed.

(** What a call of [cluster_posts_background] has committed when its session
    is closed: the rows of [IngestEvent] as they were, and no fewer topics. *)
Lemma cluster_posts_session_committed (C : TopicCluster.libs)
    (create_topic_row : topic -> creation) (self : instance) (db : database)
    (batch : list post) (min_cluster_size : Z) :
  let s := cluster_posts_session C create_topic_row self db batch min_cluster_size in
  ingest_events (committed s) = ingest_events db
  /\ trend_topics db ⊆ trend_topics (committed s).
Proof.
  cbv zeta. unfold cluster_posts_session.
  destruct (cluster_posts C self batch (Some min_cluster_size)) as [topics|e];
    [|split; reflexivity].
  destruct (store_topics_adds_topics_only create_topic_row topics (open_session db) 0
              (open_session_adds_topics_only db)) as [[Hevents Htopics] Hcommitted].
  destruct (store_topics create_topic_row topics (open_session db) 0) as [[stored s] n].
  cbn in Hevents, Htopics, Hcommitted |- *.
  destruct n as [|n]; cbn.
  - rewrite Hcommitted. split; reflexivity.
  - rewrite Hevents, Hcommitted. split; [reflexivity|].
    rewrite Hcommitted in Htopics. exact Htopics.
Qed.

Lemma run_session_committed (S : services) (C : TopicCluster.libs)
    (create_topic_row : topic -> creation) (self : instance) (db : database)
    (batch : list post) :
  let s := run_session S C create_topic_row self db batch in
  ingest_events (committed s) = ingest_events db
  /\ trend_topics db ⊆ trend_topics (committed s).
Proof.
  cbv zeta. unfold run_session.
  destruct (processed_posts_of S batch) as [|p classified]; [split; reflexivity|].
  apply cluster_posts_session_committed.
Qed.

(** The database that a run leaves is what its session has committed. *)
Lemma run_leaves_committed (S : services) (C : TopicCluster.libs)
    (create_topic_row : topic -> creation) (self : instance) (db : database)
    (batch : list post) :
  process_and_cluster_posts_background S C create_topic_row self db batch
  = close (run_session S C create_topic_row self db batch).
Proof.
  unfold process_and_cluster_posts_background, run_session.
  destruct (processed_posts_of S batch); reflexivity.
Qed.

(** C3.  A batch run leaves every row of [IngestEvent] as it found it.  The
    database after the run is what the session of the run has committed;
    the only commit comes before [_update_ingest_event_flags], so the
    [UPDATE]s of the flags live in the transaction of the session only and
    are rolled back when the session is closed.  No record is durably marked
    consumed, with or without a topic; at most, topics are added. *)
Theorem run_never_commits_flags (S : services) (C : TopicCluster.libs)
    (create_topic_row : topic -> creation) (self : instance) (db : database)
    (batch : list post) :
  let after := process_and_cluster_posts_background S C create_topic_row self db batch in
  after = committed (run_session S C create_topic_row self db batch)
  /\ ingest_events after = ingest_events db
  /\ trend_topics db ⊆ trend_topics after.
Proof.
  cbv zeta. rewrite run_leaves_committed. unfold close.
  split; [reflexivity|]. apply run_session_committed.
Qed.

(** The scenario of the small batch: four posts survive classification, no
    cluster reaches the minimum size of 5 and no topic is created.  The
    transaction of the run marks the four records consumed without a topic,
    and the run leaves the database as it was, the four records unconsumed. *)
Example small_batch_is_not_marked :
  let s := run_session healthy_services agreeing_libs (fun _ => Created topic_A)
             TopicClusterSpec.loaded_instance pending_database (events 4) in
  run_statements healthy_services agreeing_libs (fun _ => Created topic_A)
    TopicClusterSpec.loaded_instance (events 4)
  = [UpdateProcessed (take 4 event_keys)]
  /\ ingest_events (view s) !! event_1 = Some {| processed := true; topicId := None |}
  /\ close s = pending_database
  /\ ingest_events (close s) !! event_1 = Some unconsumed.
Proof. repeat split; vm_compute; reflexivity. Qed.

(** Five posts that are clustered into one topic, whose row is stored under
    the key [topic_A]: the transaction of the run links the five records to
    the topic, the topic is committed, and the five records are left
    unconsumed and unlinked. *)
Example persisted_topic_is_not_linked :
  let s := run_session healthy_services agreeing_libs (fun _ => Created topic_A)
             TopicClusterSpec.loaded_instance pending_database (events 5) in
  ingest_events (view s) !! event_1 = Some (consumed_into topic_A)
  /\ trend_topics (close s) = {[ topic_A ]}
  /\ ingest_events (close s) = ingest_events pending_database
  /\ ingest_events (close s) !! event_1 = Some unconsumed.
Proof. repeat split; vm_compute; reflexivity. Qed.

(** When the row of the topic could not be stored, the mapping falls back
    to the cluster id ['topic_0'], which the column [topicId] does not take:
    the first [UPDATE] raises, and not even the transaction of the run has
    a record marked. *)
Example unstored_topic_link_is_refused :
  let s := run_session healthy_services agreeing_libs (fun _ => NotCreated)
             TopicClusterSpec.loaded_instance pending_database (events 5) in
  head (run_statements healthy_services agreeing_libs (fun _ => NotCreated)
          TopicClusterSpec.loaded_instance (events 5))
  = Some (UpdateLinked event_1 "topic_0")
  /\ execute (UpdateLinked event_1 "topic_0") pending_database = Raise ProviderError
  /\ view s = pending_database
  /\ close s = pending_database.
Proof. repeat split; vm_compute; reflexivity. Qed.



End IngestRouterFacts.

(** * Further properties of the text cleaner *)

Module TextCleanerShape.
Import TextCleaner TextCleanerSpec TextCleanerFacts.

(** X1.  The text handed to the classifiers holds nothing but ASCII letters and
    digits, the punctuation [.,!?;:] and single spaces between words,
    whatever the text packages return. *)
Theorem clean_for_classification_is_plain (L : libs) (text : str) :
  let cleaned := clean_for_classification L text in
  plain cleaned /\ strip cleaned = cleaned /\ single_spaced cleaned.
Proof.
  destruct text as [|c t]; [repeat split; constructor|].
  unfold clean_for_classification. cbv zeta.
  set (t6 := remove_repeated_characters _ 2).
  pose proof (remove_special_characters_kept t6) as H7.
  rewrite normalize_whitespace_squeeze.
  split; [|split].
  - apply strip_plain, squeeze_plain, H7.
  - apply strip_idem.
  - apply strip_single_spaced, squeeze_single_spaced.
Qed.

Lemma strip_forall (P : N -> Prop) (s : str) : Forall P s -> Forall P (strip s).
Proof.
  intros H. destruct (strip_infix s) as (j & k & ->).
  apply Forall_take, Forall_drop, H.
Qed.

(** X2.  [clean], with any choice of its two flags and whatever the text
    packages return, yields a text without surrounding whitespace, in which
    every whitespace character is a single space and no character occurs
    three times in a row. *)
Theorem clean_output_is_tidy (L : libs) (text : str) (preserve_hashtags preserve_mentions : bool) :
  let cleaned := clean L text preserve_hashtags preserve_mentions in
  strip cleaned = cleaned
  /\ single_spaced cleaned
  /\ Forall (fun c => isspace c = true -> c = 32%N) cleaned
  /\ runs_ok isspace cleaned.
Proof.
  destruct text as [|c t]; [repeat split; constructor|].
  unfold clean. cbv zeta.
  set (t7 := normalize_unicode L _).
  fold (collapse t7).
  pose proof (runs_ok_exempt_mono _ isspace _ newline_is_space (collapse_runs_ok t7)) as R8.
  rewrite normalize_whitespace_squeeze.
  rewrite (strip_idem (squeeze (collapse t7))).
  split; [|split; [|split]].
  - apply strip_idem.
  - apply strip_single_spaced, squeeze_single_spaced.
  - apply strip_forall, squeeze_spaces.
  - apply strip_runs_ok, squeeze_runs_ok, R8.
Qed.

(** X3.  [normalize_whitespace] and [remove_repeated_characters(text, 2)] are
    idempotent, and the second leaves no character other than the newline
    three times in a row. *)
Theorem whitespace_and_repeats_idempotent (text : str) :
  normalize_whitespace (normalize_whitespace text) = normalize_whitespace text
  /\ remove_repeated_characters (remove_repeated_characters text 2) 2
     = remove_repeated_characters text 2
  /\ runs_ok (N.eqb 10) (remove_repeated_characters text 2).
Proof.
  split; [|split].
  - rewrite !normalize_whitespace_squeeze.
    rewrite (squeeze_id (strip (squeeze text))).
    + apply strip_idem.
    + apply strip_single_spaced, squeeze_single_spaced.
    + apply strip_forall, squeeze_spaces.
  - apply (collapse_id (collapse text)), collapse_runs_ok.
  - apply (collapse_runs_ok text).
Qed.

(** **** Counting matches *)

Lemma re_count_go_bound (m : pattern) (k : nat) :
  (forall prev s n, m prev s = Some n -> k <= n <= length s) ->
  forall s skip prev, skip <= length s ->
    k * re_count_go m skip prev s + skip <= length s.
Proof.
  intros Hm. induction s as [|c t IH]; intros skip prev Hskip.
  - cbn in *. lia.
  - cbn [re_count_go]. destruct skip as [|skip].
    + destruct (m prev (c :: t)) as [[|n]|] eqn:Hmatch.
      * specialize (IH 0 (Some c)). cbn [length] in *. lia.
      * apply Hm in Hmatch. cbn [length] in *.
        specialize (IH n (Some c)). lia.
      * specialize (IH 0 (Some c)). cbn [length] in *. lia.
    + cbn [length] in *. specialize (IH skip (Some c)). lia.
Qed.

Lemma re_count_bound (m : pattern) (k : nat) (s : str) :
  (forall prev s n, m prev s = Some n -> k <= n <= length s) ->
  k * re_count m s <= length s.
Proof.
  intros Hm. pose proof (re_count_go_bound m k Hm s 0 None). unfold re_count. lia.
Qed.

Lemma starts_with_length (p s : str) : starts_with p s = true -> length p <= length s.
Proof.
  revert s. induction p as [|a p IH]; intros [|c s] H; cbn in *; try lia; try discriminate.
  apply andb_true_iff in H as [_ H]. apply IH in H. lia.
Qed.

Lemma sigil_pattern_bounds (U : unicode_db) (sigil : N) (prev : option N) (s : str) (n : nat) :
  sigil_pattern U sigil prev s = Some n -> 2 <= n <= length s.
Proof.
  unfold sigil_pattern. destruct s as [|c t]; [discriminate|].
  destruct (c =? sigil)%N; [|discriminate].
  pose proof (span_le_length (is_word U) t).
  destruct (span (is_word U) t) as [|j]; [discriminate|].
  intros [= <-]. cbn [length]. lia.
Qed.

Lemma url_tail_bounds (s : str) (len_before n : nat) :
  url_tail s len_before = Some n -> len_before + 4 <= n <= len_before + length s.
Proof.
  unfold url_tail. destruct (starts_with (lit "://") s) eqn:Hs; [|discriminate].
  apply starts_with_length in Hs. cbn in Hs.
  pose proof (span_le_length url_char (drop 3 s)) as Hle.
  rewrite length_drop in Hle.
  destruct (span url_char (drop 3 s)) as [|j]; [discriminate|].
  intros [= <-]. lia.
Qed.

Lemma url_pattern_bounds (prev : option N) (s : str) (n : nat) :
  url_pattern prev s = Some n -> 8 <= n <= length s.
Proof.
  unfold url_pattern. destruct (starts_with (lit "http") s) eqn:Hs; [|discriminate].
  apply starts_with_length in Hs. cbn in Hs.
  assert (Hd : length (drop 4 s) + 4 = length s) by (rewrite length_drop; lia).
  destruct (drop 4 s) as [|c r] eqn:Hr.
  - cbn. discriminate.
  - destruct (c =? 115)%N.
    + destruct (url_tail r 5) as [j|] eqn:Ht.
      * intros [= <-]. apply url_tail_bounds in Ht. cbn [length] in Hd. lia.
      * intros H. apply url_tail_bounds in H. cbn [length] in *. lia.
    + intros H. apply url_tail_bounds in H. cbn [length] in *. lia.
Qed.

Lemma sentence_end_pattern_bounds (prev : option N) (s : str) (n : nat) :
  sentence_end_pattern prev s = Some n -> 1 <= n <= length s.
Proof.
  unfold sentence_end_pattern.
  pose proof (span_le_length (one_of ".!?") s).
  destruct (span (one_of ".!?") s) as [|j]; [discriminate|].
  intros [= <-]. lia.
Qed.

Lemma word_count_go_bound (s : str) (in_word : bool) :
  2 * word_count_go in_word s + (if in_word then 1 else 0) <= length s + 1.
Proof.
  revert in_word. induction s as [|c t IH]; intros in_word.
  - destruct in_word; cbn; lia.
  - cbn [word_count_go length]. destruct (isspace c).
    + specialize (IH false). cbn in IH. destruct in_word; lia.
    + specialize (IH true). cbn in IH. destruct in_word; lia.
Qed.

(** X4.  The counts of [get_text_stats] against the length of the text: a word
    needs a separator, a hashtag or a mention two characters, a URL eight;
    and even the empty text counts one sentence. *)
Theorem get_text_stats_counts_bounded (L : libs) (text : str) :
  let stats := get_text_stats L text in
  character_count stats = length text
  /\ 2 * word_count_ stats <= length text + 1
  /\ 1 <= sentence_count stats <= length text + 1
  /\ 2 * hashtag_count stats <= length text
  /\ 2 * mention_count stats <= length text
  /\ 8 * url_count stats <= length text.
Proof.
  cbn. split; [reflexivity|]. split; [|split; [split|split; [|split]]].
  - pose proof (word_count_go_bound text false) as H. cbn [Nat.add] in H.
    unfold word_count. lia.
  - lia.
  - pose proof (re_count_bound sentence_end_pattern 1 text sentence_end_pattern_bounds). lia.
  - apply (re_count_bound _ 2), sigil_pattern_bounds.
  - apply (re_count_bound _ 2), sigil_pattern_bounds.
  - apply (re_count_bound _ 8), url_pattern_bounds.
Qed.

End TextCleanerShape.

(** * Properties of the keyword-based toxicity analysis *)

Module PyStrFacts.
Import TextCleaner TextCleanerSpec TextCleanerFacts PyStr PyStrSpec.

Lemma starts_with_app (p s y : str) :
  starts_with p s = true -> starts_with p (s ++ y) = true.
Proof.
  revert s. induction p as [|a p IH]; intros [|c s] H; cbn in *; try reflexivity;
    try discriminate.
  apply andb_true_iff in H as [-> H]. cbn. apply IH, H.
Qed.

Lemma contains_nil (needle : str) : contains needle [] = starts_with needle [].
Proof. cbn. apply orb_false_r. Qed.

Lemma contains_cons (needle : str) (c : N) (t : str) :
  contains needle (c :: t) = starts_with needle (c :: t) || contains needle t.
Proof. reflexivity. Qed.

Lemma contains_app_r (needle a y : str) :
  contains needle a = true -> contains needle (a ++ y) = true.
Proof.
  induction a as [|c a IH]; intros H.
  - rewrite contains_nil in H. destruct needle; [|discriminate].
    destruct y; reflexivity.
  - rewrite contains_cons in H. cbn [app]. rewrite contains_cons.
    apply orb_true_iff in H as [H|H]; apply orb_true_iff.
    + left. apply (starts_with_app needle (c :: a) y H).
    + right. apply IH, H.
Qed.

Lemma contains_app_l (needle x a : str) :
  contains needle a = true -> contains needle (x ++ a) = true.
Proof.
  intros H. induction x as [|c x IH]; [exact H|].
  cbn [app]. rewrite contains_cons, IH. apply orb_true_r.
Qed.

Lemma contains_forall (P : N -> Prop) (needle hay : str) :
  contains needle hay = true -> Forall P hay -> Forall P needle.
Proof.
  induction hay as [|c t IH]; intros H Hhay.
  - rewrite contains_nil in H. eapply starts_with_forall; eassumption.
  - rewrite contains_cons in H. apply orb_true_iff in H as [H|H].
    + eapply starts_with_forall; eassumption.
    + apply IH; [exact H|]. inversion Hhay; assumption.
Qed.

Lemma starts_with_take (p s : str) (k : nat) :
  starts_with p (take k s) = true -> starts_with p s = true.
Proof.
  revert s k. induction p as [|a p IH]; intros s k H; [destruct s; reflexivity|].
  destruct s as [|c s]; [destruct k; discriminate|].
  destruct k as [|k]; [discriminate|]. cbn in *.
  apply andb_true_iff in H as [-> H]. cbn. eapply IH, H.
Qed.

Lemma contains_take (needle s : str) (k : nat) :
  contains needle (take k s) = true -> contains needle s = true.
Proof.
  revert k. induction s as [|c t IH]; intros k H.
  - rewrite take_nil in H. exact H.
  - destruct k as [|k].
    + cbn [take] in H. rewrite contains_nil in H. rewrite contains_cons.
      destruct needle; [reflexivity|discriminate].
    + cbn [take] in H. rewrite contains_cons in *.
      apply orb_true_iff in H as [H|H]; apply orb_true_iff.
      * left. apply (starts_with_take needle (c :: t) (S k)), H.
      * right. eapply IH, H.
Qed.

(** A text of lower-case ASCII letters and other ASCII characters is its own
    lower-case form. *)
Lemma lower_go_lowercase (U : casing) (s before : str) :
  Forall (fun c => is_ascii c = true /\ is_ascii_upper c = false) s ->
  lower_go U before s = s.
Proof.
  revert before. induction s as [|c t IH]; intros before H; [reflexivity|].
  inversion H as [|? ? [Ha Hu] Ht]; subst. cbn [lower_go].
  rewrite Ha. unfold ascii_lower. rewrite Hu. cbn [app]. f_equal. apply IH, Ht.
Qed.

Lemma starts_with_has_pair (a b : N) (p s : str) :
  starts_with p s = true -> has_pair a b p = true -> has_pair a b s = true.
Proof.
  revert s. induction p as [|x p IH]; intros s Hp Hpair; [discriminate|].
  destruct s as [|c s]; [discriminate|]. cbn [starts_with] in Hp.
  apply andb_true_iff in Hp as [Hxc Hp]. apply N.eqb_eq in Hxc. subst c.
  cbn [has_pair] in *. apply orb_true_iff in Hpair as [H|H]; apply orb_true_iff.
  - left. apply andb_true_iff in H as [-> H]. cbn.
    destruct p as [|y p]; [discriminate|].
    destruct s as [|d s]; [discriminate|]. cbn in Hp.
    apply andb_true_iff in Hp as [Hyd _]. apply N.eqb_eq in Hyd. subst d. exact H.
  - right. apply IH; assumption.
Qed.

Lemma contains_has_pair (a b : N) (needle hay : str) :
  contains needle hay = true -> has_pair a b needle = true -> has_pair a b hay = true.
Proof.
  intros H Hpair. induction hay as [|c t IH].
  - rewrite contains_nil in H. eapply starts_with_has_pair; eassumption.
  - rewrite contains_cons in H. apply orb_true_iff in H as [H|H].
    + eapply starts_with_has_pair; eassumption.
    + cbn [has_pair]. rewrite (IH H). apply orb_true_r.
Qed.

Lemma has_pair_app_space (a b : N) (x y : str) :
  a <> 32%N -> b <> 32%N ->
  has_pair a b x = false -> has_pair a b y = false ->
  has_pair a b (x ++ 32%N :: y) = false.
Proof.
  intros Ha Hb Hx Hy. induction x as [|c x IH].
  - cbn [app has_pair]. rewrite Hy, orb_false_r.
    destruct (N.eqb_spec 32 a) as [E|_]; [congruence|]. reflexivity.
  - cbn [has_pair app] in *. apply orb_false_iff in Hx as [Hc Hx].
    rewrite (IH Hx), orb_false_r.
    destruct x as [|d x]; cbn [app].
    + destruct (N.eqb_spec 32 b) as [E|_]; [congruence|]. apply andb_false_r.
    + exact Hc.
Qed.

End PyStrFacts.

Module ToxicityFilterFacts.
Import TextCleaner TextCleanerSpec TextCleanerFacts PyStr PyStrSpec PyStrFacts Services.
Import ToxicityFilter ToxicityFilterSpec.

Lemma filter_length_le {A} (P : A -> Prop) `{!forall x, Decision (P x)} (l : list A) :
  length (filter P l) <= length l.
Proof. apply length_filter. Qed.

(** The score of one to twenty-nine matched keywords. *)
Lemma keyword_score_facts (n : nat) :
  1 <= n <= 29 ->
  let s := float_min (int_to_float n * 0.2) 1.0 in
  PrimFloat.ltb 0 s = true /\ PrimFloat.leb 0 s = true /\ PrimFloat.leb s 1 = true.
Proof.
  intros Hn.
  do 30 (destruct n as [|n]; [try lia; vm_compute; auto|]).
  lia.
Qed.

(** The keyword analysis never ends in its handler: the record it builds
    always passes the validation of [ToxicityScore]. *)
Lemma _analyze_with_keywords_result (U : casing) (threshold : float) (loaded : bool)
    (text : str) :
  let self := filter_with threshold loaded in
  let matched := snd (check_blacklist self (lower U text)) in
  _analyze_with_keywords U self text =
    {| toxicity_score :=
         match matched with
         | _ :: _ => float_min (int_to_float (length matched) * 0.2) 1.0
         | [] => 0.0%float
         end;
       is_toxic := (0 <? length matched)%nat;
       categories := _categorize_keywords U matched;
       toxicity_confidence := match matched with _ :: _ => 0.7%float | [] => 1.0%float end |}.
Proof.
  intros self matched. unfold _analyze_with_keywords.
  unfold check_blacklist in *. cbn [snd] in matched. fold matched.
  assert (Hlen : length matched <= 29).
  { subst matched. etransitivity; [apply length_filter|]. reflexivity. }
  destruct matched as [|k ks] eqn:Hm.
  - reflexivity.
  - assert (Hn : 1 <= length (k :: ks) <= 29)
      by (split; [cbn [length]; lia | exact Hlen]).
    destruct (keyword_score_facts _ Hn) as (Hlt & Hle0 & Hle1).
    cbv zeta in Hlt, Hle0, Hle1.
    unfold new_ToxicityScore. cbv beta iota zeta.
    rewrite Hlt, Hle0, Hle1.
    replace (PrimFloat.leb 0 0.7 && PrimFloat.leb 0.7 1) with true by reflexivity.
    reflexivity.
Qed.

(** X5.  In the keyword analysis a text is toxic exactly when its lower-case form
    contains a blacklisted keyword as a substring; the threshold of the
    filter plays no part.  The score is positive exactly for toxic texts and
    never exceeds 1, and the confidence is 0.7 for toxic texts and 1.0 for
    the others. *)
Theorem keyword_analysis_verdict (U : casing) (threshold : float) (loaded : bool)
    (text : str) :
  let r := _analyze_with_keywords U (filter_with threshold loaded) text in
  (is_toxic r = true <->
     exists keyword, keyword ∈ _load_blacklist /\ contains keyword (lower U text) = true)
  /\ PrimFloat.ltb 0 (toxicity_score r) = is_toxic r
  /\ PrimFloat.leb (toxicity_score r) 1 = true
  /\ toxicity_confidence r = (if is_toxic r then 0.7 else 1.0)%float.
Proof.
  intros r. subst r. rewrite _analyze_with_keywords_result. cbv zeta.
  unfold check_blacklist. cbn [snd filter_with blacklist toxicity_score is_toxic
    toxicity_confidence].
  set (matched := filter _ _).
  assert (Hlen : length matched <= 29).
  { subst matched. etransitivity; [apply length_filter|]. reflexivity. }
  split; [|destruct matched as [|k ks] eqn:Hm].
  - split.
    + intros H. apply Nat.ltb_lt in H.
      destruct matched as [|k ks] eqn:Hm; [cbn in H; lia|].
      exists k. apply and_comm.
      apply (list_elem_of_filter (fun keyword => contains keyword (lower U text) = true)).
      fold matched. rewrite Hm. left.
    + intros (k & Hk & Hc). apply Nat.ltb_lt.
      assert (Hin : k ∈ matched) by (apply list_elem_of_filter; split; assumption).
      destruct matched; [inversion Hin|cbn; lia].
  - repeat split; reflexivity.
  - assert (Hn : 1 <= length (k :: ks) <= 29)
      by (split; [cbn [length]; lia | exact Hlen]).
    destruct (keyword_score_facts _ Hn) as (Hlt & Hle0 & Hle1).
    cbv zeta in Hlt, Hle0, Hle1.
    rewrite Hlt, Hle1. repeat split; reflexivity.
Qed.

(** **** The threat category *)

Lemma blacklist_tame : Forall tame _load_blacklist.
Proof.
  apply Forall_forall. intros w Hw.
  assert (H : forallb (fun w => forallb blacklist_char w && negb (has_pair 104 114 w))
                      _load_blacklist = true) by (vm_compute; reflexivity).
  rewrite forallb_forall in H. specialize (H w).
  rewrite <- list_elem_of_In in H. specialize (H Hw).
  apply andb_true_iff in H as [Hc Hp]. split.
  - apply Forall_forall. intros c Hc'. rewrite forallb_forall in Hc.
    apply Hc. apply list_elem_of_In, Hc'.
  - apply negb_true_iff, Hp.
Qed.

Lemma join_tame (words : list str) :
  Forall tame words -> tame (TopicCluster.join (lit " ") words).
Proof.
  induction words as [|w rest IH]; intros H.
  - split; [constructor|reflexivity].
  - inversion H as [|? ? [Hw Hp] Hrest]; subst.
    destruct rest as [|w' rest']; [split; assumption|].
    specialize (IH Hrest). destruct IH as [IHc IHp].
    change (TopicCluster.join (lit " ") (w :: w' :: rest'))
      with (w ++ 32%N :: TopicCluster.join (lit " ") (w' :: rest')).
    split.
    + apply Forall_app. split; [exact Hw|]. constructor; [reflexivity|exact IHc].
    + apply has_pair_app_space; [discriminate|discriminate|assumption|assumption].
Qed.

Lemma blacklist_char_lowercase (s : str) :
  Forall (fun c => blacklist_char c = true) s ->
  Forall (fun c => is_ascii c = true /\ is_ascii_upper c = false) s.
Proof.
  intros Hs. eapply Forall_impl; [exact Hs|]. clear Hs.
  intros c. unfold blacklist_char, is_ascii_lower, is_ascii_upper,
    is_ascii, in_range. intros H. split.
  - apply N.ltb_lt. apply orb_true_iff in H as [H|H].
    + apply andb_true_iff in H as [H _]. apply andb_true_iff in H as [_ H].
      apply N.leb_le in H. lia.
    + apply N.eqb_eq in H. lia.
  - apply andb_false_iff. apply orb_true_iff in H as [H|H].
    + apply andb_true_iff in H as [H _]. apply andb_true_iff in H as [H _].
      apply N.leb_le in H. right. apply N.leb_gt. lia.
    + apply N.eqb_eq in H. left. apply N.leb_gt. lia.
Qed.

(** None of the three threat phrases can occur in the text that
    [_categorize_keywords] searches. *)
Lemma threat_words_absent (text : str) :
  tame text -> count_if (fun word => contains word text) threat_words = 0.
Proof.
  intros [Hc Hp].
  assert (H1 : contains (lit "kill you") text = false).
  { destruct (contains (lit "kill you") text) eqn:E; [|reflexivity].
    pose proof (contains_forall _ _ _ E Hc) as Hn.
    rewrite Forall_forall in Hn. specialize (Hn 121%N).
    assert (blacklist_char 121 = true) as Habs; [|discriminate Habs].
    apply Hn. vm_compute. repeat constructor. }
  assert (H2 : contains (lit "harm you") text = false).
  { destruct (contains (lit "harm you") text) eqn:E; [|reflexivity].
    pose proof (contains_forall _ _ _ E Hc) as Hn.
    rewrite Forall_forall in Hn. specialize (Hn 121%N).
    assert (blacklist_char 121 = true) as Habs; [|discriminate Habs].
    apply Hn. vm_compute. repeat constructor. }
  assert (H3 : contains (lit "threaten") text = false).
  { destruct (contains (lit "threaten") text) eqn:E; [|reflexivity].
    pose proof (contains_has_pair 104 114 _ _ E eq_refl) as Hn. congruence. }
  unfold count_if, threat_words. cbn [map].
  rewrite !filter_cons, filter_nil.
  rewrite !decide_False by (rewrite ?H1, ?H2, ?H3; discriminate).
  reflexivity.
Qed.

(** X6.  The keyword analysis reports five categories, and the category [threat]
    is 0.0 for every text: a matched keyword is a blacklist entry, and the
    three threat phrases ("kill you", "harm you", "threaten") occur in no
    text made of blacklist entries joined by spaces. *)
Theorem keyword_analysis_never_reports_threat (U : casing) (threshold : float)
    (loaded : bool) (text : str) :
  let r := _analyze_with_keywords U (filter_with threshold loaded) text in
  dom (categories r)
    = ({[ "violence"; "hate_speech"; "profanity"; "sexual_content"; "threat" ]}
       : gset string)%string
  /\ categories r !! "threat"%string = Some 0%float.
Proof.
  intros r. subst r. rewrite _analyze_with_keywords_result. cbv zeta.
  cbn [categories]. unfold check_blacklist. cbn [snd filter_with blacklist].
  set (matched := filter _ _).
  unfold _categorize_keywords.
  set (text' := lower U _).
  split.
  - cbn [list_to_map foldr]. cbn [fst snd]. rewrite !dom_insert_L, dom_empty_L.
    set_solver.
  - cbn [list_to_map foldr]. cbn [fst snd].
    rewrite !lookup_insert_ne by discriminate. rewrite lookup_insert.
    f_equal. unfold category_score.
    assert (Htame : tame text').
    { subst text'. assert (Hj : tame (TopicCluster.join (lit " ") matched)).
      { apply join_tame. subst matched. apply Forall_forall. intros w Hw.
        apply list_elem_of_filter in Hw as [_ Hw].
        pose proof blacklist_tame as Hb. rewrite Forall_forall in Hb. apply Hb, Hw. }
      unfold lower. rewrite lower_go_lowercase; [exact Hj|].
      apply blacklist_char_lowercase, Hj. }
    rewrite (threat_words_absent text' Htame). reflexivity.
Qed.

(** **** Substring matching *)

(** X7.  [check_blacklist] looks for substrings, so whatever it flags stays
    flagged inside any longer text, with at least the same keywords. *)
Theorem check_blacklist_flags_superstrings (self : instance) (before text after : str) :
  fst (check_blacklist self text) = true ->
  fst (check_blacklist self (before ++ text ++ after)) = true
  /\ snd (check_blacklist self text) ⊆ snd (check_blacklist self (before ++ text ++ after)).
Proof.
  unfold check_blacklist. cbn [fst snd]. intros H.
  assert (Hsub : filter (fun keyword => contains keyword text = true) (blacklist self)
                 ⊆ filter (fun keyword => contains keyword (before ++ text ++ after) = true)
                     (blacklist self)).
  { intros k Hk. apply list_elem_of_filter in Hk as [Hc Hk].
    apply list_elem_of_filter. split; [|exact Hk].
    apply contains_app_l, contains_app_r, Hc. }
  split; [|exact Hsub].
  apply Nat.ltb_lt in H. apply Nat.ltb_lt.
  destruct (filter _ (blacklist self)) as [|k ks] eqn:E in H; [cbn in H; lia|].
  assert (Hk : k ∈ filter (fun keyword => contains keyword text = true) (blacklist self))
    by (rewrite E; left).
  apply Hsub in Hk. destruct (filter _ _) in Hk |- *; [inversion Hk|cbn; lia].
Qed.

(** The word "skills" is flagged because it contains "kill". *)
Lemma check_blacklist_flags_superstrings_witness :
  fst (check_blacklist (filter_with 0.3 false) (lit "kill")) = true
  /\ fst (check_blacklist (filter_with 0.3 false) (lit "skills")) = true.
Proof.
  split; [reflexivity|].
  apply (check_blacklist_flags_superstrings (filter_with 0.3 false)
           (lit "s") (lit "kill") (lit "s")).
  reflexivity.
Defined.

(** **** The whitespace loop of [preprocess_text] *)

Lemma literal_ignores_prev (p : str) : ignores_prev (literal_pattern p).
Proof. intros a b s. reflexivity. Qed.

Lemma starts_with_double_space (c : N) (t : str) :
  starts_with (lit "  ") (c :: t) = (c =? 32)%N && next_is_space t.
Proof.
  change (lit "  ") with [32%N; 32%N]. unfold next_is_space.
  destruct t as [|d t]; cbn [starts_with head]; rewrite (N.eqb_sym 32 c).
  - reflexivity.
  - rewrite (N.eqb_sym 32 d), andb_true_r. reflexivity.
Qed.

Lemma replace_double_space_cons (c : N) (t : str) :
  replace (lit "  ") (lit " ") (c :: t) =
    if (c =? 32)%N && next_is_space t
    then 32%N :: replace (lit "  ") (lit " ") (drop 1 t)
    else c :: replace (lit "  ") (lit " ") t.
Proof.
  unfold replace. rewrite re_sub_cons by apply literal_ignores_prev.
  unfold literal_pattern. rewrite starts_with_double_space.
  destruct ((c =? 32)%N && next_is_space t); reflexivity.
Qed.

Lemma one_space_per_run_cons (c : N) (t : str) :
  one_space_per_run (c :: t) =
    if (c =? 32)%N && next_is_space t
    then one_space_per_run t
    else c :: one_space_per_run t.
Proof. destruct t; reflexivity. Qed.

Lemma head_replace_double_space (s : str) :
  head (replace (lit "  ") (lit " ") s) = head s.
Proof.
  destruct s as [|c t]; [reflexivity|]. rewrite replace_double_space_cons.
  destruct ((c =? 32)%N && next_is_space t) eqn:E; [|reflexivity].
  apply andb_true_iff in E as [E _]. apply N.eqb_eq in E. subst c. reflexivity.
Qed.

Lemma head_one_space_per_run (s : str) : head (one_space_per_run s) = head s.
Proof.
  induction s as [|c t IH]; [reflexivity|]. rewrite one_space_per_run_cons.
  destruct ((c =? 32)%N && next_is_space t) eqn:E; [|reflexivity].
  apply andb_true_iff in E as [Ec Et]. apply N.eqb_eq in Ec. subst c.
  rewrite IH. unfold next_is_space in Et. destruct (head t) as [d|]; [|discriminate].
  apply N.eqb_eq in Et. subst d. reflexivity.
Qed.

(** One round of the loop does not change what the runs collapse to. *)
Lemma one_space_per_run_replace (s : str) :
  one_space_per_run (replace (lit "  ") (lit " ") s) = one_space_per_run s.
Proof.
  induction s as [|c t IH] using str_drop_ind; [reflexivity|].
  rewrite replace_double_space_cons, (one_space_per_run_cons c t).
  destruct ((c =? 32)%N && next_is_space t) eqn:E.
  - apply andb_true_iff in E as [Ec Et]. apply N.eqb_eq in Ec. subst c.
    destruct t as [|d t']; [discriminate|].
    unfold next_is_space in Et. cbn [head] in Et. apply N.eqb_eq in Et. subst d.
    cbn [drop]. rewrite drop_0.
    rewrite (one_space_per_run_cons 32 (replace _ _ t')), (one_space_per_run_cons 32 t').
    unfold next_is_space. rewrite head_replace_double_space.
    specialize (IH 1). cbn [drop] in IH. rewrite drop_0 in IH. rewrite IH. reflexivity.
  - rewrite one_space_per_run_cons. unfold next_is_space in *.
    rewrite head_replace_double_space, E.
    specialize (IH 0). rewrite drop_0 in IH. rewrite IH. reflexivity.
Qed.

Lemma replace_double_space_length (s : str) :
  length (replace (lit "  ") (lit " ") s) <= length s.
Proof.
  induction s as [|c t IH] using str_drop_ind; [reflexivity|].
  rewrite replace_double_space_cons.
  destruct ((c =? 32)%N && next_is_space t).
  - specialize (IH 1). rewrite length_drop in IH. cbn [length]. lia.
  - specialize (IH 0). rewrite drop_0 in IH. cbn [length]. lia.
Qed.

(** Every round of the loop that is entered shortens the text. *)
Lemma replace_double_space_shorter (s : str) :
  contains (lit "  ") s = true ->
  length (replace (lit "  ") (lit " ") s) < length s.
Proof.
  induction s as [|c t IH]; [discriminate|].
  rewrite contains_cons, starts_with_double_space, replace_double_space_cons.
  destruct ((c =? 32)%N && next_is_space t) eqn:E.
  - intros _. apply andb_true_iff in E as [_ Et].
    destruct t as [|d t']; [discriminate|]. cbn [drop length]. rewrite drop_0.
    pose proof (replace_double_space_length t'). lia.
  - cbn [orb]. intros H. apply IH in H. cbn [length]. lia.
Qed.

Lemma one_space_per_run_id (s : str) :
  contains (lit "  ") s = false -> one_space_per_run s = s.
Proof.
  induction s as [|c t IH]; [reflexivity|].
  rewrite contains_cons, starts_with_double_space, one_space_per_run_cons.
  intros H. apply orb_false_iff in H as [-> H]. rewrite (IH H). reflexivity.
Qed.

Lemma one_space_per_run_single (s : str) :
  contains (lit "  ") (one_space_per_run s) = false.
Proof.
  induction s as [|c t IH]; [reflexivity|].
  rewrite one_space_per_run_cons.
  destruct ((c =? 32)%N && next_is_space t) eqn:E; [exact IH|].
  rewrite contains_cons, starts_with_double_space, IH, orb_false_r.
  unfold next_is_space in *. rewrite head_one_space_per_run. exact E.
Qed.

(** The loop reaches its exit within [length text] rounds. *)
Lemma collapse_double_spaces_done (rounds : nat) (s : str) :
  length s <= rounds -> collapse_double_spaces rounds s = one_space_per_run s.
Proof.
  revert s. induction rounds as [|rounds IH]; intros s Hlen.
  - destruct s; [reflexivity|cbn in Hlen; lia].
  - cbn [collapse_double_spaces]. destruct (contains (lit "  ") s) eqn:E.
    + rewrite IH, one_space_per_run_replace; [reflexivity|].
      pose proof (replace_double_space_shorter s E). lia.
    + symmetry. apply one_space_per_run_id, E.
Qed.

(** X8.  [preprocess_text] (the same method in [SentimentAnalyzer] and
    [ToxicityFilter]): its loop terminates, and the result is the stripped
    text with every run of spaces replaced by one space, cut to 512
    characters; it contains no two spaces in a row. *)
Theorem preprocess_text_collapses_spaces (text : str) :
  preprocess_text text = take 512 (one_space_per_run (strip text))
  /\ contains (lit "  ") (preprocess_text text) = false
  /\ length (preprocess_text text) <= 512.
Proof.
  assert (H : preprocess_text text = take 512 (one_space_per_run (strip text))).
  { destruct text as [|c t]; [reflexivity|]. unfold preprocess_text.
    rewrite collapse_double_spaces_done by reflexivity. reflexivity. }
  rewrite H. split; [reflexivity|]. split.
  - destruct (contains (lit "  ") (take 512 (one_space_per_run (strip text)))) eqn:E;
      [|reflexivity].
    apply contains_take in E. rewrite one_space_per_run_single in E. discriminate.
  - rewrite length_take. lia.
Qed.

End ToxicityFilterFacts.

(** * Properties of the language detector *)

Module LanguageDetectorFacts.
Import TextCleaner TextCleanerSpec TextCleanerFacts PyStr PyStrSpec PyStrFacts.
Import ToxicityFilterSpec ToxicityFilterFacts LanguageDetector LanguageDetectorSpec.

Lemma dict_has_keys {V} (d : dict V) (key : str) :
  dict_has d key = true <-> key ∈ keys d.
Proof.
  unfold dict_has, keys. induction d as [|[k v] rest IH]; cbn [dict_lookup map fst].
  - split; [discriminate|]. intros H. inversion H.
  - case_bool_decide as Hk.
    + subst k. split; [intros _; left|reflexivity].
    + rewrite IH. split; [intros H; right; exact H|].
      intros H. inversion H; subst; [contradiction|assumption].
Qed.

Lemma fasttext_keys_are_sa_languages (model_type key : str) :
  key ∈ keys (fasttext_to_sa (new_instance model_type)) ->
  key ∈ keys (sa_languages (new_instance model_type)).
Proof.
  intros H.
  assert (Hall : Forall (fun k => k ∈ keys (sa_languages (new_instance model_type)))
                        (keys (fasttext_to_sa (new_instance model_type)))).
  { repeat constructor; apply bool_decide_unpack; vm_compute; reflexivity. }
  rewrite Forall_forall in Hall. apply Hall, H.
Qed.

(** X9.  [_map_to_sa_language] returns its argument unchanged, whatever the
    model type: every key of the fallback table [fasttext_to_sa] is already
    a key of [sa_languages], so the fallback mappings (isiNdebele to
    isiZulu, Setswana to Afrikaans, ...) are never applied. *)
Theorem _map_to_sa_language_is_identity (model_type : str) (has_model loaded : bool)
    (cache : gmap string ((str * float) * float)) (ttl : float) (language : str) :
  _map_to_sa_language (detector_with model_type has_model loaded cache ttl) language
  = language.
Proof.
  unfold _map_to_sa_language.
  cbn [detector_with LanguageDetector.sa_languages LanguageDetector.fasttext_to_sa
       LanguageDetector.model_type].
  destruct (dict_has _ language) eqn:Hsa; [reflexivity|].
  destruct (bool_decide _); [|reflexivity]. cbn [andb].
  destruct (dict_has (LanguageDetector.fasttext_to_sa _) language) eqn:Hft; [|reflexivity].
  apply dict_has_keys, fasttext_keys_are_sa_languages, dict_has_keys in Hft.
  congruence.
Qed.

(** **** The text handed to the detection libraries *)

Lemma not_letter_removed (s : str) :
  Forall (fun c => is_ascii_alpha c || isspace c = true)
         (re_sub not_letter_pattern delete s).
Proof.
  unfold re_sub. generalize 0 (@None N).
  induction s as [|c t IH]; intros k prev; [constructor|].
  cbn [re_sub_go]. destruct k as [|k]; [|apply IH].
  cbn [not_letter_pattern]. destruct (is_ascii_alpha c || isspace c) eqn:Hc.
  - constructor; [exact Hc | apply IH].
  - cbn [delete app]. apply IH.
Qed.

Lemma split_go_letter_words (s word : str) :
  Forall (fun c => is_ascii_alpha c || isspace c = true) s ->
  Forall (fun c => is_ascii_alpha c = true) word ->
  Forall letter_word (split_go word s).
Proof.
  revert word. induction s as [|c t IH]; intros word Hs Hword.
  - cbn [split_go]. destruct word as [|a w]; [constructor|].
    constructor; [split; [discriminate|assumption]|constructor].
  - inversion Hs as [|? ? Hc Ht]; subst. cbn [split_go].
    destruct (isspace c) eqn:Hsp.
    + destruct word as [|a w].
      * apply IH; [exact Ht|constructor].
      * constructor; [split; [discriminate|assumption]|].
        apply IH; [exact Ht|constructor].
    + apply IH; [exact Ht|]. apply Forall_app. split; [exact Hword|].
      constructor; [|constructor]. rewrite orb_false_r in Hc. exact Hc.
Qed.

Lemma letter_not_space (c : N) : is_ascii_alpha c = true -> (c =? 32)%N = false.
Proof.
  unfold is_ascii_alpha, is_ascii_lower, is_ascii_upper, in_range. intros H.
  apply N.eqb_neq. intros ->. discriminate H.
Qed.

Lemma letters_no_pair (w : str) :
  Forall (fun c => is_ascii_alpha c = true) w -> has_pair 32 32 w = false.
Proof.
  induction 1 as [|c w Hc Hw IH]; [reflexivity|].
  cbn [has_pair]. rewrite (letter_not_space c Hc), IH. reflexivity.
Qed.

Lemma letters_then_space (w y : str) :
  Forall (fun c => is_ascii_alpha c = true) w ->
  has_pair 32 32 y = false -> next_is_space y = false ->
  has_pair 32 32 (w ++ 32%N :: y) = false.
Proof.
  intros Hw Hy Hn. induction Hw as [|c w Hc Hw IH].
  - cbn [app has_pair]. rewrite Hy, orb_false_r.
    unfold next_is_space in Hn. destruct y as [|d y]; [reflexivity|].
    cbn [head] in Hn. rewrite Hn. reflexivity.
  - cbn [app has_pair]. rewrite (letter_not_space c Hc), IH. reflexivity.
Qed.

Lemma join_letter_words (words : list str) :
  Forall letter_word words -> letters_spaced (TopicCluster.join (lit " ") words).
Proof.
  induction words as [|w rest IH]; intros H.
  - repeat split; constructor.
  - inversion H as [|? ? [Hne Hw] Hrest]; subst.
    assert (Hls : Forall (fun c => letter_or_space c = true) w).
    { eapply Forall_impl; [exact Hw|]. intros c Hc. unfold letter_or_space.
      rewrite Hc. reflexivity. }
    assert (Hhead : forall y, next_is_space (w ++ y) = false).
    { intros y. destruct w as [|c w]; [contradiction|].
      inversion Hw; subst. unfold next_is_space. cbn [app head].
      apply letter_not_space. assumption. }
    destruct rest as [|w' rest'].
    + cbn [TopicCluster.join]. split; [exact Hls|]. split; [apply letters_no_pair, Hw|].
      specialize (Hhead []). rewrite app_nil_r in Hhead. exact Hhead.
    + specialize (IH Hrest). destruct IH as (IHc & IHp & IHn).
      change (TopicCluster.join (lit " ") (w :: w' :: rest'))
        with (w ++ 32%N :: TopicCluster.join (lit " ") (w' :: rest')).
      split; [|split].
      * apply Forall_app. split; [exact Hls|]. constructor; [reflexivity|exact IHc].
      * apply letters_then_space; assumption.
      * apply Hhead.
Qed.

Lemma has_pair_take (a b : N) (s : str) (k : nat) :
  has_pair a b s = false -> has_pair a b (take k s) = false.
Proof.
  revert k. induction s as [|c t IH]; intros k H; [rewrite take_nil; reflexivity|].
  destruct k as [|k]; [reflexivity|]. cbn [take has_pair] in *.
  apply orb_false_iff in H as [Hc Ht]. rewrite (IH k Ht), orb_false_r.
  destruct (c =? a)%N; [|reflexivity]. cbn [andb] in *.
  destruct t as [|d t]; [destruct k; reflexivity|].
  destruct k as [|k]; [reflexivity|]. exact Hc.
Qed.

Lemma contains_double_space (s : str) : contains (lit "  ") s = has_pair 32 32 s.
Proof.
  induction s as [|c t IH]; [reflexivity|].
  rewrite contains_cons, starts_with_double_space, IH. cbn [has_pair].
  unfold next_is_space. destruct t; reflexivity.
Qed.

(** X10.  [_preprocess_for_detection] returns at most 1000 characters, all of
    them ASCII letters or spaces; the text does not start with a space and
    contains no two spaces in a row. *)
Theorem _preprocess_for_detection_letters_only (E : environment) (text : str) :
  let processed := _preprocess_for_detection E text in
  Forall (fun c => letter_or_space c = true) processed
  /\ contains (lit "  ") processed = false
  /\ head processed <> Some 32%N
  /\ length processed <= 1000.
Proof.
  intros processed. subst processed.
  destruct text as [|c0 t0]; [repeat split; [constructor|discriminate|cbn; lia]|].
  unfold _preprocess_for_detection.
  set (t4 := re_sub not_letter_pattern delete _).
  assert (H4 : Forall (fun c => is_ascii_alpha c || isspace c = true) t4)
    by apply not_letter_removed.
  pose proof (join_letter_words (split t4)
                (split_go_letter_words t4 [] H4 (Forall_nil_2 _))) as (Hc & Hp & Hn).
  set (joined := TopicCluster.join (lit " ") (split t4)) in *.
  split; [apply Forall_take, Hc|]. split; [|split].
  - rewrite contains_double_space. apply has_pair_take, Hp.
  - unfold next_is_space in Hn. intros Hhead.
    destruct joined as [|d j]; [rewrite take_nil in Hhead; discriminate|].
    cbn [take head] in *. injection Hhead as ->. discriminate Hn.
  - rewrite length_take. lia.
Qed.

(** **** A detector whose models are not loaded *)

Lemma detect_not_loaded (E : environment) (self : instance) (text : str)
    (min_confidence : float) :
  is_model_loaded self = false ->
  detect E self text min_confidence = Ok (unknown, self).
Proof. intros H. unfold detect. rewrite H, orb_true_r. reflexivity. Qed.

End LanguageDetectorFacts.

(** * The ingestion pipeline behind a detector that is not loaded *)

Module PipelineFacts.
Import Services TopicCluster IngestRouter IngestRouterSpec PipelineSpec.
Import LanguageDetectorFacts.

Lemma is_supported_language_not_loaded (E : LanguageDetector.environment)
    (ld : LanguageDetector.instance) (text : str) :
  LanguageDetector.is_model_loaded ld = false ->
  LanguageDetector.is_supported_language E ld text 0.7 = Ok (false, ld).
Proof.
  intros H. unfold LanguageDetector.is_supported_language.
  rewrite (detect_not_loaded E ld text 0.7 H).
  cbn [mbind result_bind bind LanguageDetector.unknown].
  replace (PrimFloat.leb 0.7 0) with false by reflexivity.
  rewrite andb_false_r. reflexivity.
Qed.

Lemma process_single_post_not_loaded (S : services) (E : LanguageDetector.environment)
    (ld : LanguageDetector.instance) (p : post) :
  LanguageDetector.is_model_loaded ld = false -> served_by S E ld ->
  process_single_post S p = None.
Proof.
  intros Hld [Hd Hs]. unfold process_single_post.
  destruct (truthy (post_text p)); [|reflexivity]. cbn [negb].
  destruct (post_text p) as [| | | |text_]; try reflexivity.
  rewrite Hd, Hs, (detect_not_loaded E ld _ _ Hld),
    (is_supported_language_not_loaded E ld _ Hld).
  reflexivity.
Qed.

(** X11.  While the language detector of the ingestion router has not loaded its
    models, [process_single_post] filters out every post, so a batch run
    issues no statement and leaves the database as it is. *)
Theorem unloaded_detector_filters_every_post (S : services) (C : TopicCluster.libs)
    (create_topic_row : topic -> creation) (self : instance)
    (E : LanguageDetector.environment) (ld : LanguageDetector.instance)
    (batch : list post) (db : database) :
  LanguageDetector.is_model_loaded ld = false ->
  served_by S E ld ->
  (forall p, process_single_post S p = None)
  /\ run_statements S C create_topic_row self batch = []
  /\ process_and_cluster_posts_background S C create_topic_row self db batch = db.
Proof.
  intros Hld HS.
  assert (Hp : forall p, process_single_post S p = None)
    by (intros p; eapply process_single_post_not_loaded; eassumption).
  assert (Hnone : processed_posts_of S batch = []).
  { unfold processed_posts_of. clear db.
    induction batch as [|p rest IH]; [reflexivity|].
    cbn [omap list_omap]. rewrite Hp. exact IH. }
  split; [exact Hp|].
  unfold run_statements, process_and_cluster_posts_background.
  rewrite Hnone. split; reflexivity.
Qed.

(** The four events of the ingestion examples, offered to a router whose
    other classifiers would accept them. *)
Lemma unloaded_detector_filters_every_post_witness :
  LanguageDetector.is_model_loaded (LanguageDetector.new_instance (lit "fasttext")) = false
  /\ process_and_cluster_posts_background services_at_import Doubles.outage_libs
       (fun _ => Created "t1"%string) TopicClusterSpec.loaded_instance fresh_database
       four_events
     = fresh_database.
Proof.
  split; [reflexivity|].
  apply (unloaded_detector_filters_every_post services_at_import Doubles.outage_libs
           (fun _ => Created "t1"%string) TopicClusterSpec.loaded_instance
           answering_environment
           (LanguageDetector.new_instance (lit "fasttext")) four_events fresh_database).
  - reflexivity.
  - split; intros; reflexivity.
Defined.

End PipelineFacts.

(** * Properties of the geo-classifier *)

Module GeoClassifierFacts.
Import TextCleaner PyStr PyStrSpec PyStrFacts LanguageDetector LanguageDetectorSpec.
Import LanguageDetectorFacts GeoClassifier GeoClassifierSpec.

(** X12.  Only Tshivenda is tied to a single region: [classify_by_language]
    returns the region LP for the language code [ve] and no region for any
    other argument. *)
Theorem classify_by_language_only_venda (language text : str) :
  (classify_by_language language text).1
  = if bool_decide (language = lit "ve") then Some (lit "LP") else None.
Proof.
  unfold classify_by_language, language_regions. cbn [dict_lookup].
  repeat (case_bool_decide; [subst language; vm_compute; reflexivity|]).
  rewrite bool_decide_false by (intros ->; congruence). reflexivity.
Qed.

(** **** Checking a finite table *)

Lemma forallb_seq_lt (f : nat -> bool) (n i : nat) :
  forallb f (seq 0 n) = true -> i < n -> f i = true.
Proof. intros H Hi. rewrite forallb_forall in H. apply H, in_seq. lia. Qed.

Lemma forallb_elem {A} (f : A -> bool) (l : list A) (x : A) :
  forallb f l = true -> x ∈ l -> f x = true.
Proof. intros H Hx. rewrite forallb_forall in H. apply H, list_elem_of_In, Hx. Qed.

(** **** Province names and codes *)

Lemma inverted_keys_are_codes (code : str) :
  code ∈ keys (dict_invert sa_provinces) -> code ∈ dict_values sa_provinces.
Proof.
  intros H.
  assert (Hall : Forall (fun k => k ∈ dict_values sa_provinces)
                        (keys (dict_invert sa_provinces))).
  { vm_compute. repeat constructor; apply bool_decide_unpack; vm_compute; reflexivity. }
  rewrite Forall_forall in Hall. apply Hall, H.
Qed.

(** X13.  [get_region_name] maps a province code to a name that maps back to the
    code, and returns any other argument unchanged.  In the other direction
    the round trip holds for every province name except [kwazulu-natal]:
    the code KZN is turned into the name [kzn]. *)
Theorem get_region_name_round_trip :
  (forall code, code ∈ dict_values sa_provinces ->
     dict_lookup sa_provinces (get_region_name code) = Some code)
  /\ (forall code, code ∉ dict_values sa_provinces -> get_region_name code = code)
  /\ (forall name code, dict_lookup sa_provinces name = Some code ->
        name <> lit "kwazulu-natal" -> get_region_name code = name)
  /\ get_region_name (lit "KZN") = lit "kzn".
Proof.
  split; [|split; [|split]].
  - intros code H.
    assert (Hall : forallb (fun code =>
                              bool_decide (dict_lookup sa_provinces (get_region_name code)
                                           = Some code))
                           (dict_values sa_provinces) = true) by (vm_compute; reflexivity).
    pose proof (forallb_elem _ _ _ Hall H) as Hcode. cbv beta in Hcode.
    apply bool_decide_eq_true in Hcode. exact Hcode.
  - intros code H. unfold get_region_name.
    destruct (dict_lookup (dict_invert sa_provinces) code) eqn:E; [|reflexivity].
    exfalso. apply H, inverted_keys_are_codes, dict_has_keys.
    unfold dict_has. rewrite E. reflexivity.
  - intros name code Hlookup Hname.
    assert (Hin : (name, code) ∈ sa_provinces).
    { clear - Hlookup. induction sa_provinces as [|[k v] rest IH]; [discriminate|].
      cbn [dict_lookup] in Hlookup. case_bool_decide as Hk.
      - injection Hlookup as ->. subst k. left.
      - right. apply IH, Hlookup. }
    assert (Hall : forallb (fun item : str * str =>
                              bool_decide (item.1 = lit "kwazulu-natal")
                              || bool_decide (get_region_name item.2 = item.1))
                           sa_provinces = true) by (vm_compute; reflexivity).
    pose proof (forallb_elem _ _ _ Hall Hin) as Hitem. cbn [fst snd] in Hitem.
    apply orb_true_iff in Hitem as [Hitem|Hitem]; apply bool_decide_eq_true in Hitem;
      [contradiction|exact Hitem].
  - vm_compute. reflexivity.
Qed.

(** **** The two regional weights *)

Lemma elem_of_literals (r : str) (l : list string) :
  bool_decide (r ∈ map lit l) = existsb (fun x => bool_decide (r = lit x)) l.
Proof.
  induction l as [|a l IH]; cbn [map existsb].
  - apply bool_decide_false. intros H. inversion H.
  - rewrite <- IH, <- bool_decide_or. apply bool_decide_ext, elem_of_cons.
Qed.

Lemma high_engagement_elem (r : str) :
  bool_decide (r ∈ map lit ["GP"; "WC"; "KZN"]%string) = high_engagement (Some r).
Proof. apply elem_of_literals. Qed.

Ltac float_differs H :=
  injection H as H; apply (f_equal Prim2SF) in H; vm_compute in H; discriminate H.

(** X14.  The regional weight of the geo-classifier and the regional weight of
    the virality scorer are equal exactly for the regions outside the
    high-engagement list.  For GP, WC and KZN the geo-classifier gives 1.0
    to content that is not South African and 1.3 * 1.1 to content that is,
    where the scorer gives 1.1 and 1.4. *)
Theorem regional_weights_agree_off_high_engagement (region : option str) (is_sa : bool) :
  ViralityScorer.calculate_regional_weight [region_value region; VBool is_sa]
    = Ok (VFloat (calculate_regional_weight region is_sa))
  <-> high_engagement region = false.
Proof.
  unfold ViralityScorer.calculate_regional_weight, calculate_regional_weight.
  cbn [truthy]. fold (high_engagement region).
  destruct region as [r|].
  - rewrite high_engagement_elem.
    destruct (high_engagement (Some r)), is_sa; split; intros H;
      try reflexivity; try discriminate H; try (vm_compute; reflexivity);
      exfalso; vm_compute in H; float_differs H.
  - replace (high_engagement None) with false by reflexivity.
    destruct is_sa; split; intros _; try reflexivity; vm_compute; reflexivity.
Qed.

(** **** The score behind [is_south_african] *)

Lemma is_south_african_by_counts (U : casing) (text : str) (author_location : option str) :
  is_south_african_ U text author_location None
  = (verdict (location_count U text) (pattern_count U text) (cultural_count U text)
       (author_count U author_location) (international_count U text),
     float_min
       (float_max 0
          (calculate_sa_score
             (indicator_counts (location_count U text) (pattern_count U text)
                (cultural_count U text) (author_count U author_location))
           - int_to_float (international_count U text) * 0.3))
       1.0).
Proof. reflexivity. Qed.

(** X15.  [is_south_african] names its indicators in the plural
    ([location_mentions], ...) and the table of weights names them in the
    singular ([location_mention], ...), so the weights 0.4, 0.3 and 0.2 are
    never found: every indicator weighs the default 0.1. *)
Theorem sa_score_weighs_every_indicator_alike (locations patterns references author : nat) :
  calculate_sa_score (indicator_counts locations patterns references author)
  = flat_score locations patterns references author.
Proof.
  unfold calculate_sa_score, indicator_counts, flat_score. cbn [foldl].
  replace (dict_lookup weights (lit "location_mentions")) with (@None float)
    by (vm_compute; reflexivity).
  replace (dict_lookup weights (lit "language_patterns")) with (@None float)
    by (vm_compute; reflexivity).
  replace (dict_lookup weights (lit "cultural_references")) with (@None float)
    by (vm_compute; reflexivity).
  replace (dict_lookup weights (lit "author_location")) with (Some 0.1%float)
    by (vm_compute; reflexivity).
  reflexivity.
Qed.

(** **** Indicators that always come together *)

Lemma reference_found (U : casing) (text term : str) :
  term ∈ sa_references -> contains term (lower U text) = true ->
  cultural_references (detect_sa_indicators U text) <> [].
Proof.
  intros Hin Hc Hnil. unfold detect_sa_indicators in Hnil. cbn [cultural_references] in Hnil.
  eapply (filter_nil_not_elem_of _ _ term Hnil); [exact Hc|exact Hin].
Qed.

(** The patterns reported for a text, by its cultural references. *)
Lemma language_patterns_follow_references_aux (U : casing) (text : str) :
  let found := detect_sa_indicators U text in
  (cultural_references found = [] /\ language_patterns found = [])
  \/ (cultural_references found <> []
      /\ (language_patterns found = [lit "slang"; lit "cultural"]
          \/ language_patterns found = [lit "slang"; lit "cultural"; lit "context"])).
Proof.
  intros found. subst found.
  destruct (cultural_references (detect_sa_indicators U text)) as [|ref refs] eqn:Hrefs.
  - left. split; [reflexivity|].
    unfold detect_sa_indicators in *. cbn [language_patterns cultural_references] in *.
    unfold detect_language_patterns, count_if. rewrite Hrefs. cbn [length Nat.ltb Nat.leb].
    cbn [map existsb].
    destruct (contains (lit "load shedding") (lower U text)) eqn:E1.
    { exfalso. eapply (filter_nil_not_elem_of _ _ _ Hrefs); [exact E1|].
      unfold sa_references. cbn [map].
      repeat first [apply list_elem_of_here | apply list_elem_of_further]. }
    destruct (contains (lit "eskom") (lower U text)) eqn:E2.
    { exfalso. eapply (filter_nil_not_elem_of _ _ _ Hrefs); [exact E2|].
      unfold sa_references. cbn [map].
      repeat first [apply list_elem_of_here | apply list_elem_of_further]. }
    reflexivity.
  - right. split; [discriminate|].
    unfold detect_sa_indicators in *. cbn [language_patterns cultural_references] in *.
    unfold detect_language_patterns, count_if. rewrite Hrefs. cbn [length Nat.ltb Nat.leb].
    destruct (existsb _ _); [right|left]; reflexivity.
Qed.


(** **** The decision of [is_south_african] *)

Lemma verdict_table : forallb verdict_agrees_for_locations (seq 0 52) = true.
Proof. vm_compute. reflexivity. Qed.

Lemma verdict_expected (locations patterns references author : nat) :
  locations <= 51 -> references <= 28 -> author <= 1 ->
  patterns ∈ pattern_counts_for references ->
  verdict locations patterns references author 0
  = expected_verdict locations references author.
Proof.
  intros H1 H3 H4 H2. apply Bool.eqb_prop.
  change (verdict_agrees locations references author patterns = true).
  apply (forallb_elem _ (pattern_counts_for references)); [|exact H2].
  change (verdict_agrees_for_author locations references author = true).
  apply (forallb_elem _ [0; 1]);
    [|destruct author as [|[|?]]; [left|right; left|lia]].
  change (verdict_agrees_for_references locations references = true).
  apply (forallb_seq_lt _ 29); [|lia].
  change (verdict_agrees_for_locations locations = true).
  apply (forallb_seq_lt _ 52); [|lia].
  exact verdict_table.
Qed.

Lemma location_count_bound (U : casing) (text : str) : location_count U text <= 51.
Proof.
  unfold location_count, extract_location_mentions, keys_in.
  rewrite !length_app, !length_map.
  pose proof (length_filter (fun key => contains key (lower U text) = true)
                (map fst sa_cities)) as H1.
  pose proof (length_filter (fun key => contains key (lower U text) = true)
                (map fst sa_provinces)) as H2.
  pose proof (length_filter (fun key => contains key (lower U text) = true)
                sa_landmarks) as H3.
  change (length (map fst sa_cities)) with 28 in H1.
  change (length (map fst sa_provinces)) with 10 in H2.
  change (length sa_landmarks) with 13 in H3.
  lia.
Qed.

Lemma cultural_count_bound (U : casing) (text : str) : cultural_count U text <= 28.
Proof.
  unfold cultural_count, detect_sa_indicators. cbn [cultural_references].
  etransitivity; [apply length_filter|]. reflexivity.
Qed.

Lemma author_count_bound (U : casing) (author_location : option str) :
  author_count U author_location <= 1.
Proof. unfold author_count. destruct (author_in_south_africa _ _); lia. Qed.

Lemma pattern_count_for_references (U : casing) (text : str) :
  pattern_count U text ∈ pattern_counts_for (cultural_count U text).
Proof.
  unfold pattern_count, cultural_count.
  destruct (language_patterns_follow_references_aux U text) as [[-> ->]|[Hne [-> | ->]]].
  - left.
  - destruct (cultural_references _); [contradiction|]. left.
  - destruct (cultural_references _); [contradiction|]. right. left.
Qed.

(** X17.  For a text that names no international location, [is_south_african]
    says yes exactly when the text holds a cultural reference, or when the
    location mentions and the author-location flag number at least three.
    One or two place names alone are not enough. *)
Theorem is_south_african_decision (U : casing) (text : str) (author_location : option str) :
  international_count U text = 0 ->
  (is_south_african_ U text author_location None).1 = true
  <-> cultural_references (detect_sa_indicators U text) <> []
      \/ 3 <= location_count U text + author_count U author_location.
Proof.
  intros Hint. rewrite is_south_african_by_counts. cbn [fst]. rewrite Hint.
  rewrite (verdict_expected _ _ _ _ (location_count_bound U text)
             (cultural_count_bound U text) (author_count_bound U author_location)
             (pattern_count_for_references U text)).
  unfold expected_verdict. rewrite orb_true_iff, Nat.ltb_lt, Nat.leb_le.
  unfold cultural_count.
  destruct (cultural_references (detect_sa_indicators U text)); cbn [length].
  - split; intros [H|H]; try lia; try contradiction; right; exact H.
  - split; intros _; left; [discriminate|lia].
Qed.

(** A text with two cultural references and no place name. *)
Lemma is_south_african_decision_witness :
  international_count plain_casing (lit "lekker braai") = 0
  /\ (is_south_african_ plain_casing (lit "lekker braai") None None).1 = true.
Proof.
  split; [reflexivity|].
  apply (is_south_african_decision plain_casing (lit "lekker braai") None); [reflexivity|].
  left. vm_compute. discriminate.
Defined.

(** X16.  [detect_language_patterns] counts the same list twice, as slang and as
    cultural references, and its context terms are on that list too: the
    language patterns are none when the text holds no cultural reference,
    and [slang] and [cultural], with or without [context], when it holds
    one. *)
Theorem language_patterns_follow_references (U : casing) (text : str) :
  let found := detect_sa_indicators U text in
  (cultural_references found = [] /\ language_patterns found = [])
  \/ (cultural_references found <> []
      /\ (language_patterns found = [lit "slang"; lit "cultural"]
          \/ language_patterns found = [lit "slang"; lit "cultural"; lit "context"])).
Proof. exact (language_patterns_follow_references_aux U text). Qed.

End GeoClassifierFacts.

(** * Further properties of the flag updates *)

Module StatementFacts.
Import Services TopicCluster IngestRouter IngestRouterSpec IngestRouterFacts StatementSpec.

Lemma mark_linked_consumed (t : string) (row : ingest_event) :
  processed (mark_linked t row) = true.
Proof. unfold mark_linked. destruct (processed row) eqn:E; [exact E|reflexivity]. Qed.

Lemma mark_processed_consumed (row : ingest_event) : processed (mark_processed row) = true.
Proof. unfold mark_processed. destruct (processed row) eqn:E; [exact E|reflexivity]. Qed.

Lemma mark_linked_spent (t : string) (row : ingest_event) :
  processed row = true -> mark_linked t row = row.
Proof. unfold mark_linked. intros ->. reflexivity. Qed.

Lemma mark_processed_spent (row : ingest_event) :
  processed row = true -> mark_processed row = row.
Proof. unfold mark_processed. intros ->. reflexivity. Qed.

(** What an accepted statement does to one row. *)
Lemma lookup_updated (stmt : statement) (db : table) (i : string) :
  updated stmt db !! i
  = if bool_decide (i ∈ targets stmt)
    then match stmt with
         | UpdateLinked _ t => mark_linked t <$> db !! i
         | UpdateProcessed _ => mark_processed <$> db !! i
         end
    else db !! i.
Proof.
  destruct stmt as [j t|ids]; cbn [updated targets].
  - case_bool_decide as H.
    + apply list_elem_of_singleton in H. subst j. apply lookup_alter_eq.
    + apply lookup_alter_ne. intros ->. apply H. left.
  - apply lookup_mark_all.
Qed.

Lemma updated_spent (stmt : statement) (db : table) :
  spent stmt db -> updated stmt db = db.
Proof.
  intros Hs. apply map_eq. intros i. rewrite lookup_updated.
  case_bool_decide as Hi; [|reflexivity].
  destruct (db !! i) as [row|] eqn:Hrow; [|destruct stmt; reflexivity].
  specialize (Hs i row Hi Hrow).
  destruct stmt; cbn; [rewrite mark_linked_spent|rewrite mark_processed_spent];
    auto.
Qed.

Lemma updated_spends (stmt : statement) (db : table) : spent stmt (updated stmt db).
Proof.
  intros i row Hi. rewrite lookup_updated, bool_decide_true by exact Hi.
  destruct stmt; destruct (db !! i) as [r|]; cbn; intros [= <-];
    [apply mark_linked_consumed|apply mark_processed_consumed].
Qed.

Lemma updated_keeps_spent (stmt other : statement) (db : table) :
  spent stmt db -> spent stmt (updated other db).
Proof.
  intros Hs i row Hi. rewrite lookup_updated.
  case_bool_decide as Ho; [|apply Hs, Hi].
  destruct (db !! i) as [r|] eqn:Hr; [|destruct other; discriminate].
  destruct other; cbn; intros [= <-];
    [apply mark_linked_consumed|apply mark_processed_consumed].
Qed.

(** What it takes for a statement to go through. *)
Lemma execute_Ok (stmt : statement) (db db' : database) :
  execute stmt db = Ok db' <->
  accepted stmt db = true
  /\ db' = {| ingest_events := updated stmt (ingest_events db);
              trend_topics := trend_topics db |}.
Proof.
  unfold execute. destruct (accepted stmt db); split.
  - intros [= <-]. split; reflexivity.
  - intros [_ ->]. reflexivity.
  - discriminate.
  - intros [[=] _].
Qed.

(** A statement whose rows are consumed is accepted whatever the topics. *)
Lemma accepted_spent (stmt : statement) (db db' : database) :
  accepted stmt db = true -> spent stmt (ingest_events db') -> accepted stmt db' = true.
Proof.
  destruct stmt as [i t|ids]; cbn [accepted]; [|auto].
  intros Hacc Hs. apply andb_true_iff in Hacc as [Huuid _]. rewrite Huuid. cbn [andb].
  destruct (ingest_events db' !! i) as [row|] eqn:Hrow; [|reflexivity].
  rewrite (Hs i row (list_elem_of_here i []) Hrow). reflexivity.
Qed.

Lemma execute_settled (stmt : statement) (db : database) :
  settled stmt db -> execute stmt db = Ok db.
Proof.
  intros [Hacc Hs]. apply execute_Ok. split; [exact Hacc|].
  rewrite (updated_spent stmt _ Hs). destruct db; reflexivity.
Qed.

Lemma execute_settles (stmt : statement) (db db' : database) :
  execute stmt db = Ok db' -> settled stmt db'.
Proof.
  intros Hexec. apply execute_Ok in Hexec as [Hacc ->].
  assert (Hs : spent stmt (updated stmt (ingest_events db))) by apply updated_spends.
  split; [|exact Hs]. eapply accepted_spent; [exact Hacc|exact Hs].
Qed.

Lemma execute_keeps_settled (stmt other : statement) (db db' : database) :
  settled stmt db -> execute other db = Ok db' -> settled stmt db'.
Proof.
  intros [Hacc Hs] Hexec. apply execute_Ok in Hexec as [_ ->].
  assert (Hs' : spent stmt (updated other (ingest_events db)))
    by apply updated_keeps_spent, Hs.
  split; [|exact Hs']. eapply accepted_spent; [exact Hacc|exact Hs'].
Qed.

(** Settled statements drop out of a sequence. *)
Lemma execute_all_settled (done rest : list statement) (db : database) :
  Forall (fun stmt => settled stmt db) done ->
  execute_all (done ++ rest) db = execute_all rest db.
Proof.
  induction done as [|stmt done IH]; intros H; [reflexivity|].
  inversion H as [|? ? Hs Hdone]; subst.
  cbn [app execute_all]. rewrite (execute_settled stmt db Hs). apply IH, Hdone.
Qed.

Lemma execute_all_replay (history done : list statement) (db : database) :
  Forall (fun stmt => settled stmt db) done ->
  execute_all (done ++ history) (execute_all history db) = execute_all history db.
Proof.
  revert done db. induction history as [|stmt history IH]; intros done db Hdone.
  - cbn [execute_all]. rewrite (execute_all_settled done [] db Hdone). reflexivity.
  - cbn [execute_all]. destruct (execute stmt db) as [db'|e] eqn:Hexec.
    + replace (done ++ stmt :: history) with ((done ++ [stmt]) ++ history)
        by (rewrite <- app_assoc; reflexivity).
      apply IH. apply Forall_app. split.
      * eapply Forall_impl; [exact Hdone|].
        intros other Hother. exact (execute_keeps_settled other stmt db db' Hother Hexec).
      * constructor; [|constructor]. eapply execute_settles, Hexec.
    + rewrite (execute_all_settled done (stmt :: history) db Hdone).
      cbn [execute_all]. rewrite Hexec. reflexivity.
Qed.

(** X18.  Replaying the statements of a run changes nothing: after a history of
    updates every row that one of them names is consumed, and the guard
    [processed = false] makes each of them a no-op.  In particular
    [_update_ingest_event_flags] can be repeated safely. *)
Theorem flag_updates_are_idempotent (history : list statement) (db : database)
    (batch : list post) (topic_id_mapping : gmap string string) :
  execute_all history (execute_all history db) = execute_all history db
  /\ _update_ingest_event_flags (_update_ingest_event_flags db batch topic_id_mapping)
       batch topic_id_mapping
     = _update_ingest_event_flags db batch topic_id_mapping.
Proof.
  split; [|unfold _update_ingest_event_flags];
    apply (execute_all_replay _ []); constructor.
Qed.

Lemma updated_row (stmt : statement) (db : table) (i : string) (row : ingest_event) :
  db !! i = Some row ->
  exists row', updated stmt db !! i = Some row'
    /\ (processed row = true -> row' = row)
    /\ (row' = row \/ processed row' = true).
Proof.
  intros Hrow. rewrite lookup_updated, Hrow.
  case_bool_decide; [|exists row; auto].
  destruct stmt; cbn; eexists; (split; [reflexivity|]); split;
    auto using mark_linked_spent, mark_processed_spent,
      mark_linked_consumed, mark_processed_consumed.
Qed.

(** X19.  The updates never insert or delete a row of [IngestEvent]; a row that is
    consumed is left exactly as it is, and a row that is changed is consumed
    afterwards: no update sets [processed] back to false. *)
Theorem flag_updates_only_consume (history : list statement) (db : database) :
  dom (ingest_events (execute_all history db)) = dom (ingest_events db)
  /\ forall i row, ingest_events db !! i = Some row ->
       exists row', ingest_events (execute_all history db) !! i = Some row'
         /\ (processed row = true -> row' = row)
         /\ (row' = row \/ processed row' = true).
Proof.
  revert db. induction history as [|stmt history IH]; intros db.
  - split; [reflexivity|]. intros i row Hrow. exists row. auto.
  - cbn [execute_all]. destruct (execute stmt db) as [db'|e] eqn:Hexec;
      [|split; [reflexivity|]; intros i row Hrow; exists row; auto].
    apply execute_Ok in Hexec as [_ ->].
    destruct (IH {| ingest_events := updated stmt (ingest_events db);
                    trend_topics := trend_topics db |}) as [Hdom Hrows].
    cbn [ingest_events] in Hdom, Hrows. split.
    + rewrite Hdom. apply set_eq. intros i. rewrite !elem_of_dom, lookup_updated.
      case_bool_decide; [|reflexivity].
      destruct stmt; rewrite <- !not_eq_None_Some, fmap_None; reflexivity.
    + intros i row Hrow.
      destruct (updated_row stmt (ingest_events db) i row Hrow) as (r1 & H1 & Hk1 & Hc1).
      destruct (Hrows i r1 H1) as (r2 & H2 & Hk2 & Hc2).
      exists r2. split; [exact H2|]. split.
      * intros Hp. pose proof (Hk1 Hp) as ->. apply Hk2, Hp.
      * destruct Hc2 as [->|Hc2]; [exact Hc1|right; exact Hc2].
Qed.

End StatementFacts.

(** * The grouping of posts by cluster label *)

Module GroupingFacts.
Import TopicCluster TopicClusterSpec GroupingSpec.

Lemma topics_lookup_None (label : Z) (topics : list (Z * topic)) :
  topics_lookup label topics = None <-> label ∉ map fst topics.
Proof.
  induction topics as [|[l t] rest IH]; cbn [topics_lookup map fst].
  - split; [intros _ H; inversion H|reflexivity].
  - rewrite not_elem_of_cons. destruct (Z.eqb_spec l label) as [->|Hne].
    + split; [discriminate|]. intros [H _]. contradiction.
    + rewrite IH. split; [intros H; split; [congruence|exact H]|intros [_ H]; exact H].
Qed.

Lemma file_under_absent (f : topic -> topic) (label : Z) (topics : list (Z * topic)) :
  label ∉ map fst topics -> map (file_under f label) topics = topics.
Proof.
  induction topics as [|[l t] rest IH]; [reflexivity|].
  cbn [map fst]. rewrite not_elem_of_cons. intros [Hne Hrest].
  unfold file_under at 1. cbn [fst snd].
  destruct (Z.eqb_spec l label) as [->|_]; [contradiction|].
  rewrite (IH Hrest). reflexivity.
Qed.

Lemma topics_alter_file_under (f : topic -> topic) (label : Z) (topics : list (Z * topic)) :
  NoDup (map fst topics) ->
  topics_alter f label topics = map (file_under f label) topics.
Proof.
  induction topics as [|[l t] rest IH]; [reflexivity|].
  cbn [map fst topics_alter]. intros Hnd. apply NoDup_cons in Hnd as [Hl Hnd].
  unfold file_under at 1. cbn [fst snd].
  destruct (Z.eqb_spec l label) as [->|Hne].
  - rewrite (file_under_absent f label rest Hl). reflexivity.
  - rewrite (IH Hnd). reflexivity.
Qed.

Lemma file_under_keys (f : topic -> topic) (label : Z) (topics : list (Z * topic)) :
  map fst (map (file_under f label) topics) = map fst topics.
Proof. rewrite map_map. reflexivity. Qed.

Lemma with_label_snoc (label : Z) (done : list (post * Z)) (p : post) (l : Z) :
  with_label label (done ++ [(p, l)])
  = with_label label done ++ (if decide (l = label) then [p] else []).
Proof.
  unfold with_label. rewrite filter_app, map_app. f_equal.
  rewrite filter_cons, filter_nil. cbn [snd]. destruct (decide (l = label)); reflexivity.
Qed.

Lemma grouped_nil : grouped [] [].
Proof.
  split; [constructor|]. split; [intros j label t H; discriminate|reflexivity].
Qed.

(** A label met for the first time gets an empty topic with the next
    number. *)
Lemma grouped_open (done : list (post * Z)) (topics : list (Z * topic)) (label : Z) :
  grouped done topics -> label <> (-1)%Z -> label ∉ map fst topics ->
  grouped done (topics ++ [(label, new_topic (length topics))]).
Proof.
  intros (Hnd & Htopics & Hrest) Hlabel Hnew. split; [|split].
  - rewrite map_app. apply NoDup_app. split; [exact Hnd|].
    split; [|apply NoDup_singleton].
    intros l Hl Hl'. apply list_elem_of_singleton in Hl'. cbn in Hl'. subst l.
    contradiction.
  - intros j l t Hj. apply lookup_app_Some in Hj as [Hj|[Hlen Hj]].
    + apply (Htopics j l t Hj).
    + destruct (j - length topics) as [|k] eqn:Hk; [|destruct k; discriminate].
      injection Hj as <- <-.
      assert (j = length topics) as -> by lia.
      cbn [new_topic topic_id posts size]. rewrite (Hrest label Hnew Hlabel).
      repeat split; auto.
  - intros l Hl. apply Hrest. intros Hin. apply Hl. rewrite map_app.
    apply elem_of_app. left. exact Hin.
Qed.

(** Filing a post under the label of an open topic. *)
Lemma grouped_file (done : list (post * Z)) (topics : list (Z * topic))
    (p : post) (label : Z) (row : option vector) :
  grouped done topics -> label ∈ map fst topics ->
  grouped (done ++ [(p, label)]) (map (file_under (add_post p row) label) topics).
Proof.
  intros (Hnd & Htopics & Hrest) Hin. split; [|split].
  - rewrite file_under_keys. exact Hnd.
  - intros j l t Hj. rewrite list_lookup_fmap in Hj.
    destruct (topics !! j) as [[l0 t0]|] eqn:Hj0; [|discriminate].
    cbn in Hj. unfold file_under in Hj. cbn [fst snd] in Hj.
    injection Hj as <- <-.
    destruct (Htopics j l0 t0 Hj0) as (Hne & Hid & Hposts & Hsize).
    rewrite with_label_snoc.
    destruct (Z.eqb_spec l0 label) as [->|Hdiff].
    + rewrite decide_True by reflexivity. cbn [add_post topic_id posts size].
      rewrite Hposts, length_app, Hsize, Hposts. cbn [length].
      repeat split; auto. lia.
    + rewrite decide_False by congruence. rewrite app_nil_r. auto.
  - intros l Hl Hne. rewrite file_under_keys in Hl. rewrite with_label_snoc.
    rewrite (Hrest l Hl Hne).
    destruct (decide (label = l)) as [->|_]; [contradiction|reflexivity].
Qed.

(** A noise point changes nothing. *)
Lemma grouped_noise (done : list (post * Z)) (topics : list (Z * topic)) (p : post) :
  grouped done topics -> grouped (done ++ [(p, (-1)%Z)]) topics.
Proof.
  intros (Hnd & Htopics & Hrest). split; [exact Hnd|]. split.
  - intros j l t Hj. destruct (Htopics j l t Hj) as (Hne & Hid & Hposts & Hsize).
    rewrite with_label_snoc, decide_False by congruence. rewrite app_nil_r. auto.
  - intros l Hl Hne. rewrite with_label_snoc, decide_False by congruence.
    rewrite app_nil_r. auto.
Qed.

Lemma group_loop_grouped (items done : list (post * Z)) (post_idx : nat)
    (all_embeddings : list vector) (topics : list (Z * topic)) :
  grouped done topics ->
  grouped (done ++ items)
          (group_loop items post_idx all_embeddings topics (length topics)).
Proof.
  revert done post_idx topics.
  induction items as [|[p label] rest IH]; intros done post_idx topics Hg.
  - rewrite app_nil_r. exact Hg.
  - replace (done ++ (p, label) :: rest) with ((done ++ [(p, label)]) ++ rest)
      by (rewrite <- app_assoc; reflexivity).
    cbn [group_loop]. destruct (Z.eqb_spec label (-1)) as [->|Hlabel].
    + apply IH, grouped_noise, Hg.
    + destruct (topics_lookup label topics) as [t|] eqn:Hlookup.
      * assert (Hin : label ∈ map fst topics).
        { destruct (decide (label ∈ map fst topics)) as [H|H]; [exact H|].
          apply topics_lookup_None in H. congruence. }
        rewrite topics_alter_file_under by apply Hg.
        replace (length topics)
          with (length (map (file_under (add_post p (all_embeddings !! post_idx)) label)
                            topics)) by apply length_map.
        apply IH, grouped_file; assumption.
      * apply topics_lookup_None in Hlookup.
        pose proof (grouped_open done topics label Hg Hlabel Hlookup) as Hopen.
        set (opened := topics ++ [(label, new_topic (length topics))]) in *.
        rewrite topics_alter_file_under by apply Hopen.
        replace (S (length topics))
          with (length (map (file_under (add_post p (all_embeddings !! post_idx)) label)
                            opened))
          by (rewrite length_map; unfold opened; rewrite length_app; cbn; lia).
        apply IH, grouped_file; [exact Hopen|].
        unfold opened. rewrite map_app. apply elem_of_app. right. left.
Qed.

Lemma grouped_ids (done : list (post * Z)) (topics : list (Z * topic)) :
  grouped done topics -> NoDup (map topic_id (map snd topics)).
Proof.
  intros (_ & Htopics & _).
  assert (map topic_id (map snd topics) = map topic_ (seq 0 (length topics))) as ->.
  { apply list_eq. intros j. rewrite !list_lookup_fmap.
    destruct (topics !! j) as [[l t]|] eqn:Hj.
    - destruct (Htopics j l t Hj) as (_ & Hid & _).
      rewrite lookup_seq_lt by (eapply lookup_lt_Some; eassumption).
      cbn. rewrite Hid. reflexivity.
    - rewrite lookup_seq_ge by (apply lookup_ge_None; exact Hj). reflexivity. }
  apply NoDup_fmap_2; [intros a b [= ->]; reflexivity|apply NoDup_seq].
Qed.

(** X20.  [_group_posts_by_cluster] returns one topic per cluster label that is
    not noise and has enough posts: each returned topic holds exactly the
    posts that [zip(posts, cluster_labels)] pairs with its label, in their
    order; its size is the number of its posts and reaches the minimum
    cluster size; and no two returned topics have the same id. *)
Theorem _group_posts_by_cluster_groups_by_label (self : instance) (all_posts : list post)
    (cluster_labels : list Z) (all_embeddings : list vector) (min_cluster_size : option Z) :
  let items := zip all_posts cluster_labels in
  let topics :=
    _group_posts_by_cluster self all_posts cluster_labels all_embeddings min_cluster_size in
  Forall (fun t =>
            size t = length (posts t)
            /\ (int_or min_cluster_size (min_cluster_size_ self) <= Z.of_nat (size t))%Z
            /\ exists label, label <> (-1)%Z /\ posts t = with_label label items)
         topics
  /\ NoDup (map topic_id topics).
Proof.
  intros items topics. subst topics. unfold _group_posts_by_cluster.
  pose proof (group_loop_grouped items [] 0 all_embeddings [] grouped_nil) as Hg.
  cbn [length app] in Hg. fold items. set (final := group_loop items 0 all_embeddings [] 0) in *.
  split.
  - apply Forall_forall. intros t Ht. apply list_elem_of_filter in Ht as [Hmin Ht].
    apply Z.leb_le in Hmin.
    apply list_elem_of_fmap in Ht as ([l t'] & -> & Hin).
    apply list_elem_of_lookup in Hin as [j Hj].
    destruct Hg as (_ & Htopics & _).
    destruct (Htopics j l t' Hj) as (Hne & _ & Hposts & Hsize). cbn [snd].
    split; [exact Hsize|]. split; [exact Hmin|]. exists l. auto.
  - pose proof (grouped_ids _ _ Hg) as Hids.
    assert (Hsub : filter (fun t => (int_or min_cluster_size (min_cluster_size_ self)
                                     <=? Z.of_nat (size t))%Z = true) (map snd final)
                   `sublist_of` map snd final) by apply sublist_filter.
    apply (fmap_sublist topic_id) in Hsub.
    exact (sublist_NoDup _ _ Hids Hsub).
Qed.

(** X21.  [_group_posts_by_cluster] drops no cluster that is large enough: for a
    label other than -1 that occurs in [zip(posts, cluster_labels)] at least
    as often as the minimum cluster size, a topic with exactly the posts of
    that label is returned. *)
Theorem _group_posts_by_cluster_keeps_large_clusters (self : instance)
    (all_posts : list post) (cluster_labels : list Z) (all_embeddings : list vector)
    (min_cluster_size : option Z) (label : Z) :
  let items := zip all_posts cluster_labels in
  label <> (-1)%Z ->
  with_label label items <> [] ->
  (int_or min_cluster_size (min_cluster_size_ self)
   <= Z.of_nat (length (with_label label items)))%Z ->
  exists t,
    t ∈ _group_posts_by_cluster self all_posts cluster_labels all_embeddings min_cluster_size
    /\ posts t = with_label label items.
Proof.
  intros items Hlabel Hsome Hmin. unfold _group_posts_by_cluster.
  pose proof (group_loop_grouped items [] 0 all_embeddings [] grouped_nil) as Hg.
  cbn [length app] in Hg. fold items.
  set (final := group_loop items 0 all_embeddings [] 0) in *.
  destruct Hg as (_ & Htopics & Hrest).
  destruct (decide (label ∈ map fst final)) as [Hin|Hout];
    [|exfalso; apply Hsome, Hrest; assumption].
  apply list_elem_of_fmap in Hin as ([l t] & Hl & Hin). cbn in Hl. subst l.
  apply list_elem_of_lookup in Hin as [j Hj].
  destruct (Htopics j label t Hj) as (_ & _ & Hposts & Hsize).
  exists t. split; [|exact Hposts].
  apply list_elem_of_filter. split.
  - apply Z.leb_le. rewrite Hsize, Hposts. exact Hmin.
  - apply list_elem_of_fmap. exists (label, t). split; [reflexivity|].
    apply list_elem_of_lookup. exists j. exact Hj.
Qed.

Lemma _group_posts_by_cluster_keeps_large_clusters_witness :
  exists t,
    t ∈ _group_posts_by_cluster new_instance [bare_post; bare_post; bare_post]
          [7%Z; (-1)%Z; 7%Z] [] (Some 2%Z)
    /\ posts t = [bare_post; bare_post].
Proof.
  apply (_group_posts_by_cluster_keeps_large_clusters new_instance
           [bare_post; bare_post; bare_post] [7%Z; (-1)%Z; 7%Z] [] (Some 2%Z) 7%Z).
  - discriminate.
  - discriminate.
  - vm_compute. discriminate.
Defined.

Lemma length_filter_disjoint {A} (P Q : A -> Prop) `{!forall x, Decision (P x)}
    `{!forall x, Decision (Q x)} (l : list A) :
  (forall x, P x -> Q x -> False) ->
  length (filter P l) + length (filter Q l) = length (filter (fun x => P x \/ Q x) l).
Proof.
  intros Hdisjoint. induction l as [|x l IH]; [reflexivity|].
  rewrite !filter_cons.
  destruct (decide (P x)) as [HP|HP], (decide (Q x)) as [HQ|HQ].
  - destruct (Hdisjoint x HP HQ).
  - rewrite decide_True by (left; exact HP). cbn [length]. lia.
  - rewrite decide_True by (right; exact HQ). cbn [length]. lia.
  - rewrite decide_False by (intros [HPQ|HPQ]; contradiction). exact IH.
Qed.

Lemma length_filter_le {A} (P Q : A -> Prop) `{!forall x, Decision (P x)}
    `{!forall x, Decision (Q x)} (l : list A) :
  (forall x, P x -> Q x) -> length (filter P l) <= length (filter Q l).
Proof.
  intros Himpl. induction l as [|x l IH]; [reflexivity|].
  rewrite !filter_cons.
  destruct (decide (P x)) as [HP|HP].
  - rewrite decide_True by (apply Himpl, HP). cbn [length]. lia.
  - destruct (decide (Q x)); cbn [length]; lia.
Qed.

(** Distinct labels share no pair. *)
Lemma with_label_total (items : list (post * Z)) (labels : list Z) :
  NoDup labels ->
  sum_list (map (fun label => length (with_label label items)) labels)
  = length (filter (fun item : post * Z => item.2 ∈ labels) items).
Proof.
  induction 1 as [|label labels Hnew Hnd IH]; cbn [map sum_list].
  - induction items as [|item items IH]; [reflexivity|].
    rewrite filter_cons, decide_False by (intros Hin; inversion Hin). exact IH.
  - rewrite IH. unfold with_label, Datatypes.id. rewrite length_map.
    rewrite (length_filter_disjoint (fun item : post * Z => item.2 = label)
               (fun item : post * Z => item.2 ∈ labels)) by (intros item -> H; contradiction).
    apply Nat.le_antisymm; apply length_filter_le; intros item; rewrite elem_of_cons; tauto.
Qed.

Lemma sum_list_sublist (l k : list nat) : l `sublist_of` k -> sum_list l <= sum_list k.
Proof. induction 1; cbn [sum_list]; lia. Qed.

(** X22.  [_group_posts_by_cluster] puts no post into two topics: the sizes of
    the returned topics add up to at most the number of pairs of
    [zip(posts, cluster_labels)] whose label is not -1. *)
Theorem _group_posts_by_cluster_counts_each_post_once (self : instance)
    (all_posts : list post) (cluster_labels : list Z) (all_embeddings : list vector)
    (min_cluster_size : option Z) :
  sum_list (map size
    (_group_posts_by_cluster self all_posts cluster_labels all_embeddings min_cluster_size))
  <= length (clustered (zip all_posts cluster_labels)).
Proof.
  unfold _group_posts_by_cluster. set (items := zip all_posts cluster_labels).
  pose proof (group_loop_grouped items [] 0 all_embeddings [] grouped_nil) as Hg.
  cbn [length app] in Hg.
  set (final := group_loop items 0 all_embeddings [] 0) in *.
  destruct Hg as (Hnd & Htopics & _).
  etransitivity.
  { apply sum_list_sublist, (fmap_sublist size), sublist_filter. }
  change (sum_list (map size (map snd final)) <= length (clustered items)).
  assert (map size (map snd final)
          = map (fun label => length (with_label label items)) (map fst final)) as ->.
  { apply list_eq. intros j. rewrite !list_lookup_fmap.
    destruct (final !! j) as [[l t]|] eqn:Hj; [|reflexivity].
    destruct (Htopics j l t Hj) as (_ & _ & Hposts & Hsize).
    cbn. rewrite Hsize, Hposts. reflexivity. }
  rewrite (with_label_total items _ Hnd). unfold clustered.
  apply length_filter_le. intros item Hin Hnoise.
  apply list_elem_of_fmap in Hin as ([l t] & Hl & Hin). cbn in Hl.
  apply list_elem_of_lookup in Hin as [j Hj].
  destruct (Htopics j l t Hj) as (Hne & _). congruence.
Qed.

Lemma with_label_sublist (label : Z) (all_posts : list post) (cluster_labels : list Z) :
  with_label label (zip all_posts cluster_labels) `sublist_of` all_posts.
Proof.
  unfold with_label. transitivity (map fst (zip all_posts cluster_labels)).
  - apply (fmap_sublist fst), sublist_filter.
  - clear. revert cluster_labels.
    induction all_posts as [|p all_posts IH]; intros [|l cluster_labels]; cbn [zip zip_with map fst].
    + constructor.
    + constructor.
    + apply sublist_nil_l.
    + apply sublist_skip, IH.
Qed.

Lemma int_or_twice (x : option Z) (default : Z) :
  int_or (Some (int_or x default)) default = int_or x default.
Proof.
  unfold int_or. destruct x as [z|].
  - destruct (Z.eqb_spec z 0) as [_|Hz].
    + destruct (default =? 0)%Z; reflexivity.
    + destruct (Z.eqb_spec z 0); [contradiction|reflexivity].
  - destruct (default =? 0)%Z; reflexivity.
Qed.

Lemma _setup_tfidf_fallback_keeps_minimum (L : libs) (self self' : instance) :
  _setup_tfidf_fallback L self = Ok self' -> min_cluster_size_ self' = min_cluster_size_ self.
Proof.
  unfold _setup_tfidf_fallback. destruct (new_tfidf_vectorizer L); [|discriminate].
  cbn. intros [= <-]. reflexivity.
Qed.

Lemma load_models_keeps_minimum (L : libs) (self self' : instance) :
  load_models L self = Ok self' -> min_cluster_size_ self' = min_cluster_size_ self.
Proof.
  unfold load_models. destruct (SENTENCE_TRANSFORMERS_AVAILABLE L).
  - destruct (new_sentence_transformer L); cbn.
    + intros [= <-]. reflexivity.
    + apply _setup_tfidf_fallback_keeps_minimum.
  - destruct (_setup_tfidf_fallback L self) eqn:Hsetup.
    + intros [= <-]. eapply _setup_tfidf_fallback_keeps_minimum, Hsetup.
    + discriminate.
Qed.

(** X23.  Every topic that [cluster_posts] returns has the number of its posts as
    size and as [post_count], at least the minimum cluster size of them,
    taken from the posts of the call in their order, an id of the form
    [topic_<n>] and the metadata of [generate_topic_metadata]; no two of the
    topics share an id. *)
Theorem cluster_posts_topics_are_described (L : libs) (self : instance)
    (all_posts : list post) (min_cluster_size : option Z) (topics : list topic) :
  cluster_posts L self all_posts min_cluster_size = Ok topics ->
  Forall (described all_posts (int_or min_cluster_size (min_cluster_size_ self))) topics
  /\ NoDup (map topic_id topics).
Proof.
  unfold cluster_posts. destruct all_posts as [|p rest] eqn:Hposts.
  { intros [= <-]. split; constructor. }
  rewrite <- Hposts. clear p rest Hposts.
  destruct (if is_loaded self then Ok self else load_models L self) as [self'|e] eqn:Hload;
    [|discriminate].
  assert (Hmin : min_cluster_size_ self' = min_cluster_size_ self).
  { destruct (is_loaded self); [injection Hload as <-; reflexivity|].
    apply (load_models_keeps_minimum L), Hload. }
  cbn [mbind result_bind bind]. rewrite Hmin. intros [= <-].
  destruct (_extract_texts all_posts) as [|text texts] eqn:Htexts.
  { split; constructor. }
  rewrite <- Htexts. clear text texts Htexts. cbn [try_except].
  unfold _group_posts_by_cluster. rewrite Hmin.
  rewrite (int_or_twice min_cluster_size (min_cluster_size_ self)).
  set (minimum := int_or min_cluster_size (min_cluster_size_ self)).
  set (rows := generate_embeddings L self' (_extract_texts all_posts)).
  set (cluster_labels := apply_clustering L self' rows minimum).
  set (items := zip all_posts cluster_labels).
  pose proof (group_loop_grouped items [] 0 rows [] grouped_nil) as Hg.
  cbn [length app] in Hg.
  set (final := group_loop items 0 rows [] 0) in *.
  split.
  - apply Forall_forall. intros t Ht.
    apply list_elem_of_fmap in Ht as (t0 & -> & Ht).
    apply list_elem_of_filter in Ht as [Hsize Ht]. apply Z.leb_le in Hsize.
    apply list_elem_of_fmap in Ht as ([l t1] & -> & Hin).
    apply list_elem_of_lookup in Hin as [j Hj].
    destruct Hg as (_ & Htopics & _).
    destruct (Htopics j l t1 Hj) as (_ & Hid & Hposts & Hlen).
    cbn [snd] in *. unfold described, topic_update. cbn [size posts topic_id meta].
    split; [exact Hlen|]. split; [exact Hsize|].
    split; [rewrite Hposts; apply with_label_sublist|].
    split; [exists j; exact Hid|].
    eexists. split; [reflexivity|].
    rewrite Hlen. unfold generate_topic_metadata.
    destruct (sum_engagement (posts t1) (VInt 0)); reflexivity.
  - rewrite map_map. cbn [topic_update topic_id].
    pose proof (grouped_ids _ _ Hg) as Hids.
    assert (Hsub : filter (fun t => (minimum <=? Z.of_nat (size t))%Z = true) (map snd final)
                   `sublist_of` map snd final) by apply sublist_filter.
    apply (fmap_sublist topic_id) in Hsub.
    exact (sublist_NoDup _ _ Hids Hsub).
Qed.

Lemma cluster_posts_topics_are_described_witness :
  exists topics,
    cluster_posts single_cluster_libs new_instance
      [text_post "p1" (lit "load shedding"); bare_post; text_post "p3" (lit "eskom")] (Some 2%Z) = Ok topics
    /\ length topics = 1
    /\ Forall (described [text_post "p1" (lit "load shedding"); bare_post; text_post "p3" (lit "eskom")] 2) topics.
Proof.
  eexists. split; [vm_compute; reflexivity|]. split; [reflexivity|].
  refine (proj1 (cluster_posts_topics_are_described single_cluster_libs new_instance
            [text_post "p1" (lit "load shedding"); bare_post; text_post "p3" (lit "eskom")] (Some 2%Z) _ _)).
  vm_compute. reflexivity.
Defined.

Lemma fst_zip_take {A B} (l : list A) (k : list B) :
  map fst (zip l k) = take (length k) l.
Proof.
  revert k. induction l as [|a l IH]; intros [|b k]; cbn [zip zip_with map fst length take];
    try reflexivity.
  rewrite <- IH. reflexivity.
Qed.

Lemma apply_clustering_length (L : libs) (self : instance) (rows : list vector)
    (min_cluster_size : Z) :
  one_label_per_row L ->
  length (apply_clustering L self rows min_cluster_size) = length rows.
Proof.
  intros Hlabels. unfold apply_clustering, all_noise.
  destruct (Z.of_nat (length rows) <? min_cluster_size)%Z; [apply length_replicate|].
  destruct (bool_decide (clustering_algorithm self = "hdbscan"%string) && HDBSCAN_AVAILABLE L).
  - destruct (hdbscan_fit_predict L min_cluster_size rows) as [labels|e] eqn:Hfit;
      cbn [try_except]; [|apply length_replicate].
    apply (proj1 (Hlabels min_cluster_size rows labels)), Hfit.
  - destruct (dbscan_fit_predict L (eps self) min_cluster_size rows) as [labels|e] eqn:Hfit;
      cbn [try_except]; [|apply length_replicate].
    apply (proj2 (Hlabels min_cluster_size rows labels) (eps self)), Hfit.
Qed.

(** X24.  [cluster_posts] computes the cluster labels from the posts that have a
    text and pairs them with all the posts by position.  With packages that
    return one row per text and one label per row, every returned topic
    takes its posts from the first [n] posts of the call, where [n] is the
    number of posts with a text: for each post without text, one post at
    the end of the batch is left out of every topic. *)
Theorem cluster_posts_pairs_labels_by_position (L : libs) (self : instance)
    (all_posts : list post) (min_cluster_size : option Z) (topics : list topic) :
  one_row_per_text L ->
  one_label_per_row L ->
  cluster_posts L self all_posts min_cluster_size = Ok topics ->
  Forall (fun t => posts t `sublist_of` take (length (_extract_texts all_posts)) all_posts)
         topics.
Proof.
  intros Hrows Hlabels. unfold cluster_posts. destruct all_posts as [|p rest] eqn:Hposts.
  { intros [= <-]. constructor. }
  rewrite <- Hposts. clear p rest Hposts.
  destruct (if is_loaded self then Ok self else load_models L self) as [self'|e];
    [|discriminate].
  cbn [mbind result_bind bind]. intros [= <-].
  destruct (_extract_texts all_posts) as [|text texts] eqn:Htexts.
  { constructor. }
  rewrite <- Htexts. clear text texts Htexts. cbn [try_except].
  unfold _group_posts_by_cluster.
  set (minimum := int_or min_cluster_size (min_cluster_size_ self')).
  set (rows := generate_embeddings L self' (_extract_texts all_posts)).
  set (cluster_labels := apply_clustering L self' rows minimum).
  set (items := zip all_posts cluster_labels).
  pose proof (group_loop_grouped items [] 0 rows [] grouped_nil) as Hg.
  cbn [length app] in Hg.
  set (final := group_loop items 0 rows [] 0) in *.
  apply Forall_forall. intros t Ht.
  apply list_elem_of_fmap in Ht as (t0 & -> & Ht).
  apply list_elem_of_filter in Ht as [_ Ht].
  apply list_elem_of_fmap in Ht as ([l t1] & -> & Hin).
  apply list_elem_of_lookup in Hin as [j Hj].
  destruct Hg as (_ & Htopics & _).
  destruct (Htopics j l t1 Hj) as (_ & _ & Hposts & _).
  cbn [snd topic_update posts]. rewrite Hposts. unfold with_label.
  replace (length (_extract_texts all_posts)) with (length cluster_labels).
  - rewrite <- fst_zip_take. apply (fmap_sublist fst), sublist_filter.
  - unfold cluster_labels. rewrite (apply_clustering_length L self' rows minimum Hlabels).
    apply TopicClusterFacts.generate_embeddings_length, Hrows.
Qed.

Lemma single_cluster_libs_rows : one_row_per_text single_cluster_libs.
Proof. intros texts rows. split; intros [= <-]; apply length_map. Qed.

Lemma single_cluster_libs_labels : one_label_per_row single_cluster_libs.
Proof.
  intros k rows labels. split; [|intros eps]; intros [= <-]; apply length_map.
Qed.

Lemma cluster_posts_pairs_labels_by_position_witness :
  exists topics,
    cluster_posts single_cluster_libs new_instance
      [text_post "p1" (lit "load shedding"); bare_post; text_post "p3" (lit "eskom")]
      (Some 2%Z) = Ok topics
    /\ Forall (fun t => posts t `sublist_of` [text_post "p1" (lit "load shedding"); bare_post])
              topics.
Proof.
  eexists. split; [vm_compute; reflexivity|].
  refine (cluster_posts_pairs_labels_by_position single_cluster_libs new_instance
            [text_post "p1" (lit "load shedding"); bare_post; text_post "p3" (lit "eskom")]
            (Some 2%Z) _ single_cluster_libs_rows single_cluster_libs_labels _).
  vm_compute. reflexivity.
Defined.

End GroupingFacts.

(** * The region that the geo-classifier reports *)

Module GeoRegionFacts.
Import TextCleaner PyStr PyStrSpec PyStrFacts LanguageDetector LanguageDetectorSpec.
Import LanguageDetectorFacts Services GeoClassifier GeoClassifierSpec GeoRegionSpec.

Lemma dict_lookup_values {V} (d : dict V) (key : str) (v : V) :
  dict_lookup d key = Some v -> v ∈ dict_values d.
Proof.
  unfold dict_values. induction d as [|[k w] rest IH]; cbn [dict_lookup map snd]; [discriminate|].
  case_bool_decide as Hkey.
  - intros [= ->]. left.
  - intros Hrest. right. apply IH, Hrest.
Qed.

Lemma dict_add_keys (P : str -> Prop) (d : dict nat) (key : str) (n : nat) :
  Forall P (keys d) -> P key -> Forall P (keys (dict_add d key n)).
Proof.
  unfold keys. intros Hd Hkey. induction d as [|[k v] rest IH]; cbn [dict_add map fst].
  - repeat constructor. exact Hkey.
  - cbn [map fst] in Hd. apply Forall_cons in Hd as [Hk Hrest].
    case_bool_decide; cbn [map fst]; constructor; auto.
Qed.

Lemma city_provinces_are_codes (code : str) :
  code ∈ dict_values sa_cities -> code ∈ dict_values sa_provinces.
Proof.
  intros H.
  assert (Hall : forallb (fun code => bool_decide (code ∈ dict_values sa_provinces))
                         (dict_values sa_cities) = true) by (vm_compute; reflexivity).
  rewrite forallb_forall in Hall. apply list_elem_of_In, Hall in H.
  apply bool_decide_eq_true in H. exact H.
Qed.

Lemma landmark_provinces_are_codes :
  lit "MP" ∈ dict_values sa_provinces /\ lit "WC" ∈ dict_values sa_provinces.
Proof.
  split.
  - apply (proj1 (bool_decide_eq_true (lit "MP" ∈ dict_values sa_provinces))).
    vm_compute. reflexivity.
  - apply (proj1 (bool_decide_eq_true (lit "WC" ∈ dict_values sa_provinces))).
    vm_compute. reflexivity.
Qed.

Lemma score_mention_keys (province_scores : dict nat) (mention : str * str) :
  Forall (fun code => code ∈ dict_values sa_provinces) (keys province_scores) ->
  Forall (fun code => code ∈ dict_values sa_provinces)
         (keys (score_mention province_scores mention)).
Proof.
  intros Hscores. destruct mention as [location location_type]. unfold score_mention.
  destruct (bool_decide (location_type = lit "city") && dict_has sa_cities location) eqn:Hcity.
  { apply andb_true_iff in Hcity as [_ Hhas]. unfold dict_has in Hhas.
    destruct (dict_lookup sa_cities location) as [code|] eqn:Hcode; [|discriminate].
    apply dict_add_keys; [exact Hscores|].
    apply city_provinces_are_codes, (dict_lookup_values _ location), Hcode. }
  destruct (bool_decide (location_type = lit "province") && dict_has sa_provinces location)
    eqn:Hprovince.
  { apply andb_true_iff in Hprovince as [_ Hhas]. unfold dict_has in Hhas.
    destruct (dict_lookup sa_provinces location) as [code|] eqn:Hcode; [|discriminate].
    apply dict_add_keys; [exact Hscores|].
    apply (dict_lookup_values _ location), Hcode. }
  destruct (bool_decide (location_type = lit "landmark")); [|exact Hscores].
  destruct (contains (lit "kruger") location).
  { apply dict_add_keys; [exact Hscores|apply landmark_provinces_are_codes]. }
  destruct (contains (lit "table mountain") location || contains (lit "v&a") location);
    [|exact Hscores].
  apply dict_add_keys; [exact Hscores|apply landmark_provinces_are_codes].
Qed.

Lemma score_mentions_keys (mentions : list (str * str)) (province_scores : dict nat) :
  Forall (fun code => code ∈ dict_values sa_provinces) (keys province_scores) ->
  Forall (fun code => code ∈ dict_values sa_provinces)
         (keys (foldl score_mention province_scores mentions)).
Proof.
  revert province_scores. induction mentions as [|mention mentions IH]; intros scores H.
  - exact H.
  - cbn [foldl]. apply IH, score_mention_keys, H.
Qed.

Lemma max_item_elem (best : str * nat) (items : dict nat) :
  max_item best items ∈ best :: items.
Proof.
  revert best. induction items as [|item items IH]; intros best; cbn [max_item].
  - left.
  - specialize (IH (if (best.2 <? item.2)%nat then item else best)).
    apply elem_of_cons in IH as [->|IH].
    + destruct (best.2 <? item.2)%nat; [right; left|left].
    + right. right. exact IH.
Qed.

Lemma classify_by_language_region (language text region : str) :
  (classify_by_language language text).1 = Some region -> language = lit "ve".
Proof.
  unfold classify_by_language, language_regions. cbn [dict_lookup].
  repeat (case_bool_decide as Hlanguage;
          [subst language; vm_compute; first [discriminate|reflexivity]|clear Hlanguage]).
  discriminate.
Qed.

(** A province that [classify_province] names is one of the codes of
    [sa_provinces], and it comes from a mention unless the language is
    [ve]. *)
Lemma classify_province_region (mentions : list (str * str)) (language region : str) :
  (classify_province mentions language).1 = Some region ->
  region ∈ dict_values sa_provinces /\ (mentions <> [] \/ language = lit "ve").
Proof.
  unfold classify_province.
  pose proof (score_mentions_keys mentions [] (Forall_nil_2 _)) as Hkeys.
  set (scores := foldl score_mention [] mentions) in *.
  assert (Hsource : scores <> [] -> mentions <> []).
  { intros Hscores ->. apply Hscores. reflexivity. }
  set (bonus :=
         match language with
         | [] => scores
         | _ :: _ =>
             match (classify_by_language language []).1 with
             | Some (_ :: _ as region) =>
                 if bool_decide (region ∈ dict_values sa_provinces)
                 then dict_add scores region 1
                 else scores
             | _ => scores
             end
         end).
  assert (Hbonus : Forall (fun code => code ∈ dict_values sa_provinces) (keys bonus)
                   /\ (bonus <> [] -> mentions <> [] \/ language = lit "ve")).
  { unfold bonus. destruct language as [|c language]; [split; [exact Hkeys|auto]|].
    destruct (classify_by_language (c :: language) []).1 as [[|r0 r]|] eqn:Hlanguage;
      [split; [exact Hkeys|auto]| |split; [exact Hkeys|auto]].
    apply classify_by_language_region in Hlanguage.
    case_bool_decide as Hcode; [|split; [exact Hkeys|auto]].
    split; [apply dict_add_keys; assumption|auto]. }
  destruct Hbonus as [Hcodes Hwhy]. fold bonus.
  destruct bonus as [|first rest] eqn:Hscores; [discriminate|].
  cbn [fst]. intros [= <-]. split; [|apply Hwhy; discriminate].
  pose proof (max_item_elem first rest) as Hin.
  rewrite Forall_forall in Hcodes. apply Hcodes. unfold keys.
  apply list_elem_of_fmap. exists (max_item first rest). split; [reflexivity|exact Hin].
Qed.

(** The text [ve] is not taken for South African, whoever the author is. *)
Lemma venda_code_is_not_south_african (U : casing) (author_location : option str) :
  (is_south_african_ U (lit "ve") author_location
     (Some (detect_sa_indicators U (lit "ve")))).1 = false.
Proof.
  unfold is_south_african_.
  destruct (author_in_south_africa U author_location); vm_compute; reflexivity.
Qed.

(** X25.  [classify] names a region only for a text that it takes for South
    African and that mentions a city, a province or a landmark, and the
    region is one of the province codes of [sa_provinces]. *)
Theorem classify_region_is_a_province (U : casing) (text : str)
    (author_location : option str) (region : str) :
  geo_region (classify U text author_location) = Some region ->
  is_south_african (classify U text author_location) = true
  /\ region ∈ dict_values sa_provinces
  /\ extract_location_mentions U text <> [].
Proof.
  unfold classify. destruct text as [|c text'] eqn:Htext; [discriminate|].
  rewrite <- Htext.
  destruct (is_south_african_ U text author_location (Some (detect_sa_indicators U text)))
    as [is_sa sa_score] eqn:Hsa.
  destruct is_sa.
  - destruct (classify_province (extract_location_mentions U text) text)
      as [found confidence] eqn:Hprovince.
    unfold new_GeoClassification.
    destruct (PrimFloat.leb 0 confidence && PrimFloat.leb confidence 1);
      cbn [try_except geo_region is_south_african]; [|discriminate].
    intros ->. split; [reflexivity|].
    destruct (classify_province_region (extract_location_mentions U text) text region)
      as [Hcode Hwhy]; [rewrite Hprovince; reflexivity|].
    split; [exact Hcode|].
    destruct Hwhy as [Hmentions|Hvenda]; [exact Hmentions|].
    exfalso. rewrite Hvenda in Hsa.
    pose proof (venda_code_is_not_south_african U author_location) as Hnot.
    rewrite Hsa in Hnot. discriminate.
  - unfold new_GeoClassification.
    match goal with
    | |- context [PrimFloat.leb 0 ?x && PrimFloat.leb ?x 1] =>
        destruct (PrimFloat.leb 0 x && PrimFloat.leb x 1)
    end; cbn [try_except geo_region]; discriminate.
Qed.

Lemma classify_region_is_a_province_witness :
  is_south_african (classify plain_casing (lit "lekker braai in durban") None) = true
  /\ lit "KZN" ∈ dict_values sa_provinces
  /\ extract_location_mentions plain_casing (lit "lekker braai in durban") <> [].
Proof.
  apply (classify_region_is_a_province plain_casing (lit "lekker braai in durban") None
           (lit "KZN")).
  vm_compute. reflexivity.
Defined.

Lemma ascii_lower_not_upper (c : N) : is_ascii_upper (ascii_lower c) = false.
Proof.
  unfold ascii_lower. destruct (is_ascii_upper c) eqn:Hupper; [|exact Hupper].
  unfold is_ascii_upper, in_range in *. apply andb_true_iff in Hupper as [Hlow Hhigh].
  apply N.leb_le in Hlow. apply andb_false_iff. right. apply N.leb_gt. lia.
Qed.

Lemma lower_go_no_capital (U : casing) (s before : str) :
  lowers_fully U -> Forall (fun x => is_ascii_upper x = false) (lower_go U before s).
Proof.
  intros HU. revert before. induction s as [|c t IH]; intros before; cbn [lower_go].
  - constructor.
  - apply Forall_app. split; [|apply IH].
    destruct (is_ascii c) eqn:Hascii.
    + repeat constructor. apply ascii_lower_not_upper.
    + apply HU, Hascii.
Qed.

(** X26.  The landmark [uShaka marine world] is written with a capital letter,
    and the text is searched in lower case: whatever the text,
    [extract_location_mentions] never reports this landmark. *)
Theorem extract_location_mentions_never_finds_ushaka (U : casing) (text : str) :
  lowers_fully U ->
  lit "uShaka marine world" ∈ sa_landmarks
  /\ lit "uShaka marine world" ∉ map fst (extract_location_mentions U text).
Proof.
  intros HU. split.
  { apply (proj1 (bool_decide_eq_true (lit "uShaka marine world" ∈ sa_landmarks))).
    vm_compute. reflexivity. }
  assert (Habsent : contains (lit "uShaka marine world") (lower U text) = false).
  { destruct (contains (lit "uShaka marine world") (lower U text)) eqn:Hfound; [|reflexivity].
    pose proof (contains_forall _ _ _ Hfound (lower_go_no_capital U text [] HU)) as Hall.
    rewrite Forall_forall in Hall.
    assert (Hcapital : is_ascii_upper 83 = false).
    { apply Hall. apply (proj1 (bool_decide_eq_true (83%N ∈ lit "uShaka marine world"))).
      vm_compute. reflexivity. }
    discriminate Hcapital. }
  unfold extract_location_mentions. rewrite !map_app, !map_map. cbn [fst].
  rewrite !map_id. intros Hin.
  apply elem_of_app in Hin as [Hin|Hin]; [|apply elem_of_app in Hin as [Hin|Hin]].
  - apply list_elem_of_filter in Hin as [_ Hin]. revert Hin.
    apply (proj1 (bool_decide_eq_false (lit "uShaka marine world" ∈ map fst sa_cities))).
    vm_compute. reflexivity.
  - apply list_elem_of_filter in Hin as [_ Hin]. revert Hin.
    apply (proj1 (bool_decide_eq_false (lit "uShaka marine world" ∈ map fst sa_provinces))).
    vm_compute. reflexivity.
  - apply list_elem_of_filter in Hin as [Hin _]. congruence.
Qed.

Lemma plain_casing_lowers_fully : lowers_fully plain_casing.
Proof.
  intros before c after Hascii. repeat constructor.
  unfold is_ascii_upper, in_range. apply N.ltb_ge in Hascii.
  apply andb_false_iff. right. apply N.leb_gt. lia.
Qed.

Lemma extract_location_mentions_never_finds_ushaka_witness :
  lit "uShaka marine world" ∈ sa_landmarks
  /\ lit "uShaka marine world"
      ∉ map fst (extract_location_mentions plain_casing (lit "at uShaka marine world")).
Proof.
  apply (extract_location_mentions_never_finds_ushaka plain_casing
           (lit "at uShaka marine world") plain_casing_lowers_fully).
Defined.

End GeoRegionFacts.

(** * The batch endpoint *)

Module ClassifyBatchFacts.
Import Services ClassifyRouter ClassifyBatch ClassifyBatchSpec.

Lemma classify_each_results (S : services) (E : environment)
    (requests : list ClassifyRequest) :
  Forall2 (result_of S E) requests (classify_each S E requests).1.
Proof.
  induction requests as [|request rest IH]; cbn [classify_each]; [constructor|].
  destruct (classify_text S E request) as [outcome events] eqn:Hone.
  destruct (classify_each S E rest) as [results later]. cbn [fst] in *.
  constructor; [|exact IH].
  unfold result_of. rewrite Hone. cbn [fst].
  destruct outcome as [r|e]; cbn [try_except]; [left; reflexivity|].
  right. split; [exists e|]; reflexivity.
Qed.

(** X27.  [classify_batch] answers with a list of results exactly when the logger
    of the module drops INFO records, the batch is not empty and it has at
    most [max_batch_size] requests.  In every other case the request ends in
    an HTTP error; for the empty batch and for an enabled INFO level this is
    the status 500. *)
Theorem classify_batch_answers_only_when_quiet (S : services) (E : environment)
    (B : batch_settings) (requests : list ClassifyRequest) :
  ((exists results, (classify_batch S E B requests).1 = Ok results)
   <-> info_enabled B = false /\ requests <> [] /\ length requests <= max_batch_size B)
  /\ ((exists results, (classify_batch S E B requests).1 = Ok results)
      \/ (exists status, (classify_batch S E B requests).1 = Raise (HTTPException status)))
  /\ (length requests <= max_batch_size B ->
      info_enabled B = true \/ requests = [] ->
      (classify_batch S E B requests).1 = Raise (HTTPException 500)).
Proof.
  unfold classify_batch, log_batch.
  destruct (Nat.ltb_spec (max_batch_size B) (length requests)) as [Hbig|Hfits].
  { cbn [fst]. split; [|split].
    - split; [intros [results H]; discriminate|]. intros (_ & _ & H). lia.
    - right. exists 400. reflexivity.
    - intros H. lia. }
  destruct (classify_each S E requests) as [results events]. cbn [fst].
  destruct requests as [|request rest]; cbn [length Nat.eqb].
  { split; [|split].
    - split; [intros [r H]; discriminate|]. intros (_ & H & _). contradiction.
    - right. exists 500. reflexivity.
    - reflexivity. }
  destruct (info_enabled B); cbn [as_http_error].
  - split; [|split].
    + split; [intros [r H]; discriminate|]. intros (H & _). discriminate.
    + right. exists 500. reflexivity.
    + reflexivity.
  - split; [|split].
    + split; [intros _; repeat split; [discriminate|exact Hfits]|].
      intros _. exists results. reflexivity.
    + left. exists results. reflexivity.
    + intros _ [H|H]; discriminate.
Qed.

(** X28.  When [classify_batch] answers, it returns one result per request, in
    the order of the requests: the result of [classify_text] for the
    request, or, when [classify_text] raises for it, a result with the
    language [unknown] and no analysis. *)
Theorem classify_batch_one_result_per_request (S : services) (E : environment)
    (B : batch_settings) (requests : list ClassifyRequest)
    (results : list ClassificationResult) :
  (classify_batch S E B requests).1 = Ok results ->
  Forall2 (result_of S E) requests results.
Proof.
  unfold classify_batch.
  destruct (max_batch_size B <? length requests)%nat; [discriminate|].
  pose proof (classify_each_results S E requests) as Heach.
  destruct (classify_each S E requests) as [each events]. cbn [fst] in *.
  destruct (log_batch B (length requests)); [|discriminate].
  intros [= <-]. exact Heach.
Qed.

Lemma classify_batch_one_result_per_request_witness :
  exists results,
    (classify_batch Doubles.healthy_services Doubles.cold_environment quiet_settings
       [Doubles.full_request;
        {| text := lit "  "; language := lit "auto"; include_toxicity := true;
           include_sentiment := true; include_geo := false |}]).1 = Ok results
    /\ Forall2 (result_of Doubles.healthy_services Doubles.cold_environment)
         [Doubles.full_request;
          {| text := lit "  "; language := lit "auto"; include_toxicity := true;
             include_sentiment := true; include_geo := false |}]
         results.
Proof.
  eexists. split; [vm_compute; reflexivity|].
  refine (classify_batch_one_result_per_request Doubles.healthy_services
            Doubles.cold_environment quiet_settings _ _ _).
  vm_compute. reflexivity.
Defined.

End ClassifyBatchFacts.

(** * The mapping from posts to topics *)

Module TopicMappingFacts.
Import Services TopicCluster IngestRouter.

Lemma map_posts_lookup (topic_id : string) (topic_posts : list post)
    (mapping : gmap string string) (i t : string) :
  map_posts topic_id topic_posts mapping !! i = Some t ->
  mapping !! i = Some t
  \/ (t = topic_id /\ exists p, p ∈ topic_posts /\ id p = Some i).
Proof.
  unfold map_posts. revert mapping.
  induction topic_posts as [|p rest IH]; intros mapping; cbn [foldl]; [auto|].
  intros Hlookup. apply IH in Hlookup as [Hlookup|(-> & q & Hq & Hid)].
  - destruct (id p) as [post_id|] eqn:Hp; [|left; exact Hlookup].
    destruct (decide (post_id = i)) as [->|Hne].
    + rewrite lookup_insert_eq in Hlookup. injection Hlookup as <-.
      right. split; [reflexivity|]. exists p. split; [left|exact Hp].
    + rewrite lookup_insert_ne in Hlookup by exact Hne. left. exact Hlookup.
  - right. split; [reflexivity|]. exists q. split; [right; exact Hq|exact Hid].
Qed.

Lemma map_posts_keeps (topic_id : string) (topic_posts : list post)
    (mapping : gmap string string) (i : string) :
  is_Some (mapping !! i) -> is_Some (map_posts topic_id topic_posts mapping !! i).
Proof.
  unfold map_posts. revert mapping.
  induction topic_posts as [|p rest IH]; intros mapping Hin; cbn [foldl]; [exact Hin|].
  apply IH. destruct (id p) as [post_id|]; [|exact Hin].
  destruct (decide (post_id = i)) as [->|Hne].
  - rewrite lookup_insert_eq. eauto.
  - rewrite lookup_insert_ne by exact Hne. exact Hin.
Qed.

Lemma map_posts_covers (topic_id : string) (topic_posts : list post)
    (mapping : gmap string string) (p : post) (i : string) :
  p ∈ topic_posts -> id p = Some i ->
  is_Some (map_posts topic_id topic_posts mapping !! i).
Proof.
  revert mapping. induction topic_posts as [|q rest IH]; intros mapping Hp Hid.
  - inversion Hp.
  - apply elem_of_cons in Hp as [<-|Hp].
    + change (map_posts topic_id (p :: rest) mapping)
        with (map_posts topic_id rest
                match id p with
                | Some post_id => <[post_id := topic_id]> mapping
                | None => mapping
                end).
      apply map_posts_keeps. rewrite Hid, lookup_insert_eq. eauto.
    + apply (IH _ Hp Hid).
Qed.

Lemma map_topics_lookup (topics : list stored_topic) (mapping final : gmap string string)
    (i t : string) :
  map_topics topics mapping = Ok final ->
  final !! i = Some t ->
  mapping !! i = Some t
  \/ exists st p, st ∈ topics /\ p ∈ posts (cluster st) /\ id p = Some i
                  /\ mapped_topic_id st = Ok t.
Proof.
  revert mapping. induction topics as [|st rest IH]; intros mapping; cbn [map_topics].
  - intros [= <-] Hlookup. left. exact Hlookup.
  - destruct (mapped_topic_id st) as [topic_id|e] eqn:Hid; [|discriminate].
    cbn [mbind result_bind bind]. intros Hrest Hlookup.
    destruct (IH _ Hrest Hlookup) as [Hhere|(st' & p & Hst & Hp & Hpid & Hmapped)].
    + apply map_posts_lookup in Hhere as [Hbefore|(-> & p & Hp & Hpid)];
        [left; exact Hbefore|].
      right. exists st, p. split; [left|auto].
    + right. exists st', p. split; [right; exact Hst|auto].
Qed.

Lemma map_topics_keeps (topics : list stored_topic) (mapping final : gmap string string)
    (i : string) :
  map_topics topics mapping = Ok final -> is_Some (mapping !! i) -> is_Some (final !! i).
Proof.
  revert mapping. induction topics as [|st rest IH]; intros mapping; cbn [map_topics].
  - intros [= <-] Hin. exact Hin.
  - destruct (mapped_topic_id st) as [topic_id|e]; [|discriminate].
    cbn [mbind result_bind bind]. intros Hrest Hin.
    apply (IH _ Hrest), map_posts_keeps, Hin.
Qed.

Lemma map_topics_covers (topics : list stored_topic) (mapping final : gmap string string)
    (st : stored_topic) (p : post) (i : string) :
  map_topics topics mapping = Ok final ->
  st ∈ topics -> p ∈ posts (cluster st) -> id p = Some i ->
  is_Some (final !! i).
Proof.
  revert mapping. induction topics as [|st' rest IH]; intros mapping; cbn [map_topics].
  - intros _ Hst. inversion Hst.
  - destruct (mapped_topic_id st') as [topic_id|e]; [|discriminate].
    cbn [mbind result_bind bind]. intros Hrest Hst Hp Hid.
    apply elem_of_cons in Hst as [<-|Hst].
    + apply (map_topics_keeps _ _ _ _ Hrest), (map_posts_covers _ _ _ p); assumption.
    + apply (IH _ Hrest Hst Hp Hid).
Qed.

(** X29.  [_create_topic_id_mapping] links a post only to a topic that holds it:
    every entry of the mapping joins the id of a post to the id under which
    one of the topics with that post is known.  When every topic has such
    an id, each post of a topic that has an id of its own is in the
    mapping; when one topic has none, the mapping is empty. *)
Theorem _create_topic_id_mapping_links_members (topics : list stored_topic) :
  (forall i t, _create_topic_id_mapping topics !! i = Some t ->
     exists st p, st ∈ topics /\ p ∈ posts (cluster st) /\ id p = Some i
                  /\ mapped_topic_id st = Ok t)
  /\ (Forall (fun st => exists t, mapped_topic_id st = Ok t) topics ->
      forall st p i, st ∈ topics -> p ∈ posts (cluster st) -> id p = Some i ->
        is_Some (_create_topic_id_mapping topics !! i))
  /\ (Exists (fun st => exists e, mapped_topic_id st = Raise e) topics ->
      _create_topic_id_mapping topics = ∅).
Proof.
  unfold _create_topic_id_mapping. split; [|split].
  - intros i t. destruct (map_topics topics ∅) as [final|e] eqn:Hmap; cbn [try_except].
    + intros Hlookup.
      destruct (map_topics_lookup _ _ _ _ _ Hmap Hlookup) as [Hempty|Hfound];
        [rewrite lookup_empty in Hempty; discriminate|exact Hfound].
    + rewrite lookup_empty. discriminate.
  - intros Hids st p i Hst Hp Hid.
    assert (Hmap : forall mapping, exists final, map_topics topics mapping = Ok final).
    { clear - Hids. induction Hids as [|st' rest [t Ht] _ IH]; intros mapping;
        cbn [map_topics]; [eauto|].
      rewrite Ht. cbn [mbind result_bind bind]. apply IH. }
    destruct (Hmap ∅) as [final Hfinal]. rewrite Hfinal. cbn [try_except].
    apply (map_topics_covers _ _ _ _ _ _ Hfinal Hst Hp Hid).
  - intros Hbad.
    assert (Hmap : forall mapping, exists e, map_topics topics mapping = Raise e).
    { clear - Hbad. induction Hbad as [st' rest [e He]|st' rest _ IH]; intros mapping;
        cbn [map_topics].
      - rewrite He. exists e. reflexivity.
      - destruct (mapped_topic_id st') as [t|e]; cbn [mbind result_bind bind];
          [apply IH|exists e; reflexivity]. }
    destruct (Hmap ∅) as [e He]. rewrite He. reflexivity.
Qed.

End TopicMappingFacts.

(** * Spam detection on cleaned text *)

Module SpamFacts.
Import TextCleaner TextCleanerSpec TextCleanerFacts.

Lemma clean_for_classification_plain (L : libs) (text : str) :
  plain (clean_for_classification L text).
Proof.
  destruct text as [|c t]; [constructor|].
  unfold clean_for_classification. cbv zeta.
  set (t6 := remove_repeated_characters _ 2).
  pose proof (remove_special_characters_kept t6) as H7.
  rewrite normalize_whitespace_squeeze.
  apply strip_plain, squeeze_plain, H7.
Qed.

(** A pattern that matches nowhere in the texts of a class closed under
    taking the rest of the text counts no match there. *)
Lemma re_count_go_never (m : pattern) (P : N -> Prop) :
  (forall prev s, Forall P s -> m prev s = None) ->
  forall s skip prev, Forall P s -> re_count_go m skip prev s = 0.
Proof.
  intros Hnever. induction s as [|c t IH]; intros skip prev Hs; [reflexivity|].
  cbn [re_count_go]. inversion Hs as [|? ? Hc Ht]; subst.
  destruct skip as [|k]; [|apply IH, Ht].
  rewrite (Hnever prev (c :: t) Hs). apply IH, Ht.
Qed.

Lemma sigil_pattern_absent (U : unicode_db) (sigil : N) (prev : option N) (s : str) :
  plain_char sigil = false -> plain s -> sigil_pattern U sigil prev s = None.
Proof.
  intros Hsigil Hs. destruct s as [|c t]; [reflexivity|]. cbn [sigil_pattern].
  destruct (N.eqb_spec c sigil) as [->|_]; [|reflexivity].
  inversion Hs as [|? ? Hc _]; subst. congruence.
Qed.

Lemma url_tail_absent (s : str) (len_before : nat) :
  plain s -> url_tail s len_before = None.
Proof.
  intros Hs. unfold url_tail.
  destruct (starts_with (lit "://") s) eqn:Hstart; [|reflexivity].
  exfalso. destruct s as [|a [|b t]]; [discriminate| |].
  - cbn in Hstart. rewrite andb_false_r in Hstart. discriminate.
  - change (lit "://") with [58%N; 47%N; 47%N] in Hstart. cbn [starts_with] in Hstart.
    apply andb_true_iff in Hstart as [_ Hstart].
    apply andb_true_iff in Hstart as [Hb _]. apply N.eqb_eq in Hb. subst b.
    inversion Hs as [|? ? _ Ht]; subst. inversion Ht as [|? ? Hslash _]; subst.
    discriminate Hslash.
Qed.

Lemma url_pattern_absent (prev : option N) (s : str) :
  plain s -> url_pattern prev s = None.
Proof.
  intros Hs. unfold url_pattern.
  destruct (starts_with (lit "http") s); [|reflexivity].
  assert (Hrest : plain (drop 4 s)) by apply Forall_drop, Hs.
  cbv zeta. rewrite (url_tail_absent (drop 4 s) 4 Hrest).
  destruct (drop 4 s) as [|c t]; [reflexivity|].
  destruct (c =? 115)%N; [|reflexivity].
  inversion Hrest as [|? ? _ Ht]; subst.
  rewrite (url_tail_absent t 5 Ht). reflexivity.
Qed.

(** A ratio with the numerator 0 exceeds neither of the two thresholds,
    whatever the denominator. *)
Lemma zero_ratio_small (n : nat) :
  float_gt (true_div 0 n) 0.3 = false /\ float_gt (true_div 0 n) 0.2 = false.
Proof.
  unfold float_gt, true_div. rewrite !FloatAxioms.ltb_spec, !FloatAxioms.div_spec.
  change (Prim2SF (int_to_float 0)) with (S754_zero false).
  destruct (Prim2SF (int_to_float n)) as [s|s| |s m e]; split; vm_compute; reflexivity.
Qed.

(** X30.  The routers pass the text through [clean_for_classification] before
    they ask [is_spam].  Such a text holds no hashtag, no mention and no
    URL, so [get_text_stats] counts none and these three rules of [is_spam]
    never apply: the answer is that of the capitalisation rule and of the
    rule on repeated characters. *)
Theorem is_spam_on_cleaned_text (L : libs) (text : str) :
  let cleaned := clean_for_classification L text in
  hashtag_count (get_text_stats L cleaned) = 0
  /\ mention_count (get_text_stats L cleaned) = 0
  /\ url_count (get_text_stats L cleaned) = 0
  /\ is_spam L cleaned
     = ((10 <? length cleaned)%nat
        && float_gt (true_div (uppercase_count L cleaned) (length cleaned)) 0.7)
       || (3 <? re_count repeated_chars_pattern cleaned)%nat.
Proof.
  intros cleaned. pose proof (clean_for_classification_plain L text) as Hplain.
  fold cleaned in Hplain.
  assert (Hhashtags : re_count (hashtag_pattern (udb L)) cleaned = 0).
  { apply (re_count_go_never _ (fun c => plain_char c = true)); [|exact Hplain].
    intros prev s Hs. apply sigil_pattern_absent; [reflexivity|exact Hs]. }
  assert (Hmentions : re_count (mention_pattern (udb L)) cleaned = 0).
  { apply (re_count_go_never _ (fun c => plain_char c = true)); [|exact Hplain].
    intros prev s Hs. apply sigil_pattern_absent; [reflexivity|exact Hs]. }
  assert (Hurls : re_count url_pattern cleaned = 0).
  { apply (re_count_go_never _ (fun c => plain_char c = true)); [|exact Hplain].
    intros prev s Hs. apply url_pattern_absent, Hs. }
  cbn [get_text_stats hashtag_count mention_count url_count].
  split; [exact Hhashtags|]. split; [exact Hmentions|]. split; [exact Hurls|].
  unfold is_spam. cbn [get_text_stats hashtag_count mention_count url_count word_count_].
  rewrite Hhashtags, Hmentions, Hurls.
  destruct (zero_ratio_small (Nat.max (word_count cleaned) 1)) as [-> ->].
  set (long := (10 <? length cleaned)%nat).
  set (capitals := float_gt (true_div (uppercase_count L cleaned) (length cleaned)) 0.7).
  set (repeated := (3 <? re_count repeated_chars_pattern cleaned)%nat).
  change (2 <? 0)%nat with false. cbv iota.
  destruct long, capitals, repeated; reflexivity.
Qed.

End SpamFacts.
